(** * Attentive statistics poolers of wespeaker/models/pooling_layers.py

    A shallow embedding of the poolers ASTP, MHASTP, MQMHASTP and XI, together
    with the tensor operations of torch they call, and the properties of the
    specification stated and proved over it; then the poolers TAP, TSDP,
    TSTP and ASP of the same file, and further properties of the code.

    Numbers.  Tensor entries are real numbers extended with one undefined
    value [NaN]: rounding and overflow of floating point are idealised away,
    but the operations that have no real result (the mean of an empty axis,
    the unbiased variance of an axis with fewer than two entries, the square
    root of a negative number, the logarithm of a non-positive number, a
    division by zero) return [NaN], and [NaN] is absorbing as in torch.

    Tensors.  A tensor of rank n is its n dimensions and a function from
    indices to entries; only entries inside the dimensions are meaningful. *)

From Stdlib Require Import Reals Lra Lia List Arith Bool Permutation.
Import ListNotations.

Open Scope R_scope.

(** ** Results and exceptions *)

Inductive exn : Type :=
| AssertionError
| RuntimeError
| ValueError
| ZeroDivisionError
| IndexError.

Inductive res (A : Type) : Type :=
| Ok (a : A)
| Raise (e : exn).

Arguments Ok {A} a.
Arguments Raise {A} e.

Definition bind {A B : Type} (c : res A) (k : A -> res B) : res B :=
  match c with
  | Ok a => k a
  | Raise e => Raise e
  end.

Notation "x <- c ;; k" := (bind c (fun x => k))
  (at level 61, c at next level, right associativity).

Definition assert (b : bool) : res unit :=
  if b then Ok tt else Raise AssertionError.

(** ** Scalars *)

Inductive num : Type :=
| Fin (r : R)
| NaN.

Definition lift1 (f : R -> R) (x : num) : num :=
  match x with
  | Fin a => Fin (f a)
  | NaN => NaN
  end.

Definition lift2 (f : R -> R -> R) (x y : num) : num :=
  match x, y with
  | Fin a, Fin b => Fin (f a b)
  | _, _ => NaN
  end.

Definition nadd : num -> num -> num := lift2 Rplus.
Definition nsub : num -> num -> num := lift2 Rminus.
Definition nmul : num -> num -> num := lift2 Rmult.

(** [x / y]: undefined when the divisor is zero. *)
Definition ndiv (x y : num) : num :=
  match x, y with
  | Fin a, Fin b => if Req_dec_T b 0 then NaN else Fin (a / b)
  | _, _ => NaN
  end.

(** Division by a count, as in a mean over [n] entries: undefined for [n = 0]. *)
Definition ndivn (x : num) (n : nat) : num :=
  match n with
  | O => NaN
  | S _ => lift1 (fun a => a / INR n) x
  end.

(** [x ** 2] *)
Definition npow2 : num -> num := lift1 (fun a => a * a).

Definition nexp : num -> num := lift1 exp.
Definition ntanh : num -> num := lift1 tanh.

(** [torch.sqrt]: undefined on negative numbers. *)
Definition nsqrt (x : num) : num :=
  match x with
  | Fin a => if Rlt_dec a 0 then NaN else Fin (sqrt a)
  | NaN => NaN
  end.

(** [torch.log]: undefined on non-positive numbers. *)
Definition nlog (x : num) : num :=
  match x with
  | Fin a => if Rlt_dec 0 a then Fin (ln a) else NaN
  | NaN => NaN
  end.

(** [x.clamp(min=m)] *)
Definition clamp_min (m : R) : num -> num := lift1 (fun a => Rmax a m).

(** [nn.ReLU] *)
Definition relu : num -> num := lift1 (fun a => Rmax 0 a).

(** [nn.Softplus(beta=1, threshold=20)]: the identity above the threshold,
    [log(1 + exp(x))] below it. *)
Definition softplus_R (a : R) : R :=
  if Rlt_dec 20 a then a else ln (1 + exp a).

Definition softplus : num -> num := lift1 softplus_R.

Definition is_fin (x : num) : Prop :=
  match x with
  | Fin _ => True
  | NaN => False
  end.

Definition val (x : num) : R :=
  match x with
  | Fin a => a
  | NaN => 0
  end.

(** Sums over an index range [0 .. n-1]. *)
Fixpoint rsum (n : nat) (f : nat -> R) : R :=
  match n with
  | O => 0
  | S k => rsum k f + f k
  end.

Fixpoint nsum (n : nat) (f : nat -> num) : num :=
  match n with
  | O => Fin 0
  | S k => nadd (nsum k f) (f k)
  end.

(** ** Tensors *)

Record tensor2 : Type := mkT2 {
  t2_B : nat;
  t2_D : nat;
  get2 : nat -> nat -> num
}.

Record tensor3 : Type := mkT3 {
  t3_B : nat;
  t3_C : nat;
  t3_T : nat;
  get3 : nat -> nat -> nat -> num
}.

Record tensor4 : Type := mkT4 {
  t4_B : nat;
  t4_C : nat;
  t4_F : nat;
  t4_T : nat;
  get4 : nat -> nat -> nat -> nat -> num
}.

(** A tensor as the poolers receive and return it.  [Other] stands for the
    tensors of every rank other than 2, 3 and 4; their entries are never
    read. *)
Inductive tensor : Type :=
| Rank2 (x : tensor2)
| Rank3 (x : tensor3)
| Rank4 (x : tensor4)
| Other (dims : list nat).

(** [x.shape] *)
Definition shape (x : tensor) : list nat :=
  match x with
  | Rank2 x => [t2_B x; t2_D x]
  | Rank3 x => [t3_B x; t3_C x; t3_T x]
  | Rank4 x => [t4_B x; t4_C x; t4_F x; t4_T x]
  | Other dims => dims
  end.

(** Every entry inside the dimensions is a real number. *)
Definition finite3 (x : tensor3) : Prop :=
  forall b c t, (b < t3_B x)%nat -> (c < t3_C x)%nat -> (t < t3_T x)%nat ->
                is_fin (get3 x b c t).

(** *** Shape operations *)

(** [x.reshape(x.shape[0], x.shape[1] * x.shape[2], x.shape[3])]: entries are
    kept in row-major order, so merged channel [k] is channel [k / F],
    frequency [k mod F]. *)
Definition reshape43 (x : tensor4) : tensor3 :=
  mkT3 (t4_B x) (t4_C x * t4_F x) (t4_T x)
       (fun b k t => get4 x b (k / t4_F x) (k mod t4_F x) t).

(** [x.unsqueeze(dim=2)] on a rank-2 tensor *)
Definition unsqueeze2 (x : tensor2) : tensor3 :=
  mkT3 (t2_B x) (t2_D x) 1 (fun b c _ => get2 x b c).

(** [x.repeat(r0, r1)] on a rank-2 tensor *)
Definition repeat2 (x : tensor2) (r0 r1 : nat) : tensor2 :=
  mkT2 (t2_B x * r0) (t2_D x * r1)
       (fun b j => get2 x (b mod t2_B x) (j mod t2_D x)).

(** Index of a broadcast operand: a dimension of size 1 is read at 0. *)
Definition bidx (d i : nat) : nat := if (d =? 1)%nat then 0%nat else i.

(** Size of a broadcast dimension; sizes must agree or one of them be 1. *)
Definition bdim (d1 d2 : nat) : res nat :=
  if (d1 =? d2)%nat then Ok d1
  else if (d1 =? 1)%nat then Ok d2
  else if (d2 =? 1)%nat then Ok d1
  else Raise RuntimeError.

(** [y.expand_as(x)]; in this program [y] is a statistic of [x] with
    [keepdim=True], of shape (B, C, 1). *)
Definition expand_as (y x : tensor3) : tensor3 :=
  mkT3 (t3_B x) (t3_C x) (t3_T x)
       (fun b c t => get3 y (bidx (t3_B y) b) (bidx (t3_C y) c) (bidx (t3_T y) t)).

(** [torch.cat((x, y), dim=1)] on rank-3 tensors *)
Definition cat3_dim1 (x y : tensor3) : res tensor3 :=
  if ((t3_B x =? t3_B y) && (t3_T x =? t3_T y))%nat
  then Ok (mkT3 (t3_B x) (t3_C x + t3_C y) (t3_T x)
                (fun b c t => if (c <? t3_C x)%nat then get3 x b c t
                              else get3 y b (c - t3_C x)%nat t))
  else Raise RuntimeError.

(** [torch.cat((x, y), dim=2)] on rank-3 tensors *)
Definition cat3_dim2 (x y : tensor3) : res tensor3 :=
  if ((t3_B x =? t3_B y) && (t3_C x =? t3_C y))%nat
  then Ok (mkT3 (t3_B x) (t3_C x) (t3_T x + t3_T y)
                (fun b c t => if (t <? t3_T x)%nat then get3 x b c t
                              else get3 y b c (t - t3_T x)%nat))
  else Raise RuntimeError.

(** [torch.cat((x, y), dim=1)] on rank-2 tensors ([dim=-1] is the same axis) *)
Definition cat2_dim1 (x y : tensor2) : res tensor2 :=
  if (t2_B x =? t2_B y)%nat
  then Ok (mkT2 (t2_B x) (t2_D x + t2_D y)
                (fun b j => if (j <? t2_D x)%nat then get2 x b j
                            else get2 y b (j - t2_D x)%nat))
  else Raise RuntimeError.

(** [torch.cat] of a list of tensors: an empty list is an error. *)
Fixpoint cat_list {A : Type} (cat : A -> A -> res A) (ts : list A) : res A :=
  match ts with
  | [] => Raise RuntimeError
  | x :: rest =>
      match rest with
      | [] => Ok x
      | _ :: _ => r <- cat_list cat rest ;; cat x r
      end
  end.

(** [x.narrow(1, start, len)]: channels [start .. start+len-1] *)
Definition narrow1 (x : tensor3) (start len : nat) : tensor3 :=
  mkT3 (t3_B x) len (t3_T x) (fun b c t => get3 x b (start + c)%nat t).

(** Ceiling of [a / b] *)
Definition cdiv (a b : nat) : nat := ((a + b - 1) / b)%nat.

(** [torch.chunk(x, n, 1)]: pieces of [ceil(C / n)] channels, the last one
    possibly smaller, as many as are needed to cover the [C] channels; [n]
    empty pieces when [C = 0]. *)
Definition chunk1 (x : tensor3) (n : nat) : res (list tensor3) :=
  if (n =? 0)%nat then Raise RuntimeError
  else
    let s := cdiv (t3_C x) n in
    if (s =? 0)%nat then Ok (map (fun _ => narrow1 x 0 0) (seq 0 n))
    else Ok (map (fun k => narrow1 x (k * s) (Nat.min s (t3_C x - k * s)))
                 (seq 0 (cdiv (t3_C x) s))).

(** *** Pointwise operations *)

Definition tmap2 (f : num -> num) (x : tensor2) : tensor2 :=
  mkT2 (t2_B x) (t2_D x) (fun b j => f (get2 x b j)).

Definition tmap3 (f : num -> num) (x : tensor3) : tensor3 :=
  mkT3 (t3_B x) (t3_C x) (t3_T x) (fun b c t => f (get3 x b c t)).

(** A binary operation with broadcasting, on rank-2 and rank-3 tensors *)
Definition bin2 (f : num -> num -> num) (x y : tensor2) : res tensor2 :=
  B <- bdim (t2_B x) (t2_B y) ;;
  D <- bdim (t2_D x) (t2_D y) ;;
  Ok (mkT2 B D (fun b j => f (get2 x (bidx (t2_B x) b) (bidx (t2_D x) j))
                             (get2 y (bidx (t2_B y) b) (bidx (t2_D y) j)))).

Definition bin3 (f : num -> num -> num) (x y : tensor3) : res tensor3 :=
  B <- bdim (t3_B x) (t3_B y) ;;
  C <- bdim (t3_C x) (t3_C y) ;;
  T <- bdim (t3_T x) (t3_T y) ;;
  Ok (mkT3 B C T
        (fun b c t =>
           f (get3 x (bidx (t3_B x) b) (bidx (t3_C x) c) (bidx (t3_T x) t))
             (get3 y (bidx (t3_B y) b) (bidx (t3_C y) c) (bidx (t3_T y) t)))).

(** *** Reductions over the time axis *)

(** [torch.sum(x, dim=2)] *)
Definition sum_dim2 (x : tensor3) : tensor2 :=
  mkT2 (t3_B x) (t3_C x) (fun b c => nsum (t3_T x) (fun t => get3 x b c t)).

(** [torch.mean(x, dim=-1, keepdim=True)] *)
Definition mean_keepdim (x : tensor3) : tensor3 :=
  mkT3 (t3_B x) (t3_C x) 1
       (fun b c _ => ndivn (nsum (t3_T x) (fun t => get3 x b c t)) (t3_T x)).

(** [torch.var(x, dim=-1, keepdim=True)]: the unbiased estimate, the sum of
    squared deviations divided by [max(0, T - 1)]. *)
Definition var_keepdim (x : tensor3) : tensor3 :=
  mkT3 (t3_B x) (t3_C x) 1
       (fun b c _ =>
          let m := ndivn (nsum (t3_T x) (fun t => get3 x b c t)) (t3_T x) in
          ndivn (nsum (t3_T x) (fun t => npow2 (nsub (get3 x b c t) m)))
                (t3_T x - 1)).

(** [torch.softmax(x, dim=2)] *)
Definition softmax_dim2 (x : tensor3) : tensor3 :=
  mkT3 (t3_B x) (t3_C x) (t3_T x)
       (fun b c t => ndiv (nexp (get3 x b c t))
                          (nsum (t3_T x) (fun s => nexp (get3 x b c s)))).

Fixpoint mapM {A B : Type} (f : A -> res B) (l : list A) : res (list B) :=
  match l with
  | [] => Ok []
  | a :: rest => b <- f a ;; bs <- mapM f rest ;; Ok (b :: bs)
  end.

(** [l[i]] of a Python list *)
Definition index {A : Type} (l : list A) (i : nat) : res A :=
  match nth_error l i with
  | Some a => Ok a
  | None => Raise IndexError
  end.

(** The variance floor 1e-7 of ASTP and MHASTP, the floor 1e-12 of XI, and
    the 1e-7 added to the variance of the global context *)
Definition floor_astp : R := 1 / 10000000.
Definition floor_xi : R := 1 / 1000000000000.
Definition eps_std : R := 1 / 10000000.

(** ** Layers of torch.nn *)

(** [nn.Conv1d(in_channels, out_channels, kernel_size=1)]: the same affine
    map at every time step. *)
Record Conv1d : Type := mkConv {
  in_channels : nat;
  out_channels : nat;
  weight : nat -> nat -> R;
  bias : nat -> R
}.

(** A convolution refuses an input whose channel count is not
    [in_channels], and one shorter than its kernel (here: an empty time
    axis). *)
Definition Conv1d_apply (l : Conv1d) (x : tensor3) : tensor3 :=
  mkT3 (t3_B x) (out_channels l) (t3_T x)
       (fun b k t =>
          nadd (nsum (in_channels l)
                     (fun j => nmul (Fin (weight l k j)) (get3 x b j t)))
               (Fin (bias l k))).

Definition Conv1d_forward (l : Conv1d) (x : tensor3) : res tensor3 :=
  if ((t3_C x =? in_channels l) && (1 <=? t3_T x))%nat
  then Ok (Conv1d_apply l x)
  else Raise RuntimeError.

(** The members of the [nn.Sequential] of an MHASTP head *)
Inductive layer : Type :=
| Conv (c : Conv1d)
| Tanh.

Definition layer_forward (l : layer) (x : tensor3) : res tensor3 :=
  match l with
  | Conv c => Conv1d_forward c x
  | Tanh => Ok (tmap3 ntanh x)
  end.

Fixpoint Sequential_forward (ls : list layer) (x : tensor3) : res tensor3 :=
  match ls with
  | [] => Ok x
  | l :: rest => y <- layer_forward l x ;; Sequential_forward rest y
  end.

(** [nn.BatchNorm1d(num_features)] with its buffers and its mode *)
Record BatchNorm1d : Type := mkBN {
  num_features : nat;
  bn_eps : R;
  momentum : R;
  bn_weight : nat -> R;
  bn_bias : nat -> R;
  running_mean : nat -> num;
  running_var : nat -> num;
  num_batches_tracked : nat;
  training : bool
}.

Definition BatchNorm1d_init (n : nat) : BatchNorm1d :=
  mkBN n (1 / 100000) (1 / 10) (fun _ => 1) (fun _ => 0)
       (fun _ => Fin 0) (fun _ => Fin 1) 0 true.

(** Statistics of channel [k] over the batch and time axes *)
Definition batch_mean (x : tensor3) (k : nat) : num :=
  ndivn (nsum (t3_B x) (fun b => nsum (t3_T x) (fun t => get3 x b k t)))
        (t3_B x * t3_T x).

Definition batch_sqdev (x : tensor3) (k : nat) : num :=
  nsum (t3_B x)
       (fun b => nsum (t3_T x)
                      (fun t => npow2 (nsub (get3 x b k t) (batch_mean x k)))).

Definition batch_var_biased (x : tensor3) (k : nat) : num :=
  ndivn (batch_sqdev x k) (t3_B x * t3_T x).

Definition batch_var_unbiased (x : tensor3) (k : nat) : num :=
  ndivn (batch_sqdev x k) (t3_B x * t3_T x - 1).

Definition bn_normalize (l : BatchNorm1d) (mean var : nat -> num)
           (x : tensor3) : tensor3 :=
  mkT3 (t3_B x) (t3_C x) (t3_T x)
       (fun b k t =>
          nadd (nmul (ndiv (nsub (get3 x b k t) (mean k))
                           (nsqrt (nadd (var k) (Fin (bn_eps l)))))
                     (Fin (bn_weight l k)))
               (Fin (bn_bias l k))).

Definition bn_track (l : BatchNorm1d) : BatchNorm1d :=
  mkBN (num_features l) (bn_eps l) (momentum l) (bn_weight l) (bn_bias l)
       (running_mean l) (running_var l) (S (num_batches_tracked l))
       (training l).

Definition bn_update (l : BatchNorm1d) (x : tensor3) : BatchNorm1d :=
  let upd (old : nat -> num) (new : nat -> num) (k : nat) : num :=
    nadd (nmul (Fin (1 - momentum l)) (old k))
         (nmul (Fin (momentum l)) (new k)) in
  mkBN (num_features l) (bn_eps l) (momentum l) (bn_weight l) (bn_bias l)
       (upd (running_mean l) (batch_mean x))
       (upd (running_var l) (batch_var_unbiased x))
       (num_batches_tracked l) (training l).

(** In training mode the layer counts the batch, refuses a batch with a
    single value per channel, normalises with the statistics of the batch
    and moves its running statistics towards them (an empty batch leaves
    them as they are).  In evaluation mode it normalises with the running
    statistics and changes nothing. *)
Definition BatchNorm1d_forward (l : BatchNorm1d) (x : tensor3)
  : BatchNorm1d * res tensor3 :=
  if training l then
    let l1 := bn_track l in
    if (t3_B x * t3_T x =? 1)%nat then (l1, Raise ValueError)
    else if negb (t3_C x =? num_features l)%nat then (l1, Raise RuntimeError)
    else if (t3_B x * t3_T x =? 0)%nat then (l1, Ok x)
    else (bn_update l1 x,
          Ok (bn_normalize l (batch_mean x) (batch_var_biased x) x))
  else
    if negb (t3_C x =? num_features l)%nat then (l, Raise RuntimeError)
    else (l, Ok (bn_normalize l (running_mean l) (running_var l) x)).

(** ** The poolers *)

(** The first lines of every forward but XI's: a rank-4 input is reshaped to
    rank 3, then the rank is asserted to be 3. *)
Definition to_rank3 (x : tensor) : res tensor3 :=
  match x with
  | Rank4 x4 => Ok (reshape43 x4)
  | Rank3 x3 => Ok x3
  | Rank2 _ | Other _ => Raise AssertionError
  end.

(** The weighted mean and standard deviation over time, concatenated along
    the channel axis (ASTP.forward lines 141-144, MHASTP.forward lines
    238-241). *)
Definition weighted_stats (alpha x : tensor3) : res tensor2 :=
  ax <- bin3 nmul alpha x ;;
  let mean := sum_dim2 ax in
  ax2 <- bin3 nmul alpha (tmap3 npow2 x) ;;
  var <- bin2 nsub (sum_dim2 ax2) (tmap2 npow2 mean) ;;
  let std := tmap2 nsqrt (tmap2 (clamp_min floor_astp) var) in
  cat2_dim1 mean std.

Module ASTP.

Record t : Type := mk {
  in_dim : nat;
  global_context_att : bool;
  linear1 : Conv1d;
  linear2 : Conv1d
}.

(** [__init__]; the initial weights of the two convolutions are arguments. *)
Definition init (in_dim bottleneck_dim : nat) (global_context_att : bool)
           (w1 : nat -> nat -> R) (b1 : nat -> R)
           (w2 : nat -> nat -> R) (b2 : nat -> R) : t :=
  mk in_dim global_context_att
     (if global_context_att
      then mkConv (in_dim * 3) bottleneck_dim w1 b1
      else mkConv in_dim bottleneck_dim w1 b1)
     (mkConv bottleneck_dim in_dim w2 b2).

(** Lines 129-135: the input of the scorer *)
Definition scorer_input (p : t) (x : tensor3) : res tensor3 :=
  if global_context_att p then
    let context_mean := expand_as (mean_keepdim x) x in
    let context_std :=
      expand_as
        (tmap3 nsqrt
               (tmap3 (fun v => nadd v (Fin eps_std)) (var_keepdim x)))
        x in
    cat_list cat3_dim1 [x; context_mean; context_std]
  else Ok x.

(** Lines 129-140: the attention weights [alpha] *)
Definition attention (p : t) (x : tensor3) : res tensor3 :=
  x_in <- scorer_input p x ;;
  h <- Conv1d_forward (linear1 p) x_in ;;
  let alpha := tmap3 ntanh h in
  s <- Conv1d_forward (linear2 p) alpha ;;
  Ok (softmax_dim2 s).

Definition forward (p : t) (x : tensor) : res tensor2 :=
  x <- to_rank3 x ;;
  alpha <- attention p x ;;
  weighted_stats alpha x.

(** The value returned; the method also stores it in the attribute
    [out_dim], which nothing reads. *)
Definition get_out_dim (p : t) : nat := 2 * in_dim p.

End ASTP.

Module MHASTP.

Record t : Type := mk {
  in_dim : nat;
  head_num : nat;
  d_s : nat;
  heads_att_trans : list (list layer)
}.

(** [channel_dims] after line 202: index 0 is assigned first, then the
    last index. *)
Definition channel_dims (layer_num d_model d_s bottleneck_dim i : nat)
  : nat :=
  if (i =? layer_num)%nat then d_s
  else if (i =? 0)%nat then d_model
  else bottleneck_dim.

(** Lines 205-214: the scorer of one head; [w i] and [b i] are the
    initial weights of its [i]-th convolution. *)
Definition att_trans (layer_num d_model d_s bottleneck_dim : nat)
           (w : nat -> nat -> nat -> R) (b : nat -> nat -> R)
  : list layer :=
  let cd := channel_dims layer_num d_model d_s bottleneck_dim in
  flat_map (fun i => [Conv (mkConv (cd i) (cd (i + 1)%nat) (w i) (b i));
                      Tanh])
           (seq 0 (layer_num - 1))
  ++ [Conv (mkConv (cd (layer_num - 1)%nat) (cd layer_num)
                   (w (layer_num - 1)%nat) (b (layer_num - 1)%nat))].

(** [__init__]: the assertion on [in_dim % head_num] comes first. *)
Definition init (in_dim layer_num head_num d_s bottleneck_dim : nat)
           (w : nat -> nat -> nat -> nat -> R)
           (b : nat -> nat -> nat -> R) : res t :=
  if (head_num =? 0)%nat then Raise ZeroDivisionError
  else
    _ <- assert (in_dim mod head_num =? 0)%nat ;;
    let d_model := (in_dim / head_num)%nat in
    let d_s := if (1 <? d_s)%nat then d_model else 1%nat in
    Ok (mk in_dim head_num d_s
           (map (fun h => att_trans layer_num d_model d_s bottleneck_dim
                                    (w h) (b h))
                (seq 0 head_num))).

(** Lines 236-237: the attention weights of one head *)
Definition head_attention (att : list layer) (chunk : tensor3)
  : res tensor3 :=
  att_score <- Sequential_forward att chunk ;;
  Ok (softmax_dim2 att_score).

(** Lines 236-241: the body of the loop over the heads *)
Definition head_forward (att : list layer) (chunk : tensor3)
  : res tensor2 :=
  alpha <- head_attention att chunk ;;
  weighted_stats alpha chunk.

(** Lines 235-241: [for i, layer in enumerate(self.heads_att_trans)],
    started at head [i]. *)
Fixpoint heads_loop (atts : list (list layer)) (chunks : list tensor3)
         (i : nat) : res (list tensor2) :=
  match atts with
  | [] => Ok []
  | att :: rest =>
      chunk <- index chunks i ;;
      o <- head_forward att chunk ;;
      os <- heads_loop rest chunks (S i) ;;
      Ok (o :: os)
  end.

Definition forward (p : t) (x : tensor) : res tensor2 :=
  input <- to_rank3 x ;;
  chunks <- chunk1 input (head_num p) ;;
  chunks_out <- heads_loop (heads_att_trans p) chunks 0 ;;
  cat_list cat2_dim1 chunks_out.

Definition get_out_dim (p : t) : nat := 2 * in_dim p.

End MHASTP.

Module MQMHASTP.

Record t : Type := mk {
  n_query : list MHASTP.t;
  query_num : nat;
  in_dim : nat
}.

(** [__init__]: the [query_num] children are built first, each with its
    own initial weights [w q], [b q]. *)
Definition init (in_dim layer_num query_num head_num d_s bottleneck_dim : nat)
           (w : nat -> nat -> nat -> nat -> nat -> R)
           (b : nat -> nat -> nat -> nat -> R) : res t :=
  qs <- mapM (fun q => MHASTP.init in_dim layer_num head_num d_s
                                   bottleneck_dim (w q) (b q))
             (seq 0 query_num) ;;
  Ok (mk qs query_num in_dim).

Definition forward (p : t) (x : tensor) : res tensor2 :=
  input <- to_rank3 x ;;
  outs <- mapM (fun layer => MHASTP.forward layer (Rank3 input))
               (n_query p) ;;
  cat_list cat2_dim1 outs.

Definition get_out_dim (p : t) : nat := in_dim p * 2 * query_num p.

End MQMHASTP.

Module XI.

Record t : Type := mk {
  input_dim : nat;
  stddev : bool;
  output_dim : nat;
  prior_mean : nat -> R;
  prior_logprec : nat -> R;
  lin1 : Conv1d;
  bn : BatchNorm1d;
  lin2 : Conv1d
}.

(** [__init__]: both priors start at zero; [lin1] and [bn] are the
    convolution and the normalisation of [lin1_relu_bn].  The flags
    [train_mean] and [train_prec] only tell the optimiser what to update. *)
Definition init (in_dim hidden_size : nat) (stddev : bool)
           (w1 : nat -> nat -> R) (b1 : nat -> R)
           (w2 : nat -> nat -> R) (b2 : nat -> R) : t :=
  mk in_dim stddev
     (if stddev then (2 * in_dim)%nat else in_dim)
     (fun _ => 0) (fun _ => 0)
     (mkConv in_dim hidden_size w1 b1)
     (BatchNorm1d_init hidden_size)
     (mkConv hidden_size in_dim w2 b2).

Definition set_bn (p : t) (l : BatchNorm1d) : t :=
  mk (input_dim p) (stddev p) (output_dim p) (prior_mean p)
     (prior_logprec p) (lin1 p) l (lin2 p).

(** A parameter of shape (1, n) *)
Definition param_row (n : nat) (f : nat -> R) : tensor2 :=
  mkT2 1 n (fun _ j => Fin (f j)).

(** [param.repeat(B, 1).unsqueeze(dim=2)]: the prior as one more frame *)
Definition prior_frame (n : nat) (f : nat -> R) (B : nat) : tensor3 :=
  unsqueeze2 (repeat2 (param_row n f) B 1).

(** [self.lin1_relu_bn(feat)]: convolution, ReLU, batch normalisation *)
Definition lin1_relu_bn (p : t) (feat : tensor3)
  : BatchNorm1d * res tensor3 :=
  match Conv1d_forward (lin1 p) feat with
  | Raise e => (bn p, Raise e)
  | Ok h => BatchNorm1d_forward (bn p) (tmap3 relu h)
  end.

(** Lines 349-352, after [lin1_relu_bn] *)
Definition logprec_of (p : t) (h : tensor3) : res tensor3 :=
  z <- Conv1d_forward (lin2 p) h ;;
  Ok (tmap3 (fun v => nmul (Fin 2) (nlog v)) (tmap3 softplus z)).

(** Lines 355-359 *)
Definition weight_attn (p : t) (logprec : tensor3) : res tensor3 :=
  aug <- cat3_dim2 logprec
           (prior_frame (input_dim p) (prior_logprec p) (t3_B logprec)) ;;
  Ok (softmax_dim2 aug).

(** Lines 355-376 *)
Definition posterior (p : t) (feat logprec : tensor3) : res tensor :=
  weight_attn <- weight_attn p logprec ;;
  aug_lp <- cat3_dim2 logprec
              (prior_frame (input_dim p) (prior_logprec p)
                           (t3_B logprec)) ;;
  let Ls := sum_dim2 (tmap3 nexp aug_lp) in
  aug_x <- cat3_dim2 feat
             (prior_frame (input_dim p) (prior_mean p) (t3_B feat)) ;;
  wx <- bin3 nmul aug_x weight_attn ;;
  let phi := sum_dim2 wx in
  if stddev p then
    wx2 <- bin3 nmul (tmap3 npow2 aug_x) weight_attn ;;
    let sigma2 := sum_dim2 wx2 in
    d <- bin2 nsub sigma2 (tmap2 npow2 phi) ;;
    let sigma := tmap2 nsqrt (tmap2 (clamp_min floor_xi) d) in
    o <- cat2_dim1 phi sigma ;;
    Ok (Rank3 (unsqueeze2 o))
  else Ok (Rank2 phi).

(** [forward] returns the module after the call too: the batch
    normalisation has buffers. *)
Definition forward (p : t) (inputs : tensor) : t * res tensor :=
  match inputs with
  | Rank3 feat =>
      if negb (t3_C feat =? input_dim p)%nat then (p, Raise AssertionError)
      else
        let (l, r) := lin1_relu_bn p feat in
        (set_bn p l,
         h <- r ;; logprec <- logprec_of p h ;; posterior p feat logprec)
  | Rank2 _ | Rank4 _ | Other _ => (p, Raise AssertionError)
  end.

Definition get_out_dim (p : t) : nat := output_dim p.

End XI.

(** ** The family of poolers behind one interface *)

Inductive Pooler : Type :=
| P_ASTP (p : ASTP.t)
| P_MHASTP (p : MHASTP.t)
| P_MQMHASTP (p : MQMHASTP.t)
| P_XI (p : XI.t).

Definition rank2 (r : res tensor2) : res tensor := o <- r ;; Ok (Rank2 o).

Definition forward (p : Pooler) (x : tensor) : Pooler * res tensor :=
  match p with
  | P_ASTP a => (p, rank2 (ASTP.forward a x))
  | P_MHASTP a => (p, rank2 (MHASTP.forward a x))
  | P_MQMHASTP a => (p, rank2 (MQMHASTP.forward a x))
  | P_XI a => let (a', r) := XI.forward a x in (P_XI a', r)
  end.

Definition get_out_dim (p : Pooler) : nat :=
  match p with
  | P_ASTP a => ASTP.get_out_dim a
  | P_MHASTP a => MHASTP.get_out_dim a
  | P_MQMHASTP a => MQMHASTP.get_out_dim a
  | P_XI a => XI.get_out_dim a
  end.

(** ** Vocabulary of the properties *)

(** The softmax of a row of real numbers *)
Definition softmax_R (n : nat) (v : nat -> R) (t : nat) : R :=
  exp (v t) / rsum n (fun s => exp (v s)).


(** The entries computed by [weighted_stats]: the weighted mean and the
    weighted standard deviation of row (b, c) *)
Definition wmean (alpha x : tensor3) (b c : nat) : num :=
  nsum (t3_T x)
       (fun t => nmul (get3 alpha b (bidx (t3_C alpha) c) t) (get3 x b c t)).

Definition wsecond (alpha x : tensor3) (b c : nat) : num :=
  nsum (t3_T x)
       (fun t => nmul (get3 alpha b (bidx (t3_C alpha) c) t)
                      (npow2 (get3 x b c t))).

Definition wstd (floor : R) (alpha x : tensor3) (b c : nat) : num :=
  nsqrt (clamp_min floor
                   (nsub (wsecond alpha x b c) (npow2 (wmean alpha x b c)))).

(** The structure [XI.__init__] gives the module, whatever the values of its
    parameters and buffers. *)
Definition XI_wf (q : XI.t) : Prop :=
  in_channels (XI.lin1 q) = XI.input_dim q /\
  out_channels (XI.lin1 q) = num_features (XI.bn q) /\
  in_channels (XI.lin2 q) = num_features (XI.bn q) /\
  out_channels (XI.lin2 q) = XI.input_dim q /\
  XI.output_dim q
  = (if XI.stddev q then (2 * XI.input_dim q)%nat else XI.input_dim q) /\
  0 < bn_eps (XI.bn q).

(** The running statistics are real numbers and the running variance is
    not negative. *)
Definition bn_stats_ok (l : BatchNorm1d) : Prop :=
  forall k, (k < num_features l)%nat ->
    (exists m, running_mean l k = Fin m) /\
    (exists v, running_var l k = Fin v /\ 0 <= v).

(** Row (b, c) of a tensor with the prior value of channel [c] appended as
    one more frame *)
Definition XI_aug (x : tensor3) (f : nat -> R) (b c t : nat) : num :=
  if (t <? t3_T x)%nat then get3 x b c t else Fin (f c).

(** The posterior mean and standard deviation of row (b, c) under the
    weights [wa] *)
Definition XI_phi (q : XI.t) (feat wa : tensor3) (b c : nat) : num :=
  nsum (t3_T feat + 1)
       (fun t => nmul (XI_aug feat (XI.prior_mean q) b c t) (get3 wa b c t)).

Definition XI_sigma2 (q : XI.t) (feat wa : tensor3) (b c : nat) : num :=
  nsum (t3_T feat + 1)
       (fun t => nmul (npow2 (XI_aug feat (XI.prior_mean q) b c t))
                      (get3 wa b c t)).

Definition XI_sigma (q : XI.t) (feat wa : tensor3) (b c : nat) : num :=
  nsqrt (clamp_min floor_xi
                   (nsub (XI_sigma2 q feat wa b c)
                         (npow2 (XI_phi q feat wa b c)))).

(** A pooler as some call of its constructor builds it (with at least one
    layer per scorer and at least one query), whatever the values of its
    parameters and buffers. *)
Definition Pooler_valid (p : Pooler) : Prop :=
  match p with
  | P_ASTP a =>
      exists in_dim bottleneck_dim gca w1 b1 w2 b2,
        a = ASTP.init in_dim bottleneck_dim gca w1 b1 w2 b2
  | P_MHASTP a =>
      exists in_dim layer_num head_num d_s bottleneck_dim w b,
        (1 <= layer_num)%nat /\
        MHASTP.init in_dim layer_num head_num d_s bottleneck_dim w b = Ok a
  | P_MQMHASTP a =>
      exists in_dim layer_num query_num head_num d_s bottleneck_dim w b,
        (1 <= layer_num)%nat /\ (1 <= query_num)%nat /\
        MQMHASTP.init in_dim layer_num query_num head_num d_s bottleneck_dim
                      w b = Ok a
  | P_XI q => XI_wf q
  end.

(** The configured number of input channels *)
Definition in_dim_of (p : Pooler) : nat :=
  match p with
  | P_ASTP a => ASTP.in_dim a
  | P_MHASTP a => MHASTP.in_dim a
  | P_MQMHASTP a => MQMHASTP.in_dim a
  | P_XI q => XI.input_dim q
  end.

(** The rank-3 form [x3] under which a pooler reads its input [x]: XI takes
    rank-3 inputs only, the others reshape rank-4 inputs. *)
Definition reads_as (p : Pooler) (x : tensor) (x3 : tensor3) : Prop :=
  match p with
  | P_XI _ => x = Rank3 x3
  | _ => to_rank3 x = Ok x3
  end.

(** A valid input: [in_dim] channels, at least one frame and, for XI in
    training mode, more than one value per channel. *)
Definition valid_input (p : Pooler) (x : tensor) (x3 : tensor3) : Prop :=
  reads_as p x x3 /\
  t3_C x3 = in_dim_of p /\ (1 <= t3_T x3)%nat /\
  match p with
  | P_XI q => training (XI.bn q) = true -> (t3_B x3 * t3_T x3)%nat <> 1%nat
  | _ => True
  end.

Definition xi_with_stddev (p : Pooler) : bool :=
  match p with
  | P_XI q => XI.stddev q
  | _ => false
  end.

(** Inputs and poolers of the examples *)
Definition w0 : nat -> nat -> R := fun _ _ => 0.
Definition b0 : nat -> R := fun _ => 0.

Definition const3 (B C T : nat) (v : R) : tensor3 :=
  mkT3 B C T (fun _ _ _ => Fin v).

Definition astp_ex : ASTP.t := ASTP.init 2 3 false w0 b0 w0 b0.

Definition xi_stddev_ex : XI.t := XI.init 1 1 true w0 b0 w0 b0.

(** The trainable parameters and the configuration of [p'] are those of
    [p]: nothing but the buffers of XI's batch normalisation may differ. *)
Definition same_parameters (p p' : Pooler) : Prop :=
  match p, p' with
  | P_XI q, P_XI q' =>
      q' = XI.set_bn q (XI.bn q') /\
      num_features (XI.bn q') = num_features (XI.bn q) /\
      bn_eps (XI.bn q') = bn_eps (XI.bn q) /\
      momentum (XI.bn q') = momentum (XI.bn q) /\
      bn_weight (XI.bn q') = bn_weight (XI.bn q) /\
      bn_bias (XI.bn q') = bn_bias (XI.bn q) /\
      training (XI.bn q') = training (XI.bn q)
  | _, _ => p' = p
  end.

(** Whether [forward] of this pooler runs in training mode with buffers to
    update *)
Definition xi_in_training (p : Pooler) : bool :=
  match p with
  | P_XI q => training (XI.bn q)
  | _ => false
  end.

Definition wq0 : nat -> nat -> nat -> nat -> nat -> R := fun _ _ _ _ _ => 0.
Definition bq0 : nat -> nat -> nat -> nat -> R := fun _ _ _ _ => 0.
Definition wh0 : nat -> nat -> nat -> nat -> R := fun _ _ _ _ => 0.
Definition bh0 : nat -> nat -> nat -> R := fun _ _ _ => 0.

Definition const4 (B C F T : nat) (v : R) : tensor4 :=
  mkT4 B C F T (fun _ _ _ _ => Fin v).


(** Entry (b, c) of an output of rank 2, or of rank 3 with a last axis of
    size 1 *)
Definition out_entry (out : tensor) (b c : nat) : num :=
  match out with
  | Rank2 o => get2 o b c
  | Rank3 o => get3 o b c 0
  | Rank4 _ | Other _ => NaN
  end.


(** Two rank-3 tensors of the same shape and the same entries *)
Definition agree3 (x y : tensor3) : Prop :=
  t3_B x = t3_B y /\ t3_C x = t3_C y /\ t3_T x = t3_T y /\
  forall b c t, (b < t3_B x)%nat -> (c < t3_C x)%nat -> (t < t3_T x)%nat ->
                get3 x b c t = get3 y b c t.

(** An input of shape (2, 8, 5) whose entry (b, c, t) is [c + t], and the
    same input with channels 4 to 7 replaced by 9 *)
Definition ramp3 : tensor3 :=
  mkT3 2 8 5 (fun _ c t => Fin (INR c + INR t)).

Definition ramp3_perturbed : tensor3 :=
  mkT3 2 8 5 (fun _ c t => if (c <? 4)%nat then Fin (INR c + INR t)
                           else Fin 9).

(** ** The poolers without a scorer: TAP, TSDP and TSTP *)

(** [x.mean(dim=-1)] and [torch.var(x, dim=-1)] (the unbiased estimate) on a
    rank-3 tensor (B, F, T): the statistics of [mean_keepdim] and
    [var_keepdim], without the reduced axis. *)
Definition mean_last3 (x : tensor3) : tensor2 :=
  mkT2 (t3_B x) (t3_C x)
       (fun b c => ndivn (nsum (t3_T x) (fun t => get3 x b c t)) (t3_T x)).

Definition var_last3 (x : tensor3) : tensor2 :=
  mkT2 (t3_B x) (t3_C x)
       (fun b c =>
          let m := ndivn (nsum (t3_T x) (fun t => get3 x b c t)) (t3_T x) in
          ndivn (nsum (t3_T x) (fun t => npow2 (nsub (get3 x b c t) m)))
                (t3_T x - 1)).

(** The same on a rank-4 tensor (B, C, F, T); the result has rank 3, with the
    axes (B, C, F). *)
Definition mean_last4 (x : tensor4) : tensor3 :=
  mkT3 (t4_B x) (t4_C x) (t4_F x)
       (fun b c f =>
          ndivn (nsum (t4_T x) (fun t => get4 x b c f t)) (t4_T x)).

Definition var_last4 (x : tensor4) : tensor3 :=
  mkT3 (t4_B x) (t4_C x) (t4_F x)
       (fun b c f =>
          let m := ndivn (nsum (t4_T x) (fun t => get4 x b c f t)) (t4_T x) in
          ndivn (nsum (t4_T x) (fun t => npow2 (nsub (get4 x b c f t) m)))
                (t4_T x - 1)).

(** [y.flatten(start_dim=1)] on a rank-3 tensor: the last two axes are merged
    in row-major order.  On a rank-2 tensor it changes nothing. *)
Definition flatten3 (y : tensor3) : tensor2 :=
  mkT2 (t3_B y) (t3_C y * t3_T y)
       (fun b k => get3 y b (k / t3_T y) (k mod t3_T y)).

(** [torch.sqrt(v + 1e-7)] *)
Definition sqrt_eps (v : num) : num := nsqrt (nadd v (Fin eps_std)).

(** Each of the three has a [forward] for the inputs of rank 3, (B, F, T),
    and one for the inputs of rank 4, (B, C, F, T); [in_dim] is stored and
    read by [get_out_dim] only. *)
Module TAP.

Record t : Type := mk { in_dim : nat }.

Definition init (in_dim : nat) : t := mk in_dim.

Definition forward3 (p : t) (x : tensor3) : tensor2 := mean_last3 x.

Definition forward4 (p : t) (x : tensor4) : tensor2 :=
  flatten3 (mean_last4 x).

Definition get_out_dim (p : t) : nat := in_dim p.

End TAP.

Module TSDP.

Record t : Type := mk { in_dim : nat }.

Definition init (in_dim : nat) : t := mk in_dim.

Definition forward3 (p : t) (x : tensor3) : tensor2 :=
  tmap2 sqrt_eps (var_last3 x).

Definition forward4 (p : t) (x : tensor4) : tensor2 :=
  flatten3 (tmap3 sqrt_eps (var_last4 x)).

Definition get_out_dim (p : t) : nat := in_dim p.

End TSDP.

Module TSTP.

Record t : Type := mk { in_dim : nat }.

Definition init (in_dim : nat) : t := mk in_dim.

Definition forward3 (p : t) (x : tensor3) : res tensor2 :=
  let pooling_mean := mean_last3 x in
  let pooling_std := tmap2 sqrt_eps (var_last3 x) in
  cat2_dim1 pooling_mean pooling_std.

Definition forward4 (p : t) (x : tensor4) : res tensor2 :=
  let pooling_mean := flatten3 (mean_last4 x) in
  let pooling_std := flatten3 (tmap3 sqrt_eps (var_last4 x)) in
  cat2_dim1 pooling_mean pooling_std.

Definition get_out_dim (p : t) : nat := in_dim p * 2.

End TSTP.

(** ** ASP *)

(** The variance floor 1e-5 of ASP *)
Definition floor_asp : R := 1 / 100000.

Module ASP.

(** [attention] is the [nn.Sequential] of a convolution, a ReLU, a batch
    normalisation, a second convolution and a softmax over time. *)
Record t : Type := mk {
  out_dim : nat;
  conv1 : Conv1d;
  bn : BatchNorm1d;
  conv2 : Conv1d
}.

(** [__init__]: [int(acoustic_dim / 8)] is the quotient of the division by
    8; the initial weights of the two convolutions are arguments. *)
Definition init (in_planes acoustic_dim : nat)
           (w1 : nat -> nat -> R) (b1 : nat -> R)
           (w2 : nat -> nat -> R) (b2 : nat -> R) : t :=
  let outmap_size := (acoustic_dim / 8)%nat in
  mk (in_planes * 8 * outmap_size * 2)
     (mkConv (in_planes * 8 * outmap_size) 128 w1 b1)
     (BatchNorm1d_init 128)
     (mkConv 128 (in_planes * 8 * outmap_size) w2 b2).

Definition set_bn (p : t) (l : BatchNorm1d) : t :=
  mk (out_dim p) (conv1 p) l (conv2 p).

(** Line 167, [x.reshape(x.size()[0], -1, x.size()[-1])], on an input of
    rank 3 and on one of rank 4: the size written -1 cannot be inferred when
    the two given sizes multiply to 0. *)
Definition reshape3 (x : tensor3) : res tensor3 :=
  if (t3_B x * t3_T x =? 0)%nat then Raise RuntimeError else Ok x.

Definition reshape4 (x : tensor4) : res tensor3 :=
  if (t4_B x * t4_T x =? 0)%nat then Raise RuntimeError
  else Ok (reshape43 x).

(** Line 168: the layers of [attention] in turn; the module is returned too,
    since the batch normalisation has buffers. *)
Definition attention (p : t) (x : tensor3) : t * res tensor3 :=
  match Conv1d_forward (conv1 p) x with
  | Raise e => (p, Raise e)
  | Ok h =>
      let (l, r) := BatchNorm1d_forward (bn p) (tmap3 relu h) in
      (set_bn p l,
       y <- r ;; s <- Conv1d_forward (conv2 p) y ;; Ok (softmax_dim2 s))
  end.

(** Line 172, [x.view(x.size()[0], -1)], on a rank-2 tensor: nothing to do,
    but -1 cannot be inferred for an empty batch. *)
Definition view_rows (x : tensor2) : res tensor2 :=
  if (t2_B x =? 0)%nat then Raise RuntimeError else Ok x.

(** Lines 169-172 *)
Definition stats (x w : tensor3) : res tensor2 :=
  xw <- bin3 nmul x w ;;
  let mu := sum_dim2 xw in
  x2w <- bin3 nmul (tmap3 npow2 x) w ;;
  d <- bin2 nsub (sum_dim2 x2w) (tmap2 npow2 mu) ;;
  let sg := tmap2 nsqrt (tmap2 (clamp_min floor_asp) d) in
  o <- cat2_dim1 mu sg ;;
  view_rows o.

(** Lines 168-173, on the reshaped input *)
Definition pool (p : t) (x : tensor3) : t * res tensor2 :=
  let (p', r) := attention p x in
  (p', w <- r ;; stats x w).

Definition forward3 (p : t) (x : tensor3) : t * res tensor2 :=
  match reshape3 x with
  | Raise e => (p, Raise e)
  | Ok x => pool p x
  end.

Definition forward4 (p : t) (x : tensor4) : t * res tensor2 :=
  match reshape4 x with
  | Raise e => (p, Raise e)
  | Ok x => pool p x
  end.

End ASP.

(** ** Vocabulary of the further properties *)

(** The frames of a rank-3 tensor taken in another order [sigma], and the
    rows of its batch chosen by [beta] *)
Definition reindex (B : nat) (beta sigma : nat -> nat) (x : tensor3)
  : tensor3 :=
  mkT3 B (t3_C x) (t3_T x) (fun b c t => get3 x (beta b) c (sigma t)).

(** [sigma] is a permutation of the indices below [n]. *)
Definition permutation_of (n : nat) (sigma : nat -> nat) : Prop :=
  (forall t, (t < n)%nat -> (sigma t < n)%nat) /\
  (forall t u, (t < n)%nat -> (u < n)%nat -> sigma t = sigma u -> t = u).

(** A module of ASP as [__init__] builds it, whatever the values of its
    parameters and buffers. *)
Definition ASP_wf (p : ASP.t) : Prop :=
  out_channels (ASP.conv1 p) = num_features (ASP.bn p) /\
  in_channels (ASP.conv2 p) = num_features (ASP.bn p) /\
  out_channels (ASP.conv2 p) = in_channels (ASP.conv1 p) /\
  ASP.out_dim p = (in_channels (ASP.conv1 p) * 2)%nat /\
  0 < bn_eps (ASP.bn p).

(** The XI that [__init__] builds with [stddev=True] from the arguments that
    give [q] otherwise *)
Definition XI_with_stddev (q : XI.t) : XI.t :=
  XI.mk (XI.input_dim q) true (2 * XI.input_dim q) (XI.prior_mean q)
        (XI.prior_logprec q) (XI.lin1 q) (XI.bn q) (XI.lin2 q).

(** [y'] holds the rows [beta b] of [y], with the frames in the order
    [sigma]. *)
Definition reindexed (beta sigma : nat -> nat) (y' y : tensor3) : Prop :=
  t3_C y' = t3_C y /\ t3_T y' = t3_T y /\
  forall b c t, (b < t3_B y')%nat -> (c < t3_C y)%nat -> (t < t3_T y)%nat ->
    get3 y' b c t = get3 y (beta b) c (sigma t).

(** * Properties *)

(** ** Scalars and sums *)

Lemma fin_val (x : num) : is_fin x -> x = Fin (val x).
Proof. destruct x; simpl; intros H; [reflexivity | contradiction]. Qed.

Lemma rsum_ext (n : nat) (f g : nat -> R) :
  (forall i, (i < n)%nat -> f i = g i) -> rsum n f = rsum n g.
Proof.
  induction n as [|n IH]; intros H; simpl; [reflexivity|].
  rewrite IH by (intros i Hi; apply H; lia).
  rewrite H by lia. reflexivity.
Qed.

Lemma nsum_ext (n : nat) (f g : nat -> num) :
  (forall i, (i < n)%nat -> f i = g i) -> nsum n f = nsum n g.
Proof.
  induction n as [|n IH]; intros H; simpl; [reflexivity|].
  rewrite IH by (intros i Hi; apply H; lia).
  rewrite H by lia. reflexivity.
Qed.

Lemma nsum_Fin (n : nat) (f : nat -> num) (g : nat -> R) :
  (forall i, (i < n)%nat -> f i = Fin (g i)) -> nsum n f = Fin (rsum n g).
Proof.
  induction n as [|n IH]; intros H; simpl; [reflexivity|].
  rewrite IH by (intros i Hi; apply H; lia).
  rewrite H by lia. reflexivity.
Qed.

Lemma nsum_fin (n : nat) (f : nat -> num) :
  (forall i, (i < n)%nat -> is_fin (f i)) ->
  nsum n f = Fin (rsum n (fun i => val (f i))).
Proof.
  intros H. apply nsum_Fin. intros i Hi. apply fin_val, H, Hi.
Qed.

Lemma rsum_nonneg (n : nat) (f : nat -> R) :
  (forall i, (i < n)%nat -> 0 <= f i) -> 0 <= rsum n f.
Proof.
  induction n as [|n IH]; intros H; simpl; [lra|].
  assert (0 <= rsum n f) by (apply IH; intros i Hi; apply H; lia).
  assert (0 <= f n) by (apply H; lia). lra.
Qed.

Lemma rsum_pos (n : nat) (f : nat -> R) :
  (0 < n)%nat -> (forall i, (i < n)%nat -> 0 < f i) -> 0 < rsum n f.
Proof.
  intros Hn H. destruct n as [|n]; [lia|]. simpl.
  assert (0 <= rsum n f).
  { apply rsum_nonneg. intros i Hi. apply Rlt_le, H. lia. }
  assert (0 < f n) by (apply H; lia). lra.
Qed.

Lemma rsum_scal_r (n : nat) (f : nat -> R) (s : R) :
  rsum n (fun i => f i * s) = rsum n f * s.
Proof.
  induction n as [|n IH]; simpl; [lra|]. rewrite IH. lra.
Qed.

Lemma rsum_scal_l (n : nat) (f : nat -> R) (s : R) :
  rsum n (fun i => s * f i) = s * rsum n f.
Proof.
  induction n as [|n IH]; simpl; [lra|]. rewrite IH. lra.
Qed.

Lemma rsum_div (n : nat) (f : nat -> R) (s : R) :
  rsum n (fun i => f i / s) = rsum n f / s.
Proof. unfold Rdiv. apply rsum_scal_r. Qed.

Lemma exp_sum_pos (n : nat) (v : nat -> R) :
  (0 < n)%nat -> 0 < rsum n (fun s => exp (v s)).
Proof. intros Hn. apply rsum_pos; [exact Hn|]. intros i _. apply exp_pos. Qed.

Lemma softmax_R_pos (n : nat) (v : nat -> R) (t : nat) :
  (0 < n)%nat -> 0 < softmax_R n v t.
Proof.
  intros Hn. unfold softmax_R. apply Rdiv_lt_0_compat.
  - apply exp_pos.
  - apply exp_sum_pos, Hn.
Qed.

Lemma softmax_R_sum (n : nat) (v : nat -> R) :
  (0 < n)%nat -> rsum n (softmax_R n v) = 1.
Proof.
  intros Hn. unfold softmax_R.
  rewrite (rsum_div n (fun t => exp (v t))).
  apply Rdiv_diag. apply Rgt_not_eq, exp_sum_pos, Hn.
Qed.

(** The entries of [softmax_dim2] on a finite row *)
Lemma softmax_dim2_get (x : tensor3) (b c t : nat) :
  (forall s, (s < t3_T x)%nat -> is_fin (get3 x b c s)) ->
  (t < t3_T x)%nat ->
  get3 (softmax_dim2 x) b c t
  = Fin (softmax_R (t3_T x) (fun s => val (get3 x b c s)) t).
Proof.
  intros Hfin Ht. simpl.
  rewrite (nsum_Fin (t3_T x) _ (fun s => exp (val (get3 x b c s)))).
  - rewrite (fin_val _ (Hfin t Ht)). simpl.
    destruct (Req_dec_T _ 0) as [E|E].
    + exfalso. assert (0 < t3_T x)%nat as Hn by lia.
      pose proof (exp_sum_pos (t3_T x) (fun s => val (get3 x b c s)) Hn).
      lra.
    + reflexivity.
  - intros s Hs. rewrite (fin_val _ (Hfin s Hs)). reflexivity.
Qed.


(** ** Shapes, broadcasting and the layers *)

Lemma bidx_lt (d i : nat) : (i < d)%nat -> bidx d i = i.
Proof.
  intros H. unfold bidx. destruct (d =? 1)%nat eqn:E; [|reflexivity].
  apply Nat.eqb_eq in E. lia.
Qed.

Lemma bidx_1 (i : nat) : bidx 1 i = 0%nat.
Proof. reflexivity. Qed.

Lemma bdim_refl (d : nat) : bdim d d = Ok d.
Proof. unfold bdim. rewrite Nat.eqb_refl. reflexivity. Qed.

Lemma bdim_1_l (d : nat) : bdim 1 d = Ok d.
Proof.
  unfold bdim. destruct (1 =? d)%nat eqn:E; [|reflexivity].
  apply Nat.eqb_eq in E. subst. reflexivity.
Qed.

Lemma Conv1d_forward_ok (l : Conv1d) (x : tensor3) :
  t3_C x = in_channels l -> (1 <= t3_T x)%nat ->
  Conv1d_forward l x = Ok (Conv1d_apply l x).
Proof.
  intros HC HT. unfold Conv1d_forward.
  rewrite HC, Nat.eqb_refl. simpl.
  destruct (t3_T x); [lia | reflexivity].
Qed.

Lemma Conv1d_forward_inv (l : Conv1d) (x y : tensor3) :
  Conv1d_forward l x = Ok y ->
  t3_C x = in_channels l /\ (1 <= t3_T x)%nat /\ y = Conv1d_apply l x.
Proof.
  unfold Conv1d_forward.
  destruct (t3_C x =? in_channels l)%nat eqn:E1; cbn [andb]; [|discriminate].
  destruct (1 <=? t3_T x)%nat eqn:E2; [|discriminate].
  intros H. injection H as H. apply Nat.eqb_eq in E1. apply Nat.leb_le in E2.
  auto.
Qed.

Lemma Conv1d_apply_finite (l : Conv1d) (x : tensor3) :
  t3_C x = in_channels l -> finite3 x -> finite3 (Conv1d_apply l x).
Proof.
  intros HC Hfin b k t Hb Hk Ht. simpl in *.
  rewrite (nsum_Fin _ _ (fun j => weight l k j * val (get3 x b j t))).
  - exact I.
  - intros j Hj. rewrite (fin_val (get3 x b j t)); [reflexivity|].
    apply Hfin; [assumption | lia | assumption].
Qed.

Lemma tmap3_finite (f : R -> R) (x : tensor3) :
  finite3 x -> finite3 (tmap3 (lift1 f) x).
Proof.
  intros Hfin b c t Hb Hc Ht. simpl in *.
  rewrite (fin_val _ (Hfin b c t Hb Hc Ht)). exact I.
Qed.

Lemma weighted_stats_ok (alpha x : tensor3) :
  t3_B alpha = t3_B x -> t3_T alpha = t3_T x ->
  (t3_C alpha = t3_C x \/ t3_C alpha = 1%nat) ->
  exists o,
    weighted_stats alpha x = Ok o /\
    t2_B o = t3_B x /\ t2_D o = (t3_C x + t3_C x)%nat /\
    forall b c, (b < t3_B x)%nat -> (c < t3_C x)%nat ->
      get2 o b c = wmean alpha x b c /\
      get2 o b (t3_C x + c)%nat = wstd floor_astp alpha x b c.
Proof.
  intros HB HT HC.
  destruct alpha as [Ba Ca Ta ga], x as [Bx Cx Tx gx]. simpl in *. subst Ba Ta.
  assert (HbC : bdim Ca Cx = Ok Cx).
  { destruct HC as [->| ->]; [apply bdim_refl | apply bdim_1_l]. }
  unfold weighted_stats, bin3, bin2. simpl.
  rewrite !bdim_refl, HbC. simpl. rewrite !bdim_refl. simpl.
  unfold cat2_dim1. simpl. rewrite Nat.eqb_refl.
  eexists. split; [reflexivity|]. simpl.
  split; [reflexivity|]. split; [reflexivity|].
  intros b c Hb Hc.
  assert (Hlt : (c <? Cx)%nat = true) by (apply Nat.ltb_lt; exact Hc).
  assert (Hge : (Cx + c <? Cx)%nat = false) by (apply Nat.ltb_ge; lia).
  rewrite Hlt, Hge.
  replace (Cx + c - Cx)%nat with c by lia.
  rewrite !(bidx_lt Bx b Hb), !(bidx_lt Cx c Hc).
  unfold wstd, wsecond, wmean. simpl.
  assert (E1 : nsum Tx (fun t => nmul (ga b (bidx Ca c) (bidx Tx t))
                                     (gx b c (bidx Tx t)))
               = nsum Tx (fun t => nmul (ga b (bidx Ca c) t) (gx b c t))).
  { apply nsum_ext. intros t Ht. rewrite (bidx_lt Tx t Ht). reflexivity. }
  assert (E2 : nsum Tx (fun t => nmul (ga b (bidx Ca c) (bidx Tx t))
                                     (npow2 (gx b c (bidx Tx t))))
               = nsum Tx (fun t => nmul (ga b (bidx Ca c) t)
                                        (npow2 (gx b c t)))).
  { apply nsum_ext. intros t Ht. rewrite (bidx_lt Tx t Ht). reflexivity. }
  rewrite E1, E2. split; reflexivity.
Qed.

Lemma ndivn_fin (a : R) (n : nat) :
  (0 < n)%nat -> ndivn (Fin a) n = Fin (a / INR n).
Proof. intros H. destruct n; [lia | reflexivity]. Qed.

Lemma rsum_sq_nonneg (n : nat) (f : nat -> R) (m : R) :
  0 <= rsum n (fun t => (f t - m) * (f t - m)).
Proof. apply rsum_nonneg. intros i _. apply (Rle_0_sqr (f i - m)). Qed.

(** The context statistics of ASTP are real numbers as soon as the input has
    two frames. *)
Lemma context_mean_fin (x : tensor3) (b c : nat) :
  (forall t, (t < t3_T x)%nat -> is_fin (get3 x b c t)) ->
  (1 <= t3_T x)%nat ->
  forall t, is_fin (get3 (mean_keepdim x) b c t).
Proof.
  intros Hfin HT t. simpl. rewrite (nsum_fin _ (fun t => get3 x b c t) Hfin).
  rewrite ndivn_fin by lia. exact I.
Qed.

Lemma context_std_fin (x : tensor3) (b c : nat) :
  (forall t, (t < t3_T x)%nat -> is_fin (get3 x b c t)) ->
  (2 <= t3_T x)%nat ->
  forall t,
    is_fin (get3 (tmap3 nsqrt
                        (tmap3 (fun v => nadd v (Fin eps_std))
                               (var_keepdim x))) b c t).
Proof.
  intros Hfin HT t. simpl. rewrite (nsum_fin _ (fun t => get3 x b c t) Hfin).
  rewrite ndivn_fin by lia.
  rewrite (nsum_Fin _ _
             (fun t => (val (get3 x b c t)
                        - rsum (t3_T x) (fun i => val (get3 x b c i))
                          / INR (t3_T x))
                       * (val (get3 x b c t)
                          - rsum (t3_T x) (fun i => val (get3 x b c i))
                            / INR (t3_T x)))).
  - rewrite ndivn_fin by lia. simpl.
    destruct (Rlt_dec _ 0) as [L|L]; [exfalso | exact I].
    assert (0 < INR (t3_T x - 1)) by (apply lt_0_INR; lia).
    pose proof (rsum_sq_nonneg (t3_T x) (fun t => val (get3 x b c t))
                  (rsum (t3_T x) (fun i => val (get3 x b c i))
                   / INR (t3_T x))) as Hs.
    simpl in Hs.
    assert (0 <= rsum (t3_T x)
                   (fun t => (val (get3 x b c t)
                              - rsum (t3_T x) (fun i => val (get3 x b c i))
                                / INR (t3_T x))
                             * (val (get3 x b c t)
                                - rsum (t3_T x) (fun i => val (get3 x b c i))
                                  / INR (t3_T x)))
                 / INR (t3_T x - 1)).
    { apply Rmult_le_pos; [exact Hs|]. apply Rlt_le, Rinv_0_lt_compat.
      assumption. }
    unfold eps_std in L. lra.
  - intros i Hi. rewrite (fin_val _ (Hfin i Hi)). reflexivity.
Qed.

Section ASTP_facts.

Variables (in_dim bottleneck_dim : nat) (gca : bool).
Variables (w1 : nat -> nat -> R) (b1 : nat -> R).
Variables (w2 : nat -> nat -> R) (b2 : nat -> R).

Let p : ASTP.t := ASTP.init in_dim bottleneck_dim gca w1 b1 w2 b2.

Lemma ASTP_scorer_input_ok (x : tensor3) :
  t3_C x = in_dim ->
  exists x_in,
    ASTP.scorer_input p x = Ok x_in /\
    t3_B x_in = t3_B x /\ t3_T x_in = t3_T x /\
    t3_C x_in = in_channels (ASTP.linear1 p) /\
    (finite3 x -> gca = false \/ (2 <= t3_T x)%nat -> finite3 x_in).
Proof.
  intros HC. unfold ASTP.scorer_input, p, ASTP.init. simpl.
  destruct gca.
  - unfold cat_list, cat3_dim1. simpl. rewrite !Nat.eqb_refl. simpl.
    rewrite !Nat.eqb_refl. simpl.
    eexists. split; [reflexivity|]. simpl.
    split; [reflexivity|]. split; [reflexivity|]. split; [lia|].
    intros Hfin [Hg|HT]; [discriminate|].
    intros b c t Hb Hc Ht. simpl in *.
    assert (Hrow : forall k, (k < t3_C x)%nat ->
                   forall s, (s < t3_T x)%nat -> is_fin (get3 x b k s)).
    { intros k Hk s Hs. apply Hfin; assumption. }
    destruct (c <? t3_C x)%nat eqn:E1.
    + apply Nat.ltb_lt in E1. apply Hfin; assumption.
    + apply Nat.ltb_ge in E1.
      destruct (c - t3_C x <? t3_C x)%nat eqn:E2.
      * apply Nat.ltb_lt in E2.
        rewrite (bidx_lt _ _ Hb), (bidx_lt _ _ E2).
        apply (context_mean_fin x b (c - t3_C x) (Hrow _ E2) ltac:(lia) 0%nat).
      * apply Nat.ltb_ge in E2.
        assert (E3 : (c - t3_C x - t3_C x < t3_C x)%nat) by lia.
        rewrite (bidx_lt _ _ Hb), (bidx_lt _ _ E3).
        apply (context_std_fin x b (c - t3_C x - t3_C x) (Hrow _ E3) HT 0%nat).
  - eexists. split; [reflexivity|]. simpl.
    repeat split; try assumption. intros H _. exact H.
Qed.

(** The attention weights of ASTP are the softmax over time of scores of
    shape (B, in_dim, T), which are real numbers on a real input with at
    least two frames, or with one frame when there is no global context. *)
Lemma ASTP_attention_ok (x : tensor3) :
  t3_C x = in_dim -> (1 <= t3_T x)%nat ->
  exists s,
    ASTP.attention p x = Ok (softmax_dim2 s) /\
    t3_B s = t3_B x /\ t3_C s = in_dim /\ t3_T s = t3_T x /\
    (finite3 x -> gca = false \/ (2 <= t3_T x)%nat -> finite3 s).
Proof.
  intros HC HT.
  destruct (ASTP_scorer_input_ok x HC) as (x_in & E & HB' & HT' & HC' & Hf).
  unfold ASTP.attention. rewrite E. cbn [bind].
  rewrite (Conv1d_forward_ok _ x_in HC') by lia. cbn [bind].
  rewrite Conv1d_forward_ok; [| | simpl; lia].
  2:{ unfold p, ASTP.init. simpl. destruct gca; reflexivity. }
  cbn [bind]. eexists. split; [reflexivity|]. simpl.
  split; [assumption|]. split; [reflexivity|]. split; [assumption|].
  intros Hfin Hcond.
  apply Conv1d_apply_finite.
  - unfold p, ASTP.init. simpl. destruct gca; reflexivity.
  - apply (tmap3_finite tanh). apply Conv1d_apply_finite; [assumption|].
    apply Hf; assumption.
Qed.

End ASTP_facts.

(** The result of ASTP on an input of [in_dim] channels and at least one
    frame: row (b, c) of the output is the weighted mean, row (b, in_dim + c)
    the weighted standard deviation, both under the softmax of the scores. *)
Lemma ASTP_forward_ok (in_dim bottleneck_dim : nat) (gca : bool)
      (w1 : nat -> nat -> R) (b1 : nat -> R)
      (w2 : nat -> nat -> R) (b2 : nat -> R) (x : tensor) (x3 : tensor3) :
  let p := ASTP.init in_dim bottleneck_dim gca w1 b1 w2 b2 in
  to_rank3 x = Ok x3 -> t3_C x3 = in_dim -> (1 <= t3_T x3)%nat ->
  exists s o,
    ASTP.attention p x3 = Ok (softmax_dim2 s) /\
    t3_B s = t3_B x3 /\ t3_C s = in_dim /\ t3_T s = t3_T x3 /\
    (finite3 x3 -> gca = false \/ (2 <= t3_T x3)%nat -> finite3 s) /\
    ASTP.forward p x = Ok o /\
    t2_B o = t3_B x3 /\ t2_D o = (in_dim + in_dim)%nat /\
    forall b c, (b < t3_B x3)%nat -> (c < in_dim)%nat ->
      get2 o b c = wmean (softmax_dim2 s) x3 b c /\
      get2 o b (in_dim + c)%nat = wstd floor_astp (softmax_dim2 s) x3 b c.
Proof.
  intros p Hx HC HT.
  destruct (ASTP_attention_ok in_dim bottleneck_dim gca w1 b1 w2 b2 x3 HC HT)
    as (s & E & HBs & HCs & HTs & Hf).
  destruct (weighted_stats_ok (softmax_dim2 s) x3) as (o & Eo & HBo & HDo & Hg).
  { exact HBs. } { exact HTs. } { left. simpl. congruence. }
  exists s, o. split; [exact E|]. split; [exact HBs|]. split; [exact HCs|].
  split; [exact HTs|]. split; [exact Hf|]. split.
  - unfold ASTP.forward. rewrite Hx. cbn [bind]. fold p.
    unfold p. rewrite E. cbn [bind]. exact Eo.
  - rewrite HC in HDo, Hg. auto.
Qed.

(** ** Lists of results *)

Lemma mapM_Forall2 {A B : Type} (f : A -> res B) (l : list A) (bs : list B) :
  mapM f l = Ok bs <-> Forall2 (fun a b => f a = Ok b) l bs.
Proof.
  revert bs. induction l as [|a l IH]; intros bs; simpl.
  - split.
    + intros H. injection H as <-. constructor.
    + intros H. inversion H. reflexivity.
  - split.
    + destruct (f a) as [b|e] eqn:Ea; simpl; [|discriminate].
      destruct (mapM f l) as [bs'|e] eqn:El; simpl; [|discriminate].
      intros H. injection H as <-. constructor; [exact Ea|].
      apply IH. reflexivity.
    + intros H. inversion H as [|a' b l' bs' Ha Hl]; subst.
      rewrite Ha. simpl. apply IH in Hl. rewrite Hl. reflexivity.
Qed.

(** Concatenating tensors of one batch size [B] and one width [W] along
    the last axis: the [k]-th tensor occupies columns [k*W .. k*W + W - 1]. *)
Lemma cat_list_uniform (B W : nat) (outs : list tensor2) :
  outs <> [] ->
  (forall o, In o outs -> t2_B o = B /\ t2_D o = W) ->
  exists out,
    cat_list cat2_dim1 outs = Ok out /\
    t2_B out = B /\ t2_D out = (length outs * W)%nat /\
    forall k o, nth_error outs k = Some o ->
      forall b j, (j < W)%nat -> get2 out b (k * W + j)%nat = get2 o b j.
Proof.
  induction outs as [|x rest IH]; intros Hne Hall; [congruence|].
  destruct (Hall x (or_introl eq_refl)) as [HBx HDx].
  destruct rest as [|y rest'].
  - exists x. split; [reflexivity|]. split; [exact HBx|].
    split; [simpl; lia|].
    intros k o Hk b j Hj. destruct k as [|k]; simpl in Hk.
    + injection Hk as <-. reflexivity.
    + destruct k; discriminate.
  - destruct IH as (out' & E & HB' & HD' & Hg').
    { discriminate. }
    { intros o Ho. apply Hall. right. exact Ho. }
    change (cat_list cat2_dim1 (x :: y :: rest'))
      with (r <- cat_list cat2_dim1 (y :: rest') ;; cat2_dim1 x r).
    rewrite E. cbn [bind]. unfold cat2_dim1.
    rewrite HBx, HB', Nat.eqb_refl.
    eexists. split; [reflexivity|]. cbn [t2_B t2_D get2].
    split; [reflexivity|]. split.
    { rewrite HDx, HD'. simpl. lia. }
    intros k o Hk b j Hj. rewrite HDx.
    destruct k as [|k].
    + simpl in Hk. injection Hk as <-. simpl.
      assert (E1 : (j <? W)%nat = true) by (apply Nat.ltb_lt; exact Hj).
      rewrite E1. reflexivity.
    + assert (E1 : (S k * W + j <? W)%nat = false).
      { apply Nat.ltb_ge. simpl. lia. }
      rewrite E1.
      replace (S k * W + j - W)%nat with (k * W + j)%nat by (simpl; lia).
      apply Hg'; [exact Hk | exact Hj].
Qed.

(** ** The heads of MHASTP *)

Lemma Sequential_forward_app (l1 l2 : list layer) (x : tensor3) :
  Sequential_forward (l1 ++ l2) x
  = (y <- Sequential_forward l1 x ;; Sequential_forward l2 y).
Proof.
  revert x. induction l1 as [|l l1 IH]; intros x; simpl; [reflexivity|].
  destruct (layer_forward l x) as [y|e]; simpl; [apply IH | reflexivity].
Qed.

Lemma chunk1_even (x : tensor3) (H d : nat) :
  H <> 0%nat -> t3_C x = (H * d)%nat ->
  chunk1 x H = Ok (map (fun k => narrow1 x (k * d) d) (seq 0 H)).
Proof.
  intros HH HC. unfold chunk1.
  destruct (H =? 0)%nat eqn:E0; [apply Nat.eqb_eq in E0; contradiction|].
  assert (Hs : cdiv (t3_C x) H = d).
  { unfold cdiv. rewrite HC. symmetry.
    apply (Nat.div_unique _ H d (H - 1)); lia. }
  rewrite Hs. destruct (d =? 0)%nat eqn:Ed.
  - apply Nat.eqb_eq in Ed. f_equal. apply map_ext.
    intros k. rewrite Ed, Nat.mul_0_r. reflexivity.
  - apply Nat.eqb_neq in Ed.
    assert (Hn : cdiv (t3_C x) d = H).
    { unfold cdiv. rewrite HC. symmetry.
      apply (Nat.div_unique _ d H (d - 1)); lia. }
    rewrite Hn. f_equal. apply map_ext_in. intros k Hk.
    apply in_seq in Hk. f_equal. rewrite HC. apply Nat.min_l. nia.
Qed.

Section MHASTP_facts.

Variables (in_dim layer_num head_num d_s bottleneck_dim : nat).
Variable w : nat -> nat -> nat -> nat -> R.
Variable b : nat -> nat -> nat -> R.

Hypothesis Hlayers : (1 <= layer_num)%nat.

Let d_model : nat := (in_dim / head_num)%nat.
Let ds : nat := if (1 <? d_s)%nat then d_model else 1%nat.
Let cd : nat -> nat :=
  MHASTP.channel_dims layer_num d_model ds bottleneck_dim.
Let att (h : nat) : list layer :=
  MHASTP.att_trans layer_num d_model ds bottleneck_dim (w h) (b h).

Lemma att_body_ok (wh : nat -> nat -> nat -> R) (bh : nat -> nat -> R)
      (n a : nat) (x : tensor3) :
  t3_C x = cd a -> (1 <= t3_T x)%nat ->
  exists y,
    Sequential_forward
      (flat_map (fun i => [Conv (mkConv (cd i) (cd (i + 1)%nat) (wh i) (bh i));
                           Tanh])
                (seq a n)) x = Ok y /\
    t3_B y = t3_B x /\ t3_T y = t3_T x /\ t3_C y = cd (a + n)%nat /\
    (finite3 x -> finite3 y).
Proof.
  revert a x. induction n as [|n IH]; intros a x HC HT.
  - exists x. simpl. rewrite Nat.add_0_r. auto.
  - cbn [seq flat_map app Sequential_forward layer_forward].
    rewrite Conv1d_forward_ok by assumption. cbn [bind].
    destruct (IH (S a) (tmap3 ntanh
                          (Conv1d_apply
                             (mkConv (cd a) (cd (a + 1)%nat) (wh a) (bh a)) x)))
      as (y & E & HBy & HTy & HCy & Hf).
    { simpl. f_equal. lia. }
    { simpl. exact HT. }
    exists y. split; [exact E|]. simpl in HBy, HTy.
    split; [exact HBy|]. split; [exact HTy|]. split.
    + rewrite HCy. f_equal. lia.
    + intros Hfin. apply Hf. apply (tmap3_finite tanh).
      apply Conv1d_apply_finite; [exact HC | exact Hfin].
Qed.

(** The scores of head [h] on a chunk of [d_model] channels have [ds]
    channels, and are real numbers on a real chunk. *)
Lemma head_attention_ok (h : nat) (chunk : tensor3) :
  t3_C chunk = d_model -> (1 <= t3_T chunk)%nat ->
  exists s,
    MHASTP.head_attention (att h) chunk = Ok (softmax_dim2 s) /\
    t3_B s = t3_B chunk /\ t3_C s = ds /\ t3_T s = t3_T chunk /\
    (finite3 chunk -> finite3 s).
Proof.
  intros HC HT. unfold MHASTP.head_attention, att, MHASTP.att_trans.
  rewrite Sequential_forward_app. fold cd.
  destruct (att_body_ok (w h) (b h) (layer_num - 1) 0 chunk)
    as (y & E & HBy & HTy & HCy & Hf).
  { rewrite HC. unfold cd, MHASTP.channel_dims.
    destruct (0 =? layer_num)%nat eqn:E0; [|reflexivity].
    apply Nat.eqb_eq in E0. lia. }
  { exact HT. }
  rewrite E. cbn [bind Sequential_forward layer_forward].
  rewrite Conv1d_forward_ok; [| simpl; rewrite HCy; reflexivity | lia].
  cbn [bind]. eexists. split; [reflexivity|].
  cbn [t3_B t3_C t3_T Conv1d_apply out_channels].
  split; [exact HBy|]. split.
  - unfold cd, MHASTP.channel_dims. rewrite Nat.eqb_refl. reflexivity.
  - split; [exact HTy|]. intros Hfin.
    apply Conv1d_apply_finite; [simpl; rewrite HCy; reflexivity|].
    apply Hf, Hfin.
Qed.

Lemma ds_cases : ds = d_model \/ ds = 1%nat.
Proof. unfold ds. destruct (1 <? d_s)%nat; auto. Qed.

(** The output of head [h]: weighted means in columns [0 .. d_model-1],
    weighted standard deviations in columns [d_model .. 2*d_model-1]. *)
Lemma head_forward_ok (h : nat) (chunk : tensor3) :
  t3_C chunk = d_model -> (1 <= t3_T chunk)%nat ->
  exists s o,
    MHASTP.head_attention (att h) chunk = Ok (softmax_dim2 s) /\
    t3_B s = t3_B chunk /\ t3_C s = ds /\ t3_T s = t3_T chunk /\
    (finite3 chunk -> finite3 s) /\
    MHASTP.head_forward (att h) chunk = Ok o /\
    t2_B o = t3_B chunk /\ t2_D o = (d_model + d_model)%nat /\
    forall i c, (i < t3_B chunk)%nat -> (c < d_model)%nat ->
      get2 o i c = wmean (softmax_dim2 s) chunk i c /\
      get2 o i (d_model + c)%nat
      = wstd floor_astp (softmax_dim2 s) chunk i c.
Proof.
  intros HC HT.
  destruct (head_attention_ok h chunk HC HT) as (s & E & HBs & HCs & HTs & Hf).
  destruct (weighted_stats_ok (softmax_dim2 s) chunk)
    as (o & Eo & HBo & HDo & Hg).
  { exact HBs. } { exact HTs. }
  { simpl. rewrite HCs, HC. exact ds_cases. }
  exists s, o. repeat (split; [assumption|]).
  split; [unfold MHASTP.head_forward; rewrite E; exact Eo|].
  rewrite HC in HDo, Hg. auto.
Qed.

Lemma MHASTP_init_inv (p : MHASTP.t) :
  MHASTP.init in_dim layer_num head_num d_s bottleneck_dim w b = Ok p ->
  head_num <> 0%nat /\ in_dim = (head_num * d_model)%nat /\
  p = MHASTP.mk in_dim head_num ds (map att (seq 0 head_num)).
Proof.
  unfold MHASTP.init.
  destruct (head_num =? 0)%nat eqn:E0; [discriminate|].
  apply Nat.eqb_neq in E0.
  destruct (in_dim mod head_num =? 0)%nat eqn:Em; cbn [assert bind];
    [|discriminate].
  apply Nat.eqb_eq in Em. intros H. injection H as <-.
  split; [exact E0|]. split; [|reflexivity].
  unfold d_model. rewrite (Nat.div_mod_eq in_dim head_num) at 1. lia.
Qed.

Lemma heads_loop_ok (chunk : nat -> tensor3) (cs : list tensor3) :
  (forall k, (k < head_num)%nat ->
     nth_error cs k = Some (chunk k) /\
     t3_C (chunk k) = d_model /\ (1 <= t3_T (chunk k))%nat) ->
  forall n i, (i + n = head_num)%nat ->
  exists outs,
    MHASTP.heads_loop (map att (seq i n)) cs i = Ok outs /\
    Forall2 (fun h o => MHASTP.head_forward (att h) (chunk h) = Ok o)
            (seq i n) outs.
Proof.
  intros Hcs. induction n as [|n IH]; intros i Hi.
  - exists []. split; [reflexivity | constructor].
  - destruct (Hcs i ltac:(lia)) as (Hnth & HC & HT).
    destruct (head_forward_ok i (chunk i) HC HT)
      as (s & o & _ & _ & _ & _ & _ & Eo & _).
    destruct (IH (S i) ltac:(lia)) as (outs & E & HF).
    exists (o :: outs). split.
    + cbn [seq map MHASTP.heads_loop]. unfold index. rewrite Hnth.
      cbn [bind]. rewrite Eo. cbn [bind]. rewrite E. reflexivity.
    + constructor; assumption.
Qed.

End MHASTP_facts.

Lemma Forall2_In_r {A B : Type} (P : A -> B -> Prop) (l : list A)
      (l' : list B) (y : B) :
  Forall2 P l l' -> In y l' -> exists x, In x l /\ P x y.
Proof.
  induction 1 as [|a c l l' Hac HF IH]; intros Hy; [contradiction|].
  destruct Hy as [<-|Hy].
  - exists a. split; [left; reflexivity | exact Hac].
  - destruct (IH Hy) as (x & Hx & HP). exists x. split; [right|]; assumption.
Qed.

Lemma Forall2_nth_error_r {A B : Type} (P : A -> B -> Prop) (l : list A)
      (l' : list B) (k : nat) (y : B) :
  Forall2 P l l' -> nth_error l' k = Some y ->
  exists x, nth_error l k = Some x /\ P x y.
Proof.
  intros HF. revert k. induction HF as [|a c l l' Hac HF IH]; intros k Hk.
  - destruct k; discriminate.
  - destruct k as [|k]; simpl in *.
    + injection Hk as <-. exists a. auto.
    + apply IH, Hk.
Qed.

Lemma nth_error_seq (a n k : nat) :
  (k < n)%nat -> nth_error (seq a n) k = Some (a + k)%nat.
Proof.
  revert a k. induction n as [|n IH]; intros a k Hk; [lia|].
  destruct k as [|k]; simpl.
  - f_equal. lia.
  - rewrite IH by lia. f_equal. lia.
Qed.

Lemma nth_error_seq_inv (a n k h : nat) :
  nth_error (seq a n) k = Some h -> (k < n)%nat /\ h = (a + k)%nat.
Proof.
  intros H. assert (Hk : (k < n)%nat).
  { rewrite <- (length_seq n a). apply nth_error_Some. congruence. }
  rewrite nth_error_seq in H by exact Hk. injection H as <-. auto.
Qed.

(** The result of MHASTP on an input of [in_dim] channels and at least one
    frame: head [h] works on channels [h*d .. h*d + d - 1] for
    [d = in_dim / head_num] and its output occupies columns
    [h*2d .. h*2d + 2d - 1]. *)
Lemma MHASTP_forward_ok (in_dim layer_num head_num d_s bottleneck_dim : nat)
      (w : nat -> nat -> nat -> nat -> R) (b : nat -> nat -> nat -> R)
      (p : MHASTP.t) (x : tensor) (x3 : tensor3) :
  let d := (in_dim / head_num)%nat in
  let ds := if (1 <? d_s)%nat then d else 1%nat in
  let att h := MHASTP.att_trans layer_num d ds bottleneck_dim (w h) (b h) in
  (1 <= layer_num)%nat ->
  MHASTP.init in_dim layer_num head_num d_s bottleneck_dim w b = Ok p ->
  to_rank3 x = Ok x3 -> t3_C x3 = in_dim -> (1 <= t3_T x3)%nat ->
  exists outs out,
    Forall2 (fun h o =>
               MHASTP.head_forward (att h) (narrow1 x3 (h * d) d) = Ok o)
            (seq 0 head_num) outs /\
    MHASTP.forward p x = Ok out /\
    t2_B out = t3_B x3 /\ t2_D out = (2 * in_dim)%nat /\
    forall h o, nth_error outs h = Some o ->
      forall i j, (j < d + d)%nat ->
        get2 out i (h * (d + d) + j)%nat = get2 o i j.
Proof.
  intros d ds att HL Hinit Hx HC HT.
  destruct (MHASTP_init_inv _ _ _ _ _ _ _ HL p Hinit) as (HH & Hdiv & ->).
  fold d in Hdiv. fold d ds. fold att.
  destruct (heads_loop_ok in_dim layer_num head_num d_s bottleneck_dim w b HL
              (fun k => narrow1 x3 (k * d) d)
              (map (fun k => narrow1 x3 (k * d) d) (seq 0 head_num)))
    with (n := head_num) (i := 0%nat) as (outs & E & HF).
  { intros k Hk. split.
    - rewrite nth_error_map, nth_error_seq by exact Hk. reflexivity.
    - simpl. split; [reflexivity | exact HT]. }
  { lia. }
  fold d ds in E, HF. fold att in E, HF.
  destruct (cat_list_uniform (t3_B x3) (d + d) outs) as (out & Ec & HB & HD & Hg).
  { apply Forall2_length in HF. rewrite length_seq in HF.
    destruct outs; [simpl in HF; lia | discriminate]. }
  { intros o Ho. destruct (Forall2_In_r _ _ _ _ HF Ho) as (h & _ & Eh).
    destruct (head_forward_ok in_dim layer_num head_num d_s bottleneck_dim w b
                HL h (narrow1 x3 (h * d) d))
      as (s & o' & _ & _ & _ & _ & _ & Eo & HBo & HDo & _).
    { reflexivity. } { exact HT. }
    fold d ds in Eo, HDo. fold att in Eo.
    rewrite Eh in Eo. injection Eo as <-. simpl in HBo. auto. }
  exists outs, out. split; [exact HF|]. split.
  - unfold MHASTP.forward. rewrite Hx. cbn [bind MHASTP.head_num].
    rewrite (chunk1_even x3 head_num d HH) by congruence.
    cbn [bind MHASTP.heads_att_trans]. rewrite E. cbn [bind]. exact Ec.
  - split; [exact HB|]. split; [|exact Hg].
    rewrite HD. apply Forall2_length in HF. rewrite length_seq in HF.
    rewrite <- HF. lia.
Qed.

(** ** The queries of MQMHASTP *)

Lemma MHASTP_forward_rank3 (p : MHASTP.t) (x : tensor) (x3 : tensor3) :
  to_rank3 x = Ok x3 -> MHASTP.forward p x = MHASTP.forward p (Rank3 x3).
Proof. intros H. unfold MHASTP.forward. rewrite H. reflexivity. Qed.

Lemma mapM_ok {A B : Type} (f : A -> res B) (l : list A) :
  (forall a, In a l -> exists b, f a = Ok b) -> exists bs, mapM f l = Ok bs.
Proof.
  induction l as [|a l IH]; intros H.
  - exists []. reflexivity.
  - destruct (H a (or_introl eq_refl)) as (c & Ec).
    destruct IH as (bs & Ebs).
    { intros a' Ha'. apply H. right. exact Ha'. }
    exists (c :: bs). simpl. rewrite Ec. simpl. rewrite Ebs. reflexivity.
Qed.

Lemma MQMHASTP_init_inv (in_dim layer_num query_num head_num d_s
                         bottleneck_dim : nat)
      (w : nat -> nat -> nat -> nat -> nat -> R)
      (b : nat -> nat -> nat -> nat -> R) (p : MQMHASTP.t) :
  MQMHASTP.init in_dim layer_num query_num head_num d_s bottleneck_dim w b
  = Ok p ->
  MQMHASTP.query_num p = query_num /\ MQMHASTP.in_dim p = in_dim /\
  Forall2 (fun q child =>
             MHASTP.init in_dim layer_num head_num d_s bottleneck_dim
                         (w q) (b q) = Ok child)
          (seq 0 query_num) (MQMHASTP.n_query p).
Proof.
  unfold MQMHASTP.init.
  destruct (mapM _ (seq 0 query_num)) as [qs|e] eqn:E; cbn [bind];
    [|discriminate].
  intros H. injection H as <-. cbn.
  split; [reflexivity|]. split; [reflexivity|].
  apply mapM_Forall2 in E. exact E.
Qed.

(** The result of MQMHASTP: child [k] is applied to the whole input and its
    output occupies columns [k * 2 in_dim .. k * 2 in_dim + 2 in_dim - 1]. *)
Lemma MQMHASTP_forward_ok (in_dim layer_num query_num head_num d_s
                           bottleneck_dim : nat)
      (w : nat -> nat -> nat -> nat -> nat -> R)
      (b : nat -> nat -> nat -> nat -> R)
      (p : MQMHASTP.t) (x : tensor) (x3 : tensor3) :
  (1 <= layer_num)%nat -> (1 <= query_num)%nat ->
  MQMHASTP.init in_dim layer_num query_num head_num d_s bottleneck_dim w b
  = Ok p ->
  to_rank3 x = Ok x3 -> t3_C x3 = in_dim -> (1 <= t3_T x3)%nat ->
  exists outs out,
    Forall2 (fun child o => MHASTP.forward child x = Ok o)
            (MQMHASTP.n_query p) outs /\
    length outs = query_num /\
    MQMHASTP.forward p x = Ok out /\
    t2_B out = t3_B x3 /\ t2_D out = (in_dim * 2 * query_num)%nat /\
    forall k o, nth_error outs k = Some o ->
      forall i j, (j < 2 * in_dim)%nat ->
        get2 out i (k * (2 * in_dim) + j)%nat = get2 o i j.
Proof.
  intros HL HQ Hinit Hx HC HT.
  destruct (MQMHASTP_init_inv _ _ _ _ _ _ _ _ p Hinit) as (EQ & EI & HF).
  assert (Hchild : forall child, In child (MQMHASTP.n_query p) ->
            exists o, MHASTP.forward child (Rank3 x3) = Ok o /\
                      t2_B o = t3_B x3 /\ t2_D o = (2 * in_dim)%nat).
  { intros child Hin.
    destruct (Forall2_In_r _ _ _ _ HF Hin) as (q & _ & Eq).
    destruct (MHASTP_forward_ok in_dim layer_num head_num d_s bottleneck_dim
                (w q) (b q) child (Rank3 x3) x3 HL Eq eq_refl HC HT)
      as (_ & o & _ & Eo & HBo & HDo & _).
    exists o. auto. }
  destruct (mapM_ok (fun layer => MHASTP.forward layer (Rank3 x3))
                    (MQMHASTP.n_query p)) as (outs & E).
  { intros child Hin. destruct (Hchild child Hin) as (o & Eo & _).
    exists o. exact Eo. }
  pose proof E as HF2. apply mapM_Forall2 in HF2.
  assert (Hlen : length outs = query_num).
  { apply Forall2_length in HF2. apply Forall2_length in HF.
    rewrite length_seq in HF. congruence. }
  destruct (cat_list_uniform (t3_B x3) (2 * in_dim) outs)
    as (out & Ec & HB & HD & Hg).
  { destruct outs; [simpl in Hlen; lia | discriminate]. }
  { intros o Ho. destruct (Forall2_In_r _ _ _ _ HF2 Ho) as (child & Hin & Eo).
    destruct (Hchild child Hin) as (o' & Eo' & Hdims).
    rewrite Eo in Eo'. injection Eo' as <-. exact Hdims. }
  exists outs, out. split.
  { eapply Forall2_impl; [|exact HF2]. intros child o Eo.
    rewrite (MHASTP_forward_rank3 child x x3 Hx). exact Eo. }
  split; [exact Hlen|]. split.
  { unfold MQMHASTP.forward. rewrite Hx. cbn [bind]. rewrite E. cbn [bind].
    exact Ec. }
  split; [exact HB|]. split; [|exact Hg].
  rewrite HD, Hlen. lia.
Qed.

(** ** The layers of XI *)

Lemma softplus_R_pos (a : R) : 0 < softplus_R a.
Proof.
  unfold softplus_R. destruct (Rlt_dec 20 a) as [L|L]; [lra|].
  rewrite <- ln_1. apply ln_increasing; [lra|].
  pose proof (exp_pos a). lra.
Qed.

Lemma batch_stats_fin (x : tensor3) (k : nat) :
  (forall i t, (i < t3_B x)%nat -> (t < t3_T x)%nat -> is_fin (get3 x i k t)) ->
  (0 < t3_B x * t3_T x)%nat ->
  (exists m, batch_mean x k = Fin m) /\
  (exists v, batch_var_biased x k = Fin v /\ 0 <= v).
Proof.
  intros Hfin Hn.
  assert (Hm : batch_mean x k
               = Fin (rsum (t3_B x)
                           (fun i => rsum (t3_T x)
                                          (fun t => val (get3 x i k t)))
                      / INR (t3_B x * t3_T x))).
  { unfold batch_mean.
    rewrite (nsum_Fin _ _ (fun i => rsum (t3_T x)
                                         (fun t => val (get3 x i k t)))).
    - apply ndivn_fin, Hn.
    - intros i Hi. apply nsum_Fin. intros t Ht.
      apply fin_val, Hfin; assumption. }
  split; [eexists; exact Hm|].
  unfold batch_var_biased, batch_sqdev. rewrite Hm.
  set (m := rsum _ _ / _).
  rewrite (nsum_Fin _ _
             (fun i => rsum (t3_T x)
                            (fun t => (val (get3 x i k t) - m)
                                      * (val (get3 x i k t) - m)))).
  - rewrite ndivn_fin by exact Hn. eexists. split; [reflexivity|].
    apply Rmult_le_pos.
    + apply rsum_nonneg. intros i _.
      apply (rsum_sq_nonneg (t3_T x) (fun t => val (get3 x i k t)) m).
    + apply Rlt_le, Rinv_0_lt_compat, lt_0_INR, Hn.
  - intros i Hi. apply nsum_Fin. intros t Ht.
    rewrite (fin_val _ (Hfin i t Hi Ht)). reflexivity.
Qed.

Lemma bn_normalize_finite (l : BatchNorm1d) (mean var : nat -> num)
      (x : tensor3) :
  0 < bn_eps l ->
  (forall k, (k < t3_C x)%nat ->
     (exists m, mean k = Fin m) /\ (exists v, var k = Fin v /\ 0 <= v)) ->
  finite3 x -> finite3 (bn_normalize l mean var x).
Proof.
  intros Heps Hstat Hfin i k t Hi Hk Ht. simpl in *.
  destruct (Hstat k Hk) as ((m & ->) & (v & -> & Hv)).
  rewrite (fin_val _ (Hfin i k t Hi Hk Ht)). simpl.
  destruct (Rlt_dec (v + bn_eps l) 0) as [L|L]; [lra|]. simpl.
  destruct (Req_dec_T (sqrt (v + bn_eps l)) 0) as [E|E]; [|exact I].
  assert (0 < sqrt (v + bn_eps l)) by (apply sqrt_lt_R0; lra). lra.
Qed.

(** [lin1_relu_bn] on an input of [input_dim] channels and at least one
    frame, which in training mode is not a single value per channel *)
Lemma XI_lin1_relu_bn_ok (q : XI.t) (feat : tensor3) :
  XI_wf q -> t3_C feat = XI.input_dim q -> (1 <= t3_T feat)%nat ->
  (training (XI.bn q) = true -> (t3_B feat * t3_T feat)%nat <> 1%nat) ->
  exists l h,
    XI.lin1_relu_bn q feat = (l, Ok h) /\
    t3_B h = t3_B feat /\ t3_C h = num_features (XI.bn q) /\
    t3_T h = t3_T feat /\
    (finite3 feat -> training (XI.bn q) = true \/ bn_stats_ok (XI.bn q) ->
     finite3 h).
Proof.
  intros (W1 & W2 & W3 & W4 & W5 & Heps) HC HT Hn.
  unfold XI.lin1_relu_bn.
  rewrite Conv1d_forward_ok by (try lia; congruence).
  set (h2 := tmap3 relu (Conv1d_apply (XI.lin1 q) feat)).
  assert (HB2 : t3_B h2 = t3_B feat) by reflexivity.
  assert (HC2 : t3_C h2 = num_features (XI.bn q)) by (simpl; exact W2).
  assert (HT2 : t3_T h2 = t3_T feat) by reflexivity.
  assert (Hf2 : finite3 feat -> finite3 h2).
  { intros Hfin. apply (tmap3_finite (fun a => Rmax 0 a)).
    apply Conv1d_apply_finite; [congruence | exact Hfin]. }
  unfold BatchNorm1d_forward. rewrite HB2, HT2, HC2, Nat.eqb_refl.
  cbn [negb].
  destruct (training (XI.bn q)) eqn:Etr.
  - destruct (t3_B feat * t3_T feat =? 1)%nat eqn:E1.
    { apply Nat.eqb_eq in E1. exfalso. apply Hn; auto. }
    destruct (t3_B feat * t3_T feat =? 0)%nat eqn:E0.
    + apply Nat.eqb_eq in E0.
      eexists. exists h2. split; [reflexivity|].
      repeat (split; [assumption|]).
      intros _ _ i k t Hi. rewrite HB2 in Hi. nia.
    + apply Nat.eqb_neq in E0.
      eexists. eexists. split; [reflexivity|].
      split; [exact HB2|]. split; [exact HC2|]. split; [exact HT2|].
      intros Hfin _. apply bn_normalize_finite; [exact Heps | | auto].
      intros k Hk. apply batch_stats_fin.
      * intros i t Hi Ht. apply (Hf2 Hfin); assumption.
      * rewrite HB2, HT2. lia.
  - eexists. eexists. split; [reflexivity|].
    split; [exact HB2|]. split; [exact HC2|]. split; [exact HT2|].
    intros Hfin [Hd|Hok]; [discriminate|].
    apply bn_normalize_finite; [exact Heps | | auto].
    intros k Hk. apply Hok. rewrite <- HC2. exact Hk.
Qed.

Lemma XI_logprec_of_ok (q : XI.t) (h : tensor3) :
  XI_wf q -> t3_C h = num_features (XI.bn q) -> (1 <= t3_T h)%nat ->
  exists lp,
    XI.logprec_of q h = Ok lp /\
    t3_B lp = t3_B h /\ t3_C lp = XI.input_dim q /\ t3_T lp = t3_T h /\
    (finite3 h -> finite3 lp).
Proof.
  intros (W1 & W2 & W3 & W4 & W5 & Heps) HC HT.
  unfold XI.logprec_of.
  rewrite Conv1d_forward_ok by (try lia; congruence). cbn [bind].
  eexists. split; [reflexivity|]. simpl.
  split; [reflexivity|]. split; [exact W4|]. split; [reflexivity|].
  intros Hfin i c t Hi Hc Ht. simpl in *.
  pose proof (Conv1d_apply_finite (XI.lin2 q) h ltac:(congruence) Hfin
                i c t Hi Hc Ht) as Hz.
  simpl in Hz. apply fin_val in Hz. rewrite Hz. simpl.
  destruct (Rlt_dec 0 (softplus_R _)) as [L|L]; [exact I|].
  exfalso. apply L, softplus_R_pos.
Qed.

Lemma cat_prior_ok (x : tensor3) (n : nat) (f : nat -> R) :
  t3_C x = n ->
  exists a,
    cat3_dim2 x (XI.prior_frame n f (t3_B x)) = Ok a /\
    t3_B a = t3_B x /\ t3_C a = t3_C x /\ t3_T a = (t3_T x + 1)%nat /\
    forall b c t, (c < n)%nat -> get3 a b c t = XI_aug x f b c t.
Proof.
  intros HC. unfold cat3_dim2, XI.prior_frame, XI.param_row.
  cbn [t3_B t3_C t3_T unsqueeze2 repeat2 t2_B t2_D get2 get3].
  rewrite Nat.mul_1_l, Nat.mul_1_r, HC, !Nat.eqb_refl. cbn [andb].
  eexists. split; [reflexivity|]. cbn [t3_B t3_C t3_T get3].
  repeat (split; [reflexivity|]).
  intros b c t Hc. unfold XI_aug.
  rewrite (Nat.mod_small c n Hc). reflexivity.
Qed.

Lemma XI_aug_finite (x : tensor3) (f : nat -> R) (b c t : nat) :
  finite3 x -> (b < t3_B x)%nat -> (c < t3_C x)%nat -> is_fin (XI_aug x f b c t).
Proof.
  intros Hfin Hb Hc. unfold XI_aug.
  destruct (t <? t3_T x)%nat eqn:E; [|exact I].
  apply Nat.ltb_lt in E. apply Hfin; assumption.
Qed.

(** The Gaussian posterior of XI from the log-precisions [lp]: the weights
    are the softmax of the log-precisions with the prior log-precision as
    one more frame; the outputs are the posterior mean and, with [stddev],
    the posterior standard deviation under a trailing axis of size 1. *)
Lemma XI_posterior_ok (q : XI.t) (feat lp : tensor3) :
  t3_C feat = XI.input_dim q ->
  t3_B lp = t3_B feat -> t3_C lp = t3_C feat -> t3_T lp = t3_T feat ->
  exists a out,
    XI.weight_attn q lp = Ok (softmax_dim2 a) /\
    t3_B a = t3_B feat /\ t3_C a = t3_C feat /\
    t3_T a = (t3_T feat + 1)%nat /\
    (forall b c t, (c < t3_C feat)%nat ->
       get3 a b c t = XI_aug lp (XI.prior_logprec q) b c t) /\
    XI.posterior q feat lp = Ok out /\
    (XI.stddev q = false ->
     exists o, out = Rank2 o /\
       t2_B o = t3_B feat /\ t2_D o = t3_C feat /\
       forall b c, (b < t3_B feat)%nat -> (c < t3_C feat)%nat ->
         get2 o b c = XI_phi q feat (softmax_dim2 a) b c) /\
    (XI.stddev q = true ->
     exists o, out = Rank3 o /\
       t3_B o = t3_B feat /\ t3_C o = (t3_C feat + t3_C feat)%nat /\
       t3_T o = 1%nat /\
       forall b c t, (b < t3_B feat)%nat -> (c < t3_C feat)%nat ->
         get3 o b c t = XI_phi q feat (softmax_dim2 a) b c /\
         get3 o b (t3_C feat + c)%nat t
         = XI_sigma q feat (softmax_dim2 a) b c).
Proof.
  intros HC HBl HCl HTl.
  destruct (cat_prior_ok lp (XI.input_dim q) (XI.prior_logprec q))
    as (a & Ea & HBa & HCa & HTa & Hga); [congruence|].
  rewrite HBl in HBa. rewrite HCl in HCa. rewrite HTl in HTa.
  destruct (cat_prior_ok feat (XI.input_dim q) (XI.prior_mean q) HC)
    as (ax & Eax & HBx & HCx & HTx & Hgx).
  exists a.
  assert (Hwa : XI.weight_attn q lp = Ok (softmax_dim2 a)).
  { unfold XI.weight_attn. rewrite Ea. reflexivity. }
  assert (Hsum : forall (g : num -> num) b c,
            (b < t3_B feat)%nat -> (c < t3_C feat)%nat ->
            nsum (t3_T feat + 1)
                 (fun t => nmul (g (get3 ax (bidx (t3_B ax) b)
                                        (bidx (t3_C ax) c) (bidx (t3_T ax) t)))
                                (get3 (softmax_dim2 a)
                                      (bidx (t3_B (softmax_dim2 a)) b)
                                      (bidx (t3_C (softmax_dim2 a)) c)
                                      (bidx (t3_T (softmax_dim2 a)) t)))
            = nsum (t3_T feat + 1)
                   (fun t => nmul (g (XI_aug feat (XI.prior_mean q) b c t))
                                  (get3 (softmax_dim2 a) b c t))).
  { intros g b c Hb Hc. apply nsum_ext. intros t Ht.
    change (t3_B (softmax_dim2 a)) with (t3_B a).
    change (t3_C (softmax_dim2 a)) with (t3_C a).
    change (t3_T (softmax_dim2 a)) with (t3_T a).
    rewrite HBx, HCx, HTx, HBa, HCa, HTa.
    rewrite (bidx_lt _ _ Hb), (bidx_lt _ _ Hc), (bidx_lt _ _ Ht).
    rewrite Hgx by congruence. reflexivity. }
  assert (Hbin : forall g,
            bin3 nmul (tmap3 g ax) (softmax_dim2 a)
            = Ok (mkT3 (t3_B feat) (t3_C feat) (t3_T feat + 1)
                    (fun b c t =>
                       nmul (g (get3 ax (bidx (t3_B ax) b)
                                     (bidx (t3_C ax) c) (bidx (t3_T ax) t)))
                            (get3 (softmax_dim2 a)
                                  (bidx (t3_B (softmax_dim2 a)) b)
                                  (bidx (t3_C (softmax_dim2 a)) c)
                                  (bidx (t3_T (softmax_dim2 a)) t))))).
  { intros g. unfold bin3.
    cbn [t3_B t3_C t3_T tmap3 softmax_dim2 get3].
    rewrite HBx, HCx, HTx, HBa, HCa, HTa, !bdim_refl. reflexivity. }
  unfold XI.posterior. rewrite Hwa, Ea, Eax. cbn [bind].
  pose proof (Hbin (fun v => v)) as Hb1.
  assert (Eid : tmap3 (fun v => v) ax = ax) by (destruct ax; reflexivity).
  rewrite Eid in Hb1. rewrite Hb1. cbn [bind].
  destruct (XI.stddev q) eqn:Esd.
  - rewrite (Hbin npow2). cbn [bind].
    unfold bin2. cbn [t2_B t2_D sum_dim2 tmap2 t3_B t3_C t3_T get2 get3].
    rewrite !bdim_refl. cbn [bind].
    unfold cat2_dim1. cbn [t2_B t2_D tmap2 get2]. rewrite Nat.eqb_refl.
    eexists. split; [reflexivity|].
    split; [exact HBa|]. split; [exact HCa|]. split; [exact HTa|].
    split; [intros b c t Hc; apply Hga; congruence|]. split; [reflexivity|].
    split; [discriminate|]. intros _.
    eexists. split; [reflexivity|].
    cbn [unsqueeze2 sum_dim2 tmap2 t3_B t3_C t3_T t2_B t2_D get2 get3].
    repeat (split; [reflexivity|]).
    intros b c t Hb Hc.
    assert (E1 : (c <? t3_C feat)%nat = true) by (apply Nat.ltb_lt; exact Hc).
    assert (E2 : (t3_C feat + c <? t3_C feat)%nat = false)
      by (apply Nat.ltb_ge; lia).
    rewrite E1, E2. replace (t3_C feat + c - t3_C feat)%nat with c by lia.
    rewrite !(bidx_lt _ _ Hb), !(bidx_lt _ _ Hc).
    pose proof (Hsum (fun v => v) b c Hb Hc) as S1.
    pose proof (Hsum npow2 b c Hb Hc) as S2.
    cbn beta in S1.
    unfold XI_sigma, XI_sigma2, XI_phi. rewrite S1, S2. split; reflexivity.
  - eexists. split; [reflexivity|].
    split; [exact HBa|]. split; [exact HCa|]. split; [exact HTa|].
    split; [intros b c t Hc; apply Hga; congruence|]. split; [reflexivity|].
    split; [|discriminate]. intros _.
    eexists. split; [reflexivity|]. cbn [sum_dim2 t2_B t2_D get2 t3_B t3_C t3_T].
    repeat (split; [reflexivity|]).
    intros b c Hb Hc.
    pose proof (Hsum (fun v => v) b c Hb Hc) as S1.
    cbn beta in S1.
    unfold XI_phi. cbn [get3]. rewrite S1. reflexivity.
Qed.

(** The result of XI on a rank-3 input of [input_dim] channels and at least
    one frame (and, in training mode, more than one value per channel). *)
Lemma XI_forward_ok (q : XI.t) (feat : tensor3) :
  XI_wf q -> t3_C feat = XI.input_dim q -> (1 <= t3_T feat)%nat ->
  (training (XI.bn q) = true -> (t3_B feat * t3_T feat)%nat <> 1%nat) ->
  exists l h lp a out,
    XI.lin1_relu_bn q feat = (l, Ok h) /\ XI.logprec_of q h = Ok lp /\
    XI.forward q (Rank3 feat) = (XI.set_bn q l, Ok out) /\
    t3_B lp = t3_B feat /\ t3_C lp = t3_C feat /\ t3_T lp = t3_T feat /\
    (finite3 feat -> training (XI.bn q) = true \/ bn_stats_ok (XI.bn q) ->
     finite3 lp) /\
    XI.weight_attn q lp = Ok (softmax_dim2 a) /\
    t3_B a = t3_B feat /\ t3_C a = t3_C feat /\
    t3_T a = (t3_T feat + 1)%nat /\
    (forall b c t, (c < t3_C feat)%nat ->
       get3 a b c t = XI_aug lp (XI.prior_logprec q) b c t) /\
    (XI.stddev q = false ->
     exists o, out = Rank2 o /\
       t2_B o = t3_B feat /\ t2_D o = t3_C feat /\
       forall b c, (b < t3_B feat)%nat -> (c < t3_C feat)%nat ->
         get2 o b c = XI_phi q feat (softmax_dim2 a) b c) /\
    (XI.stddev q = true ->
     exists o, out = Rank3 o /\
       t3_B o = t3_B feat /\ t3_C o = (t3_C feat + t3_C feat)%nat /\
       t3_T o = 1%nat /\
       forall b c t, (b < t3_B feat)%nat -> (c < t3_C feat)%nat ->
         get3 o b c t = XI_phi q feat (softmax_dim2 a) b c /\
         get3 o b (t3_C feat + c)%nat t
         = XI_sigma q feat (softmax_dim2 a) b c).
Proof.
  intros Hwf HC HT Hn.
  destruct (XI_lin1_relu_bn_ok q feat Hwf HC HT Hn)
    as (l & h & E1 & HBh & HCh & HTh & Hfh).
  destruct (XI_logprec_of_ok q h Hwf HCh ltac:(lia))
    as (lp & E2 & HBl & HCl & HTl & Hfl).
  destruct (XI_posterior_ok q feat lp HC) as (a & out & E3 & Ha).
  { congruence. } { congruence. } { congruence. }
  exists l, h, lp, a, out. split; [exact E1|]. split; [exact E2|]. split.
  - unfold XI.forward. rewrite HC, Nat.eqb_refl. cbn [negb].
    rewrite E1. cbn [bind]. rewrite E2. cbn [bind].
    destruct Ha as (_ & _ & _ & _ & E4 & _). rewrite E4. reflexivity.
  - split; [congruence|]. split; [congruence|]. split; [congruence|].
    split; [intros Hf Hs; apply Hfl, Hfh; assumption|].
    split; [exact E3|].
    destruct Ha as (HBa & HCa & HTa & Hga & _ & Hout). auto.
Qed.

(** * The properties of the specification *)

Lemma XI_init_wf (in_dim hidden_size : nat) (stddev : bool)
      (w1 : nat -> nat -> R) (b1 : nat -> R)
      (w2 : nat -> nat -> R) (b2 : nat -> R) :
  XI_wf (XI.init in_dim hidden_size stddev w1 b1 w2 b2).
Proof.
  unfold XI_wf, XI.init. simpl. repeat (split; [reflexivity|]). lra.
Qed.

(** C1, as the code has it: for every pooler of the family and every valid
    input, [forward] returns a tensor whose axis 1 has size [get_out_dim()],
    a value that is a function of the configuration alone and that the call
    leaves as it is.  Axis 1 is the last axis of the output, except for XI
    with [stddev=True], whose output has rank 3 and a last axis of size 1. *)
Theorem C1_out_dim_is_axis_1 (p : Pooler) (x : tensor) (x3 : tensor3) :
  Pooler_valid p -> valid_input p x x3 ->
  exists p' out,
    forward p x = (p', Ok out) /\
    get_out_dim p' = get_out_dim p /\
    nth 1 (shape out) 0%nat = get_out_dim p /\
    (xi_with_stddev p = false -> last (shape out) 0%nat = get_out_dim p) /\
    (xi_with_stddev p = true ->
     shape out = [t3_B x3; get_out_dim p; 1%nat]).
Proof.
  intros Hvalid (Hx & HC & HT & Hn).
  destruct p as [a|a|a|q];
    cbn [forward get_out_dim xi_with_stddev in_dim_of reads_as Pooler_valid]
      in *.
  - destruct Hvalid as (in_dim & bd & gca & w1 & b1 & w2 & b2 & ->).
    destruct (ASTP_forward_ok in_dim bd gca w1 b1 w2 b2 x x3 Hx HC HT)
      as (s & o & _ & _ & _ & _ & _ & E & HB & HD & _).
    eexists. exists (Rank2 o). rewrite E. cbn.
    split; [reflexivity|]. split; [reflexivity|]. rewrite HD.
    split; [lia|]. split; [intros _; lia | discriminate].
  - destruct Hvalid as (in_dim & L & H & d_s & bd & w & b & HL & Hinit).
    pose proof (MHASTP_init_inv _ _ _ _ _ _ _ HL a Hinit) as (_ & _ & Ea).
    assert (Ein : MHASTP.in_dim a = in_dim) by (rewrite Ea; reflexivity).
    destruct (MHASTP_forward_ok in_dim L H d_s bd w b a x x3 HL Hinit Hx
                ltac:(congruence) HT)
      as (outs & o & _ & E & HB & HD & _).
    eexists. exists (Rank2 o). rewrite E. cbn.
    split; [reflexivity|]. split; [reflexivity|].
    unfold MHASTP.get_out_dim. rewrite HD, Ein.
    split; [reflexivity|]. split; [reflexivity | discriminate].
  - destruct Hvalid as (in_dim & L & Q & H & d_s & bd & w & b & HL & HQ & Hinit).
    destruct (MQMHASTP_init_inv _ _ _ _ _ _ _ _ a Hinit) as (EQ & EI & _).
    destruct (MQMHASTP_forward_ok in_dim L Q H d_s bd w b a x x3 HL HQ Hinit Hx
                ltac:(congruence) HT)
      as (outs & o & _ & _ & E & HB & HD & _).
    eexists. exists (Rank2 o). rewrite E. cbn.
    split; [reflexivity|]. split; [reflexivity|].
    unfold MQMHASTP.get_out_dim. rewrite HD, EQ, EI.
    split; [reflexivity|]. split; [reflexivity | discriminate].
  - cbn in Hx. subst x.
    destruct (XI_forward_ok q x3 Hvalid HC HT Hn)
      as (l & h & lp & a & out & _ & _ & E & _ & _ & _ & _ & _ & _ & _ & _ & _ & H0 & H1).
    rewrite E. exists (P_XI (XI.set_bn q l)), out.
    split; [reflexivity|]. split; [reflexivity|].
    destruct Hvalid as (_ & _ & _ & _ & Hout & _).
    unfold XI.get_out_dim. rewrite Hout.
    destruct (XI.stddev q).
    + destruct (H1 eq_refl) as (o & -> & HB & HD & HTo & _).
      cbn. rewrite HB, HD, HTo, HC.
      split; [lia|]. split; [discriminate|]. intros _. f_equal. f_equal. lia.
    + destruct (H0 eq_refl) as (o & -> & HB & HD & _).
      cbn. rewrite HD, HC.
      split; [reflexivity|]. split; [reflexivity | discriminate].
Qed.

Lemma C1_out_dim_is_axis_1_witness :
  Pooler_valid (P_ASTP astp_ex) /\
  valid_input (P_ASTP astp_ex) (Rank3 (const3 1 2 4 1)) (const3 1 2 4 1) /\
  exists p' out,
    forward (P_ASTP astp_ex) (Rank3 (const3 1 2 4 1)) = (p', Ok out) /\
    get_out_dim p' = 4%nat /\
    nth 1 (shape out) 0%nat = 4%nat /\
    (false = false -> last (shape out) 0%nat = 4%nat) /\
    (false = true -> shape out = [1%nat; 4%nat; 1%nat]).
Proof.
  assert (V : Pooler_valid (P_ASTP astp_ex)).
  { exists 2%nat, 3%nat, false, w0, b0, w0, b0. reflexivity. }
  assert (I : valid_input (P_ASTP astp_ex) (Rank3 (const3 1 2 4 1))
                          (const3 1 2 4 1)).
  { split; [reflexivity|]. split; [reflexivity|]. split; [simpl; lia | exact I]. }
  split; [exact V|]. split; [exact I|].
  exact (C1_out_dim_is_axis_1 (P_ASTP astp_ex) (Rank3 (const3 1 2 4 1))
                              (const3 1 2 4 1) V I).
Defined.

(** C1 fails as stated: for XI with [stddev=True] the last axis of the
    output has size 1, while [get_out_dim()] is [2 * in_dim]. *)
Lemma C1_counterexample :
  Pooler_valid (P_XI xi_stddev_ex) /\
  valid_input (P_XI xi_stddev_ex) (Rank3 (const3 1 1 2 1)) (const3 1 1 2 1) /\
  exists p' out,
    forward (P_XI xi_stddev_ex) (Rank3 (const3 1 1 2 1)) = (p', Ok out) /\
    last (shape out) 0%nat = 1%nat /\
    get_out_dim (P_XI xi_stddev_ex) = 2%nat.
Proof.
  assert (V : Pooler_valid (P_XI xi_stddev_ex)) by apply XI_init_wf.
  assert (I : valid_input (P_XI xi_stddev_ex) (Rank3 (const3 1 1 2 1))
                          (const3 1 1 2 1)).
  { split; [reflexivity|]. split; [reflexivity|]. split; [simpl; lia|].
    simpl. intros _. discriminate. }
  split; [exact V|]. split; [exact I|].
  destruct I as (_ & HC & HT & Hn).
  destruct (XI_forward_ok xi_stddev_ex (const3 1 1 2 1) V HC HT Hn)
    as (l & h & lp & a & out & _ & _ & E & _ & _ & _ & _ & _ & _ & _ & _ & _ & _ & H1).
  destruct (H1 eq_refl) as (o & -> & HB & HD & HTo & _).
  eexists. exists (Rank3 o). cbn [forward]. rewrite E.
  split; [reflexivity|]. split; [cbn; exact HTo | reflexivity].
Qed.

(** C9, as the code has it: with a positive [head_num], constructing an
    MHASTP, or an MQMHASTP of at least one query, with [in_dim] not divisible
    by [head_num] fails on the assertion of the constructor, and
    construction with a divisible [in_dim] succeeds. *)
Theorem C9_divisibility_asserted_at_construction
        (in_dim layer_num query_num head_num d_s bottleneck_dim : nat)
        (w : nat -> nat -> nat -> nat -> R) (b : nat -> nat -> nat -> R)
        (wq : nat -> nat -> nat -> nat -> nat -> R)
        (bq : nat -> nat -> nat -> nat -> R) :
  (0 < head_num)%nat ->
  (in_dim mod head_num <> 0%nat ->
   MHASTP.init in_dim layer_num head_num d_s bottleneck_dim w b
   = Raise AssertionError /\
   ((1 <= query_num)%nat ->
    MQMHASTP.init in_dim layer_num query_num head_num d_s bottleneck_dim wq bq
    = Raise AssertionError)) /\
  (in_dim mod head_num = 0%nat ->
   (exists p, MHASTP.init in_dim layer_num head_num d_s bottleneck_dim w b
              = Ok p) /\
   (exists p, MQMHASTP.init in_dim layer_num query_num head_num d_s
                            bottleneck_dim wq bq = Ok p)).
Proof.
  intros HH.
  assert (E0 : (head_num =? 0)%nat = false) by (apply Nat.eqb_neq; lia).
  split.
  - intros Hnd.
    assert (Em : (in_dim mod head_num =? 0)%nat = false)
      by (apply Nat.eqb_neq; exact Hnd).
    assert (Hchild : forall w' b',
              MHASTP.init in_dim layer_num head_num d_s bottleneck_dim w' b'
              = Raise AssertionError).
    { intros w' b'. unfold MHASTP.init. rewrite E0, Em. reflexivity. }
    split; [apply Hchild|].
    intros HQ. unfold MQMHASTP.init.
    destruct query_num as [|n]; [lia|].
    cbn [seq mapM]. rewrite Hchild. reflexivity.
  - intros Hd.
    assert (Em : (in_dim mod head_num =? 0)%nat = true)
      by (apply Nat.eqb_eq; exact Hd).
    assert (Hchild : forall w' b',
              exists p, MHASTP.init in_dim layer_num head_num d_s
                                    bottleneck_dim w' b' = Ok p).
    { intros w' b'. unfold MHASTP.init. rewrite E0, Em. cbn [assert bind].
      eexists. reflexivity. }
    split; [apply Hchild|].
    unfold MQMHASTP.init.
    destruct (mapM_ok (fun q => MHASTP.init in_dim layer_num head_num d_s
                                            bottleneck_dim (wq q) (bq q))
                      (seq 0 query_num)) as (qs & E).
    { intros q _. apply Hchild. }
    rewrite E. cbn [bind]. eexists. reflexivity.
Qed.

Lemma C9_divisibility_asserted_at_construction_witness :
  (0 < 2)%nat /\
  (7 mod 2 <> 0)%nat /\ (1 <= 2)%nat /\ (8 mod 2 = 0)%nat /\
  MHASTP.init 7 2 2 1 64 wh0 bh0 = Raise AssertionError /\
  MQMHASTP.init 7 2 2 2 1 64 wq0 bq0 = Raise AssertionError /\
  (exists p, MHASTP.init 8 2 2 1 64 wh0 bh0 = Ok p) /\
  (exists p, MQMHASTP.init 8 2 2 2 1 64 wq0 bq0 = Ok p).
Proof.
  assert (H2 : (0 < 2)%nat) by lia.
  assert (H7 : (7 mod 2 <> 0)%nat) by (simpl; discriminate).
  assert (HQ : (1 <= 2)%nat) by lia.
  assert (H8 : (8 mod 2 = 0)%nat) by reflexivity.
  pose proof (C9_divisibility_asserted_at_construction
                7 2 2 2 1 64 wh0 bh0 wq0 bq0 H2) as [A _].
  pose proof (C9_divisibility_asserted_at_construction
                8 2 2 2 1 64 wh0 bh0 wq0 bq0 H2) as [_ B].
  destruct (A H7) as [A1 A2]. destruct (B H8) as [B1 B2].
  repeat (split; [assumption|]).
  split; [exact (A2 HQ)|]. split; [exact B1 | exact B2].
Defined.

(** C9 fails as stated: an MQMHASTP with no query builds no child, so its
    constructor succeeds although [head_num] does not divide [in_dim]; the
    error then shows at the forward call. *)
Lemma C9_counterexample :
  (3 mod 2 <> 0)%nat /\
  MQMHASTP.init 3 2 0 2 2 64 wq0 bq0 = Ok (MQMHASTP.mk [] 0 3) /\
  MQMHASTP.forward (MQMHASTP.mk [] 0 3) (Rank3 (const3 1 3 2 1))
  = Raise RuntimeError.
Proof.
  split; [simpl; discriminate|]. split; reflexivity.
Qed.

Lemma reshape43_get (x4 : tensor4) (b c f t : nat) :
  (f < t4_F x4)%nat ->
  get3 (reshape43 x4) b (c * t4_F x4 + f) t = get4 x4 b c f t.
Proof.
  intros Hf. simpl.
  rewrite Nat.div_add_l by lia. rewrite (Nat.div_small f) by exact Hf.
  rewrite Nat.add_0_r.
  rewrite Nat.add_comm, Nat.Div0.mod_add, (Nat.mod_small f) by exact Hf.
  reflexivity.
Qed.

(** C8, as the code has it: on a rank-4 input ASTP, MHASTP and MQMHASTP
    first merge the channel and frequency axes (entry (b, c, f, t) becomes
    entry (b, c*F + f, t) of a tensor of shape (B, C*F, T)) and return what
    they return on the merged tensor; XI does no reshape and rejects the
    input on its rank assertion. *)
Theorem C8_rank4_reshaped_except_XI (p : Pooler) (x4 : tensor4) :
  shape (Rank3 (reshape43 x4)) = [t4_B x4; (t4_C x4 * t4_F x4)%nat; t4_T x4] /\
  (forall b c f t, (f < t4_F x4)%nat ->
     get3 (reshape43 x4) b (c * t4_F x4 + f) t = get4 x4 b c f t) /\
  match p with
  | P_XI _ => forward p (Rank4 x4) = (p, Raise AssertionError)
  | _ => forward p (Rank4 x4) = forward p (Rank3 (reshape43 x4))
  end.
Proof.
  split; [reflexivity|]. split; [intros b c f t; apply reshape43_get|].
  destruct p; reflexivity.
Qed.

Lemma C8_rank4_reshaped_except_XI_witness :
  (1 < 2)%nat /\
  get3 (reshape43 (const4 1 3 2 5 1)) 0 (2 * 2 + 1) 4
  = get4 (const4 1 3 2 5 1) 0 2 1 4 /\
  forward (P_ASTP astp_ex) (Rank4 (const4 1 3 2 5 1))
  = forward (P_ASTP astp_ex) (Rank3 (reshape43 (const4 1 3 2 5 1))).
Proof.
  assert (H : (1 < 2)%nat) by lia.
  destruct (C8_rank4_reshaped_except_XI (P_ASTP astp_ex) (const4 1 3 2 5 1))
    as (_ & G & E).
  split; [exact H|]. split; [exact (G 0%nat 2%nat 1%nat 4%nat H) | exact E].
Defined.

(** C8 fails as stated: XI raises on a rank-4 input although it returns a
    result on the merged rank-3 tensor. *)
Lemma C8_counterexample :
  snd (forward (P_XI xi_stddev_ex) (Rank4 (const4 1 1 1 2 1)))
  = Raise AssertionError /\
  exists out,
    snd (forward (P_XI xi_stddev_ex) (Rank3 (reshape43 (const4 1 1 1 2 1))))
    = Ok out.
Proof.
  split; [reflexivity|].
  destruct (XI_forward_ok xi_stddev_ex (reshape43 (const4 1 1 1 2 1)))
    as (l & h & lp & a & out & _ & _ & E & _).
  { apply XI_init_wf. } { reflexivity. } { simpl. lia. }
  { simpl. intros _. discriminate. }
  exists out. cbn [forward]. rewrite E. reflexivity.
Qed.

Lemma BatchNorm1d_forward_state (l : BatchNorm1d) (x : tensor3) :
  let l' := fst (BatchNorm1d_forward l x) in
  num_features l' = num_features l /\ bn_eps l' = bn_eps l /\
  momentum l' = momentum l /\ bn_weight l' = bn_weight l /\
  bn_bias l' = bn_bias l /\ training l' = training l /\
  (training l = false -> l' = l) /\
  snd (BatchNorm1d_forward l' x) = snd (BatchNorm1d_forward l x).
Proof.
  intros l'. subst l'. destruct l as [nf eps mom gw gb rm rv nbt tr].
  unfold BatchNorm1d_forward, bn_update, bn_track.
  cbn [num_features bn_eps momentum bn_weight bn_bias
       training running_mean running_var num_batches_tracked].
  destruct tr;
    [destruct (t3_B x * t3_T x =? 1)%nat eqn:E1;
     [|destruct (t3_C x =? nf)%nat eqn:E2;
       [destruct (t3_B x * t3_T x =? 0)%nat eqn:E3|]]
    |destruct (t3_C x =? nf)%nat eqn:E2];
    cbn [fst snd negb num_features bn_eps momentum bn_weight bn_bias
         training running_mean running_var num_batches_tracked];
    rewrite ?E1, ?E2, ?E3; cbn [fst snd negb];
    repeat (split; [reflexivity|]);
    first [reflexivity
          | split; [first [discriminate | reflexivity] | reflexivity]].
Qed.

Lemma XI_set_bn_same (q : XI.t) : XI.set_bn q (XI.bn q) = q.
Proof. destruct q; reflexivity. Qed.

Lemma XI_forward_state (q : XI.t) (x : tensor) :
  let q' := fst (XI.forward q x) in
  same_parameters (P_XI q) (P_XI q') /\
  (training (XI.bn q) = false -> q' = q) /\
  snd (XI.forward q' x) = snd (XI.forward q x).
Proof.
  assert (Hsame : same_parameters (P_XI q) (P_XI q)).
  { cbn. rewrite XI_set_bn_same. repeat (split; [reflexivity|]). reflexivity. }
  destruct x as [x2|feat|x4|dims]; cbn [XI.forward fst snd]; auto.
  destruct (negb (t3_C feat =? XI.input_dim q)%nat) eqn:EC.
  { cbn [fst snd XI.forward]. rewrite EC. auto. }
  unfold XI.lin1_relu_bn.
  destruct (Conv1d_forward (XI.lin1 q) feat) as [h|e] eqn:Econv.
  - pose proof (BatchNorm1d_forward_state (XI.bn q) (tmap3 relu h)) as Hbn.
    destruct (BatchNorm1d_forward (XI.bn q) (tmap3 relu h)) as [l r] eqn:Ebn.
    cbn [fst snd] in *.
    destruct Hbn as (H1 & H2 & H3 & H4 & H5 & H6 & H7 & H8).
    split; [|split].
    + cbn. repeat (split; [assumption || reflexivity|]). assumption.
    + intros Hev. rewrite (H7 Hev). apply XI_set_bn_same.
    + unfold XI.forward.
      change (XI.input_dim (XI.set_bn q l)) with (XI.input_dim q).
      rewrite EC. unfold XI.lin1_relu_bn.
      change (XI.lin1 (XI.set_bn q l)) with (XI.lin1 q).
      change (XI.bn (XI.set_bn q l)) with l. rewrite Econv.
      destruct (BatchNorm1d_forward l (tmap3 relu h)) as [l2 r2] eqn:Ebn2.
      cbn [fst snd] in *. rewrite H8. reflexivity.
  - cbn [fst snd]. split; [|split].
    + cbn. repeat (split; [reflexivity|]). reflexivity.
    + intros _. apply XI_set_bn_same.
    + unfold XI.forward.
      change (XI.input_dim (XI.set_bn q (XI.bn q))) with (XI.input_dim q).
      rewrite EC. unfold XI.lin1_relu_bn.
      change (XI.lin1 (XI.set_bn q (XI.bn q))) with (XI.lin1 q).
      rewrite Econv. reflexivity.
Qed.

(** C6, as the code has it: a forward call never changes a trainable
    parameter or the configuration; ASTP, MHASTP and MQMHASTP are left as
    they were, and so is XI outside training mode (in training mode its
    batch normalisation updates its buffers); in every case a second forward
    call on the same input returns what the first one returned. *)
Theorem C6_forward_keeps_parameters (p : Pooler) (x : tensor) :
  let p' := fst (forward p x) in
  same_parameters p p' /\
  (xi_in_training p = false -> p' = p) /\
  snd (forward p' x) = snd (forward p x).
Proof.
  destruct p as [a|a|a|q]; cbn [forward fst snd xi_in_training];
    try (split; [reflexivity | split; reflexivity]).
  pose proof (XI_forward_state q x) as H.
  destruct (XI.forward q x) as [q' r] eqn:E. cbn [fst snd] in *.
  destruct H as (H1 & H2 & H3). split; [exact H1|]. split.
  - intros Hev. rewrite (H2 Hev). reflexivity.
  - cbn [forward]. destruct (XI.forward q' x) as [q2 r2]. exact H3.
Qed.

Lemma C6_forward_keeps_parameters_witness :
  xi_in_training (P_ASTP astp_ex) = false /\
  fst (forward (P_ASTP astp_ex) (Rank3 (const3 1 2 4 1))) = P_ASTP astp_ex /\
  snd (forward (fst (forward (P_ASTP astp_ex) (Rank3 (const3 1 2 4 1))))
               (Rank3 (const3 1 2 4 1)))
  = snd (forward (P_ASTP astp_ex) (Rank3 (const3 1 2 4 1))).
Proof.
  assert (H : xi_in_training (P_ASTP astp_ex) = false) by reflexivity.
  destruct (C6_forward_keeps_parameters (P_ASTP astp_ex)
                                        (Rank3 (const3 1 2 4 1)))
    as (_ & A & B).
  split; [exact H|]. split; [exact (A H) | exact B].
Defined.

(** C6 fails as stated: a forward call of XI in training mode (the mode of
    a newly built module) counts the batch in [num_batches_tracked]. *)
Lemma C6_counterexample :
  num_batches_tracked (XI.bn xi_stddev_ex) = 0%nat /\
  exists q',
    fst (forward (P_XI xi_stddev_ex) (Rank3 (const3 1 1 2 1))) = P_XI q' /\
    num_batches_tracked (XI.bn q') = 1%nat /\
    P_XI q' <> P_XI xi_stddev_ex.
Proof.
  split; [reflexivity|].
  eexists. split; [reflexivity|]. split; [reflexivity|].
  intros H.
  apply (f_equal (fun p => match p with
                           | P_XI q => num_batches_tracked (XI.bn q)
                           | _ => 0%nat
                           end)) in H.
  cbn in H. discriminate.
Qed.

Lemma nth_error_map_seq {A : Type} (f : nat -> A) (n h : nat) (a : A) :
  nth_error (map f (seq 0 n)) h = Some a -> (h < n)%nat /\ a = f h.
Proof.
  rewrite nth_error_map.
  destruct (nth_error (seq 0 n) h) as [k|] eqn:E; simpl; [|discriminate].
  intros H. injection H as <-.
  apply nth_error_seq_inv in E. destruct E as [Hh ->]. auto.
Qed.

Lemma const3_finite (B C T : nat) (v : R) : finite3 (const3 B C T v).
Proof. intros b c t _ _ _. exact I. Qed.




(** ** A single frame *)



Lemma bidx_bound (ds d c : nat) :
  ds = d \/ ds = 1%nat -> (c < d)%nat -> (bidx ds c < ds)%nat.
Proof.
  intros [->| ->] Hc; [rewrite bidx_lt by exact Hc; exact Hc|].
  rewrite bidx_1. lia.
Qed.





(** ** The posterior of XI *)

Lemma rsum_S_plus_1 (n : nat) (f : nat -> R) :
  rsum (n + 1) f = rsum n f + f n.
Proof. rewrite Nat.add_1_r. reflexivity. Qed.

(** The posterior moments of row (b, c) as sums of real numbers: [k] is
    the softmax of the log-precisions of the frames and of the prior. *)
Lemma XI_moments (q : XI.t) (feat a : tensor3) (b c : nat) :
  t3_T a = (t3_T feat + 1)%nat ->
  (forall t, (t < t3_T feat)%nat -> is_fin (get3 feat b c t)) ->
  (forall t, (t < t3_T a)%nat -> is_fin (get3 a b c t)) ->
  let T := t3_T feat in
  let x t := val (get3 feat b c t) in
  let m := XI.prior_mean q c in
  let k := softmax_R (T + 1) (fun t => val (get3 a b c t)) in
  (forall t, (t < T + 1)%nat -> get3 (softmax_dim2 a) b c t = Fin (k t)) /\
  XI_phi q feat (softmax_dim2 a) b c
  = Fin (rsum T (fun t => x t * k t) + m * k T) /\
  XI_sigma2 q feat (softmax_dim2 a) b c
  = Fin (rsum T (fun t => x t * x t * k t) + m * m * k T).
Proof.
  intros HTa Hx Ha T x m k.
  assert (Hk : forall t, (t < T + 1)%nat ->
                 get3 (softmax_dim2 a) b c t = Fin (k t)).
  { intros t Ht. rewrite softmax_dim2_get; [|exact Ha | lia].
    unfold k. rewrite HTa. reflexivity. }
  assert (Haug : forall t, (t < T + 1)%nat ->
                   XI_aug feat (XI.prior_mean q) b c t
                   = Fin (if (t <? T)%nat then x t else m)).
  { intros t Ht. unfold XI_aug. fold T.
    destruct (t <? T)%nat eqn:E; [|reflexivity].
    apply Nat.ltb_lt in E. apply fin_val, Hx, E. }
  split; [exact Hk|]. split.
  - unfold XI_phi. fold T.
    rewrite (nsum_Fin _ _ (fun t => (if (t <? T)%nat then x t else m) * k t)).
    + rewrite rsum_S_plus_1, Nat.ltb_irrefl. f_equal. f_equal.
      apply rsum_ext. intros t Ht.
      apply Nat.ltb_lt in Ht. rewrite Ht. reflexivity.
    + intros t Ht. rewrite Haug, Hk by exact Ht. reflexivity.
  - unfold XI_sigma2. fold T.
    rewrite (nsum_Fin _ _
               (fun t => (if (t <? T)%nat then x t else m)
                         * (if (t <? T)%nat then x t else m) * k t)).
    + rewrite rsum_S_plus_1, Nat.ltb_irrefl. f_equal. f_equal.
      apply rsum_ext. intros t Ht.
      apply Nat.ltb_lt in Ht. rewrite Ht. reflexivity.
    + intros t Ht. rewrite Haug, Hk by exact Ht. reflexivity.
Qed.

(** C10: for every valid real-valued rank-3 input of XI the softmax over
    the frames and the prior gives the prior a strictly positive weight, all
    weights are positive and sum to 1, and the posterior mean is the
    combination of the frame values and of [prior_mean] under these
    weights. *)
Theorem C10_prior_weight_positive (q : XI.t) (feat : tensor3) :
  XI_wf q -> t3_C feat = XI.input_dim q -> (1 <= t3_T feat)%nat ->
  (training (XI.bn q) = true -> (t3_B feat * t3_T feat)%nat <> 1%nat) ->
  finite3 feat ->
  training (XI.bn q) = true \/ bn_stats_ok (XI.bn q) ->
  exists l h lp wa out,
    XI.lin1_relu_bn q feat = (l, Ok h) /\ XI.logprec_of q h = Ok lp /\
    XI.weight_attn q lp = Ok wa /\
    XI.forward q (Rank3 feat) = (XI.set_bn q l, Ok out) /\
    forall b c, (b < t3_B feat)%nat -> (c < t3_C feat)%nat ->
      exists k : nat -> R,
        (forall t, (t < t3_T feat + 1)%nat ->
           get3 wa b c t = Fin (k t) /\ 0 < k t) /\
        rsum (t3_T feat + 1) k = 1 /\
        0 < k (t3_T feat) /\
        out_entry out b c
        = Fin (rsum (t3_T feat) (fun t => val (get3 feat b c t) * k t)
               + XI.prior_mean q c * k (t3_T feat)).
Proof.
  intros Hwf HC HT Hn Hfin Hst.
  destruct (XI_forward_ok q feat Hwf HC HT Hn)
    as (l & h & lp & a & out & E1 & E2 & E & HBl & HCl & HTl & Hfl & Ew
        & HBa & HCa & HTa & Hga & H0 & H1).
  exists l, h, lp, (softmax_dim2 a), out.
  split; [exact E1|]. split; [exact E2|]. split; [exact Ew|].
  split; [exact E|].
  intros b c Hb Hc.
  destruct (XI_moments q feat a b c HTa) as (Hk & Hphi & _).
  { intros t Ht. apply Hfin; assumption. }
  { intros t Ht. rewrite Hga by exact Hc.
    apply XI_aug_finite; [apply Hfl; assumption | congruence | congruence]. }
  exists (softmax_R (t3_T feat + 1) (fun t => val (get3 a b c t))).
  split; [|split; [|split]].
  - intros t Ht. split; [apply Hk, Ht|]. apply softmax_R_pos. lia.
  - apply softmax_R_sum. lia.
  - apply softmax_R_pos. lia.
  - destruct (XI.stddev q).
    + destruct (H1 eq_refl) as (o & -> & _ & _ & _ & Hg).
      cbn [out_entry]. destruct (Hg b c 0%nat Hb Hc) as [G _].
      rewrite G. exact Hphi.
    + destruct (H0 eq_refl) as (o & -> & _ & _ & Hg).
      cbn [out_entry]. rewrite (Hg b c Hb Hc). exact Hphi.
Qed.

Lemma C10_prior_weight_positive_witness :
  XI_wf xi_stddev_ex /\
  t3_C (const3 1 1 2 1) = XI.input_dim xi_stddev_ex /\
  (1 <= t3_T (const3 1 1 2 1))%nat /\
  finite3 (const3 1 1 2 1) /\
  exists l h lp wa out,
    XI.lin1_relu_bn xi_stddev_ex (const3 1 1 2 1) = (l, Ok h) /\
    XI.logprec_of xi_stddev_ex h = Ok lp /\
    XI.weight_attn xi_stddev_ex lp = Ok wa /\
    XI.forward xi_stddev_ex (Rank3 (const3 1 1 2 1))
    = (XI.set_bn xi_stddev_ex l, Ok out) /\
    exists k : nat -> R,
      get3 wa 0 0 2 = Fin (k 2%nat) /\ 0 < k 2%nat /\
      out_entry out 0 0
      = Fin (rsum 2 (fun t => val (get3 (const3 1 1 2 1) 0 0 t) * k t)
             + XI.prior_mean xi_stddev_ex 0 * k 2%nat).
Proof.
  assert (W : XI_wf xi_stddev_ex) by apply XI_init_wf.
  assert (HC : t3_C (const3 1 1 2 1) = XI.input_dim xi_stddev_ex)
    by reflexivity.
  assert (HT : (1 <= t3_T (const3 1 1 2 1))%nat) by (simpl; lia).
  assert (Hn : training (XI.bn xi_stddev_ex) = true ->
               (t3_B (const3 1 1 2 1) * t3_T (const3 1 1 2 1))%nat <> 1%nat)
    by (simpl; intros _; discriminate).
  assert (Hst : training (XI.bn xi_stddev_ex) = true
                \/ bn_stats_ok (XI.bn xi_stddev_ex)) by (left; reflexivity).
  destruct (C10_prior_weight_positive xi_stddev_ex (const3 1 1 2 1) W HC HT Hn
              (const3_finite 1 1 2 1) Hst)
    as (l & h & lp & wa & out & E1 & E2 & E3 & E4 & G).
  destruct (G 0%nat 0%nat) as (k & Hk & _ & Hpos & Hout);
    [simpl; lia | simpl; lia |].
  split; [exact W|]. split; [exact HC|]. split; [exact HT|].
  split; [apply const3_finite|].
  exists l, h, lp, wa, out. repeat (split; [assumption|]).
  exists k. split; [apply (Hk 2%nat); simpl; lia|].
  split; [exact Hpos | exact Hout].
Defined.






(** ** Tensors that agree *)

Lemma Conv1d_apply_agree (l : Conv1d) (x y : tensor3) :
  t3_C x = in_channels l -> agree3 x y ->
  agree3 (Conv1d_apply l x) (Conv1d_apply l y).
Proof.
  intros HC (HB & HC' & HT & Hg). unfold agree3. simpl.
  split; [exact HB|]. split; [reflexivity|]. split; [exact HT|].
  intros b k t Hb Hk Ht. f_equal. apply nsum_ext. intros j Hj.
  rewrite Hg; [reflexivity | exact Hb | lia | exact Ht].
Qed.

Lemma tmap3_agree (f : num -> num) (x y : tensor3) :
  agree3 x y -> agree3 (tmap3 f x) (tmap3 f y).
Proof.
  intros (HB & HC & HT & Hg). unfold agree3. simpl.
  repeat (split; [assumption|]).
  intros b c t Hb Hc Ht. rewrite Hg by assumption. reflexivity.
Qed.

Lemma softmax_agree (x y : tensor3) :
  agree3 x y -> agree3 (softmax_dim2 x) (softmax_dim2 y).
Proof.
  intros (HB & HC & HT & Hg). unfold agree3. simpl.
  repeat (split; [assumption|]).
  intros b c t Hb Hc Ht. rewrite Hg by assumption. f_equal.
  rewrite <- HT. apply nsum_ext. intros s Hs.
  rewrite Hg by assumption. reflexivity.
Qed.

Lemma Sequential_forward_agree (ls : list layer) (x y sx sy : tensor3) :
  agree3 x y ->
  Sequential_forward ls x = Ok sx -> Sequential_forward ls y = Ok sy ->
  agree3 sx sy.
Proof.
  revert x y. induction ls as [|l ls IH]; intros x y Hxy Ex Ey; simpl in *.
  - injection Ex as <-. injection Ey as <-. exact Hxy.
  - destruct (layer_forward l x) as [x'|e] eqn:Ex'; simpl in Ex;
      [|discriminate].
    destruct (layer_forward l y) as [y'|e] eqn:Ey'; simpl in Ey;
      [|discriminate].
    apply (IH x' y'); [|assumption|assumption].
    destruct l as [c|]; simpl in Ex', Ey'.
    + apply Conv1d_forward_inv in Ex'. destruct Ex' as (HC & _ & ->).
      apply Conv1d_forward_inv in Ey'. destruct Ey' as (_ & _ & ->).
      apply Conv1d_apply_agree; assumption.
    + injection Ex' as <-. injection Ey' as <-.
      apply tmap3_agree, Hxy.
Qed.

Lemma head_attention_agree (att : list layer) (x y ax ay : tensor3) :
  agree3 x y ->
  MHASTP.head_attention att x = Ok ax -> MHASTP.head_attention att y = Ok ay ->
  agree3 ax ay.
Proof.
  unfold MHASTP.head_attention. intros Hxy Ex Ey.
  destruct (Sequential_forward att x) as [sx|e] eqn:Esx; simpl in Ex;
    [|discriminate].
  destruct (Sequential_forward att y) as [sy|e] eqn:Esy; simpl in Ey;
    [|discriminate].
  injection Ex as <-. injection Ey as <-.
  apply softmax_agree. apply (Sequential_forward_agree att x y); assumption.
Qed.

(** The weighted statistics of row (b, c) depend on the entries of the
    weights and of the input only. *)
Lemma wstats_agree (floor : R) (alpha alpha' x y : tensor3) (b c : nat) :
  agree3 alpha alpha' -> agree3 x y ->
  t3_B alpha = t3_B x -> t3_T alpha = t3_T x ->
  t3_C alpha = t3_C x \/ t3_C alpha = 1%nat ->
  (b < t3_B x)%nat -> (c < t3_C x)%nat ->
  wmean alpha x b c = wmean alpha' y b c /\
  wstd floor alpha x b c = wstd floor alpha' y b c.
Proof.
  intros (HBa & HCa & HTa & Hga) (HBx & HCx & HTx & Hgx) HB HT HC Hb Hc.
  assert (Hidx : (bidx (t3_C alpha) c < t3_C alpha)%nat)
    by (apply (bidx_bound _ (t3_C x)); assumption).
  assert (Hm : wmean alpha x b c = wmean alpha' y b c).
  { unfold wmean. rewrite <- HCa, <- HTx. apply nsum_ext. intros t Ht.
    rewrite Hga, Hgx; [reflexivity | | | | | |]; try assumption; lia. }
  assert (Hs : wsecond alpha x b c = wsecond alpha' y b c).
  { unfold wsecond. rewrite <- HCa, <- HTx. apply nsum_ext. intros t Ht.
    rewrite Hga, Hgx; [reflexivity | | | | | |]; try assumption; lia. }
  split; [exact Hm|]. unfold wstd. rewrite Hm, Hs. reflexivity.
Qed.

(** C3: the output of MHASTP is the concatenation, in the order of the
    heads, of the (mean, std) pairs of the heads, head [k] working on
    channels [k*d .. k*d + d - 1] of the input, [d = in_dim / head_num], and
    filling columns [k*2d .. k*2d + 2d - 1]; so two inputs that agree on
    the channels of head [h] give the same columns of head [h]. *)
Theorem C3_head_independence
        (in_dim layer_num head_num d_s bottleneck_dim : nat)
        (w : nat -> nat -> nat -> nat -> R) (b : nat -> nat -> nat -> R)
        (p : MHASTP.t) (x y : tensor3) (h : nat) :
  let d := (in_dim / head_num)%nat in
  (1 <= layer_num)%nat ->
  MHASTP.init in_dim layer_num head_num d_s bottleneck_dim w b = Ok p ->
  t3_C x = in_dim -> t3_C y = in_dim ->
  t3_B x = t3_B y -> t3_T x = t3_T y -> (1 <= t3_T x)%nat ->
  (h < head_num)%nat ->
  (forall i c t, (i < t3_B x)%nat -> (c < d)%nat -> (t < t3_T x)%nat ->
     get3 x i (h * d + c)%nat t = get3 y i (h * d + c)%nat t) ->
  exists outs ox oy,
    length outs = head_num /\
    (forall k o, nth_error outs k = Some o ->
       exists att,
         nth_error (MHASTP.heads_att_trans p) k = Some att /\
         MHASTP.head_forward att (narrow1 x (k * d) d) = Ok o /\
         forall i j, (j < d + d)%nat ->
           get2 ox i (k * (d + d) + j)%nat = get2 o i j) /\
    MHASTP.forward p (Rank3 x) = Ok ox /\
    MHASTP.forward p (Rank3 y) = Ok oy /\
    forall i j, (i < t3_B x)%nat -> (j < d + d)%nat ->
      get2 ox i (h * (d + d) + j)%nat = get2 oy i (h * (d + d) + j)%nat.
Proof.
  intros d HL Hinit HCx HCy HB HT HT1 Hh Hxy.
  destruct (MHASTP_forward_ok in_dim layer_num head_num d_s bottleneck_dim
              w b p (Rank3 x) x HL Hinit eq_refl HCx HT1)
    as (outs & ox & HFx & Ex & _ & _ & Hgx).
  destruct (MHASTP_forward_ok in_dim layer_num head_num d_s bottleneck_dim
              w b p (Rank3 y) y HL Hinit eq_refl HCy ltac:(lia))
    as (outsy & oy & HFy & Ey & _ & _ & Hgy).
  fold d in HFx, Hgx, HFy, Hgy.
  destruct (MHASTP_init_inv _ _ _ _ _ _ _ HL p Hinit) as (HH & Hdiv & Ep).
  fold d in Hdiv, Ep.
  set (ds := if (1 <? d_s)%nat then d else 1%nat) in *.
  set (att := fun k => MHASTP.att_trans layer_num d ds bottleneck_dim
                                        (w k) (b k)) in *.
  assert (Hlenx : length outs = head_num).
  { apply Forall2_length in HFx. rewrite length_seq in HFx. auto. }
  assert (Hleny : length outsy = head_num).
  { apply Forall2_length in HFy. rewrite length_seq in HFy. auto. }
  exists outs, ox, oy. split; [exact Hlenx|]. split.
  { intros k o Hk.
    destruct (Forall2_nth_error_r _ _ _ _ _ HFx Hk) as (k' & Hk' & Eo).
    apply nth_error_seq_inv in Hk'. destruct Hk' as [Hlt ->]. simpl in Eo.
    exists (att k). split.
    - rewrite Ep. cbn [MHASTP.heads_att_trans].
      rewrite nth_error_map, nth_error_seq by exact Hlt. reflexivity.
    - split; [exact Eo|]. intros i j Hj. apply (Hgx k o Hk i j Hj). }
  split; [exact Ex|]. split; [exact Ey|].
  intros i j Hi Hj.
  set (cx := narrow1 x (h * d) d). set (cy := narrow1 y (h * d) d).
  assert (Hc : agree3 cx cy).
  { unfold agree3, cx, cy. simpl.
    split; [exact HB|]. split; [reflexivity|]. split; [exact HT|].
    intros i' c t Hi' Hc Ht. apply Hxy; assumption. }
  destruct (head_forward_ok in_dim layer_num head_num d_s bottleneck_dim w b
              HL h cx)
    as (sx & ohx & Eax & HBsx & HCsx & HTsx & _ & Eox & _ & _ & Hox).
  { reflexivity. } { exact HT1. }
  destruct (head_forward_ok in_dim layer_num head_num d_s bottleneck_dim w b
              HL h cy)
    as (sy & ohy & Eay & HBsy & HCsy & HTsy & _ & Eoy & _ & _ & Hoy).
  { reflexivity. } { simpl. lia. }
  fold d in Eax, HCsx, Eox, Hox, Eay, HCsy, Eoy, Hoy.
  fold ds in Eax, HCsx, Eox, Eay, HCsy, Eoy.
  change (MHASTP.att_trans layer_num d ds bottleneck_dim (w h) (b h))
    with (att h) in Eax, Eox, Eay, Eoy.
  assert (Hnx : nth_error outs h = Some ohx).
  { destruct (nth_error outs h) as [o'|] eqn:En.
    - destruct (Forall2_nth_error_r _ _ _ _ _ HFx En) as (k & Hk & Ek).
      apply nth_error_seq_inv in Hk. destruct Hk as [_ ->]. simpl in Ek.
      change (MHASTP.head_forward (att h) cx = Ok o') in Ek. congruence.
    - apply nth_error_None in En. lia. }
  assert (Hny : nth_error outsy h = Some ohy).
  { destruct (nth_error outsy h) as [o'|] eqn:En.
    - destruct (Forall2_nth_error_r _ _ _ _ _ HFy En) as (k & Hk & Ek).
      apply nth_error_seq_inv in Hk. destruct Hk as [_ ->]. simpl in Ek.
      change (MHASTP.head_forward (att h) cy = Ok o') in Ek. congruence.
    - apply nth_error_None in En. lia. }
  rewrite (Hgx h ohx Hnx i j Hj), (Hgy h ohy Hny i j Hj).
  assert (Ha : agree3 (softmax_dim2 sx) (softmax_dim2 sy))
    by (apply (head_attention_agree (att h) cx cy); assumption).
  assert (Hds : ds = d \/ ds = 1%nat).
  { unfold ds. destruct (1 <? d_s)%nat; auto. }
  assert (Hst : forall c, (c < d)%nat ->
            wmean (softmax_dim2 sx) cx i c = wmean (softmax_dim2 sy) cy i c /\
            wstd floor_astp (softmax_dim2 sx) cx i c
            = wstd floor_astp (softmax_dim2 sy) cy i c).
  { intros c Hc'. apply wstats_agree; try assumption.
    simpl. rewrite HCsx. exact Hds. }
  destruct (Nat.lt_ge_cases j d) as [Hjd|Hjd].
  - destruct (Hox i j Hi Hjd) as [-> _].
    destruct (Hoy i j ltac:(simpl; lia) Hjd) as [-> _].
    apply (Hst j Hjd).
  - replace j with (d + (j - d))%nat by lia.
    destruct (Hox i (j - d)%nat Hi ltac:(lia)) as [_ ->].
    destruct (Hoy i (j - d)%nat ltac:(simpl; lia) ltac:(lia)) as [_ ->].
    apply (Hst (j - d)%nat). lia.
Qed.

Lemma C3_head_independence_witness :
  MHASTP.init 8 2 2 1 3 wh0 bh0
  = Ok (MHASTP.mk 8 2 1
          (map (fun h => MHASTP.att_trans 2 4 1 3 (wh0 h) (bh0 h)) (seq 0 2)))
  /\
  (forall i c t, (i < 2)%nat -> (c < 4)%nat -> (t < 5)%nat ->
     get3 ramp3 i c t = get3 ramp3_perturbed i c t) /\
  get3 ramp3 0 5 0 <> get3 ramp3_perturbed 0 5 0 /\
  exists ox oy,
    MHASTP.forward
      (MHASTP.mk 8 2 1
         (map (fun h => MHASTP.att_trans 2 4 1 3 (wh0 h) (bh0 h)) (seq 0 2)))
      (Rank3 ramp3) = Ok ox /\
    MHASTP.forward
      (MHASTP.mk 8 2 1
         (map (fun h => MHASTP.att_trans 2 4 1 3 (wh0 h) (bh0 h)) (seq 0 2)))
      (Rank3 ramp3_perturbed) = Ok oy /\
    forall i j, (i < 2)%nat -> (j < 8)%nat -> get2 ox i j = get2 oy i j.
Proof.
  assert (Hxy : forall i c t, (i < 2)%nat -> (c < 4)%nat -> (t < 5)%nat ->
                  get3 ramp3 i c t = get3 ramp3_perturbed i c t).
  { intros i c t _ Hc _. simpl.
    apply Nat.ltb_lt in Hc. rewrite Hc. reflexivity. }
  split; [reflexivity|]. split; [exact Hxy|]. split.
  { simpl. intros H. injection H as H. lra. }
  destruct (C3_head_independence 8 2 2 1 3 wh0 bh0
              (MHASTP.mk 8 2 1
                 (map (fun h => MHASTP.att_trans 2 4 1 3 (wh0 h) (bh0 h))
                      (seq 0 2)))
              ramp3 ramp3_perturbed 0)
    as (outs & ox & oy & _ & _ & Ex & Ey & G).
  - lia.
  - reflexivity.
  - reflexivity.
  - reflexivity.
  - reflexivity.
  - reflexivity.
  - simpl. lia.
  - lia.
  - exact Hxy.
  - exists ox, oy. split; [exact Ex|]. split; [exact Ey|]. exact G.
Defined.

(** ** The multi-query law *)

Lemma MQMHASTP_forward_unfold (p : MQMHASTP.t) (x : tensor) :
  MQMHASTP.n_query p <> [] ->
  MQMHASTP.forward p x
  = (outs <- mapM (fun child => MHASTP.forward child x) (MQMHASTP.n_query p) ;;
     cat_list cat2_dim1 outs).
Proof.
  intros Hne. unfold MQMHASTP.forward.
  destruct x as [x2|x3|x4|dims]; cbn [to_rank3 bind]; try reflexivity.
  - destruct (MQMHASTP.n_query p) as [|c cs]; [congruence | reflexivity].
  - destruct (MQMHASTP.n_query p) as [|c cs]; [congruence | reflexivity].
Qed.

(** C4: an MQMHASTP returns the concatenation along the last axis, in the
    order of construction, of what its children return on the same input;
    on a valid input each of the [query_num] children, built with weights
    of its own, contributes [2 * in_dim] columns, child [k] filling columns
    [k * 2 in_dim .. k * 2 in_dim + 2 in_dim - 1] of the [2 * in_dim *
    query_num] columns of the output. *)
Theorem C4_multi_query_law
        (in_dim layer_num query_num head_num d_s bottleneck_dim : nat)
        (w : nat -> nat -> nat -> nat -> nat -> R)
        (b : nat -> nat -> nat -> nat -> R)
        (p : MQMHASTP.t) (x : tensor) (x3 : tensor3) :
  (1 <= layer_num)%nat -> (1 <= query_num)%nat ->
  MQMHASTP.init in_dim layer_num query_num head_num d_s bottleneck_dim w b
  = Ok p ->
  to_rank3 x = Ok x3 -> t3_C x3 = in_dim -> (1 <= t3_T x3)%nat ->
  MQMHASTP.forward p x
  = (outs <- mapM (fun child => MHASTP.forward child x) (MQMHASTP.n_query p) ;;
     cat_list cat2_dim1 outs) /\
  Forall2 (fun q child =>
             MHASTP.init in_dim layer_num head_num d_s bottleneck_dim
                         (w q) (b q) = Ok child)
          (seq 0 query_num) (MQMHASTP.n_query p) /\
  exists outs out,
    Forall2 (fun child o =>
               MHASTP.forward child x = Ok o /\
               t2_B o = t3_B x3 /\ t2_D o = (2 * in_dim)%nat)
            (MQMHASTP.n_query p) outs /\
    length outs = query_num /\
    MQMHASTP.forward p x = Ok out /\
    t2_B out = t3_B x3 /\
    t2_D out = (2 * in_dim * query_num)%nat /\
    t2_D out = MQMHASTP.get_out_dim p /\
    forall k o, nth_error outs k = Some o ->
      forall i j, (j < 2 * in_dim)%nat ->
        get2 out i (k * (2 * in_dim) + j)%nat = get2 o i j.
Proof.
  intros HL HQ Hinit Hx HC HT.
  destruct (MQMHASTP_init_inv _ _ _ _ _ _ _ _ p Hinit) as (EQ & EI & HF).
  destruct (MQMHASTP_forward_ok in_dim layer_num query_num head_num d_s
              bottleneck_dim w b p x x3 HL HQ Hinit Hx HC HT)
    as (outs & out & HF2 & Hlen & E & HB & HD & Hg).
  split.
  { apply MQMHASTP_forward_unfold. intros Hnil.
    apply Forall2_length in HF. rewrite length_seq, Hnil in HF.
    simpl in HF. lia. }
  split; [exact HF|].
  exists outs, out. split.
  { clear - HF HF2 HL Hx HC HT.
    revert HF. generalize (seq 0 query_num) as qs.
    induction HF2 as [|child o cs os Ho HF2 IH]; intros qs HF; [constructor|].
    destruct qs as [|q qs']; [inversion HF|].
    apply Forall2_cons_iff in HF. destruct HF as [Hq HF'].
    constructor; [|apply (IH qs' HF')].
    destruct (MHASTP_forward_ok in_dim layer_num head_num d_s bottleneck_dim
                (w q) (b q) child x x3 HL Hq Hx HC HT)
      as (_ & o' & _ & Eo & HBo & HDo & _).
    rewrite Ho in Eo. injection Eo as <-. auto. }
  split; [exact Hlen|]. split; [exact E|]. split; [exact HB|].
  split; [rewrite HD; lia|]. split; [|exact Hg].
  unfold MQMHASTP.get_out_dim. rewrite HD, EQ, EI. reflexivity.
Qed.

Lemma C4_multi_query_law_witness :
  (1 <= 2)%nat /\ (1 <= 3)%nat /\
  exists p outs out,
    MQMHASTP.init 8 2 3 2 2 3 wq0 bq0 = Ok p /\
    length (MQMHASTP.n_query p) = 3%nat /\
    MQMHASTP.forward p (Rank3 ramp3)
    = (outs <- mapM (fun child => MHASTP.forward child (Rank3 ramp3))
                    (MQMHASTP.n_query p) ;;
       cat_list cat2_dim1 outs) /\
    length outs = 3%nat /\
    MQMHASTP.forward p (Rank3 ramp3) = Ok out /\
    t2_D out = 48%nat /\
    forall o, nth_error outs 2 = Some o ->
      forall i j, (j < 16)%nat -> get2 out i (32 + j)%nat = get2 o i j.
Proof.
  assert (HL : (1 <= 2)%nat) by lia.
  assert (HQ : (1 <= 3)%nat) by lia.
  split; [exact HL|]. split; [exact HQ|].
  destruct (MQMHASTP.init 8 2 3 2 2 3 wq0 bq0) as [p|e] eqn:Hinit;
    [|discriminate Hinit].
  destruct (C4_multi_query_law 8 2 3 2 2 3 wq0 bq0 p (Rank3 ramp3) ramp3
              HL HQ Hinit eq_refl eq_refl)
    as (Eq & HF & outs & out & _ & Hlen & E & _ & HD & _ & Hg).
  { simpl. lia. }
  exists p, outs, out. split; [reflexivity|]. split.
  { apply Forall2_length in HF. rewrite length_seq in HF. auto. }
  split; [exact Eq|]. split; [exact Hlen|]. split; [exact E|].
  split; [exact HD|].
  intros o Ho i j Hj. apply (Hg 2%nat o Ho i j). simpl. lia.
Defined.

(** * Further properties of the code *)

(** ** The inputs each forward accepts *)

Lemma ASTP_scorer_input_shape (p : ASTP.t) (x : tensor3) :
  exists x_in,
    ASTP.scorer_input p x = Ok x_in /\
    t3_B x_in = t3_B x /\ t3_T x_in = t3_T x /\
    t3_C x_in = (if ASTP.global_context_att p
                 then t3_C x + (t3_C x + t3_C x) else t3_C x)%nat.
Proof.
  unfold ASTP.scorer_input. destruct (ASTP.global_context_att p).
  - unfold cat_list, cat3_dim1. simpl. rewrite !Nat.eqb_refl. simpl.
    rewrite !Nat.eqb_refl. simpl.
    eexists. split; [reflexivity|]. simpl. auto.
  - exists x. auto.
Qed.

(** ASTP.forward has one assertion, on the rank; the channel count and the
    length are checked by its first convolution only.  So a call fails with
    AssertionError on an input of rank other than 3 and 4, fails with
    RuntimeError on an input whose channels (after the merge of a rank-4
    input) are not [in_dim] or that has no frame, and returns a result on
    every other input. *)
Theorem ASTP_forward_domain (in_dim bottleneck_dim : nat) (gca : bool)
        (w1 : nat -> nat -> R) (b1 : nat -> R)
        (w2 : nat -> nat -> R) (b2 : nat -> R) (x : tensor) :
  let p := ASTP.init in_dim bottleneck_dim gca w1 b1 w2 b2 in
  match to_rank3 x with
  | Raise _ => ASTP.forward p x = Raise AssertionError
  | Ok x3 =>
      if ((t3_C x3 =? in_dim) && (1 <=? t3_T x3))%nat
      then exists o, ASTP.forward p x = Ok o /\
                     t2_B o = t3_B x3 /\ t2_D o = ASTP.get_out_dim p
      else ASTP.forward p x = Raise RuntimeError
  end.
Proof.
  intros p.
  destruct (to_rank3 x) as [x3|e] eqn:Hx.
  2:{ destruct x; try discriminate; reflexivity. }
  destruct ((t3_C x3 =? in_dim) && (1 <=? t3_T x3))%nat eqn:Hc.
  - apply andb_true_iff in Hc. destruct Hc as [HC HT].
    apply Nat.eqb_eq in HC. apply Nat.leb_le in HT.
    destruct (ASTP_forward_ok in_dim bottleneck_dim gca w1 b1 w2 b2 x x3 Hx
                HC HT)
      as (s & o & _ & _ & _ & _ & _ & E & HB & HD & _).
    exists o. split; [exact E|]. split; [exact HB|].
    rewrite HD. unfold p, ASTP.get_out_dim, ASTP.init. simpl. lia.
  - unfold ASTP.forward. rewrite Hx. cbn [bind]. unfold ASTP.attention.
    destruct (ASTP_scorer_input_shape p x3) as (x_in & E & _ & HT & HC).
    rewrite E. cbn [bind]. unfold Conv1d_forward. rewrite HT, HC.
    assert (E' : ((if ASTP.global_context_att p
                   then t3_C x3 + (t3_C x3 + t3_C x3) else t3_C x3)
                  =? in_channels (ASTP.linear1 p))%nat
                 = (t3_C x3 =? in_dim)%nat).
    { unfold p, ASTP.init. simpl. destruct gca; simpl; [|reflexivity].
      destruct (t3_C x3 =? in_dim)%nat eqn:Eq.
      - apply Nat.eqb_eq in Eq. apply Nat.eqb_eq. lia.
      - apply Nat.eqb_neq in Eq. apply Nat.eqb_neq. lia. }
    rewrite E', Hc. reflexivity.
Qed.

(** XI.forward asserts the rank and the channel count before it runs any
    layer; its first convolution refuses an input with no frame, and its
    batch normalisation, in training mode, an input with a single value per
    channel, which it has counted by then.  Every other input gives a
    result. *)
Theorem XI_forward_domain (q : XI.t) (x : tensor) :
  XI_wf q ->
  match x with
  | Rank3 feat =>
      if negb (t3_C feat =? XI.input_dim q)%nat
      then XI.forward q x = (q, Raise AssertionError)
      else if (t3_T feat =? 0)%nat
      then XI.forward q x = (q, Raise RuntimeError)
      else if training (XI.bn q) && (t3_B feat * t3_T feat =? 1)%nat
      then XI.forward q x = (XI.set_bn q (bn_track (XI.bn q)), Raise ValueError)
      else exists q' out, XI.forward q x = (q', Ok out)
  | _ => XI.forward q x = (q, Raise AssertionError)
  end.
Proof.
  intros Hwf. destruct x as [x2|feat|x4|dims]; try reflexivity.
  destruct (negb (t3_C feat =? XI.input_dim q)%nat) eqn:EC.
  { cbn [XI.forward]. rewrite EC. reflexivity. }
  apply negb_false_iff, Nat.eqb_eq in EC.
  destruct (t3_T feat =? 0)%nat eqn:ET.
  { apply Nat.eqb_eq in ET. cbn [XI.forward].
    rewrite EC, Nat.eqb_refl. cbn [negb].
    unfold XI.lin1_relu_bn, Conv1d_forward. rewrite ET.
    rewrite andb_false_r. cbn [bind]. rewrite XI_set_bn_same. reflexivity. }
  apply Nat.eqb_neq in ET.
  destruct (training (XI.bn q) && (t3_B feat * t3_T feat =? 1)%nat) eqn:EV.
  - apply andb_true_iff in EV. destruct EV as [Etr E1].
    destruct Hwf as (W1 & W2 & _).
    cbn [XI.forward]. rewrite EC, Nat.eqb_refl. cbn [negb].
    unfold XI.lin1_relu_bn.
    rewrite Conv1d_forward_ok by (try lia; congruence).
    unfold BatchNorm1d_forward. rewrite Etr.
    cbn [tmap3 Conv1d_apply t3_B t3_C t3_T]. rewrite E1. reflexivity.
  - destruct (XI_forward_ok q feat Hwf EC ltac:(lia))
      as (l & h & lp & a & out & _ & _ & E & _).
    { intros Htr Hn. rewrite Htr in EV. cbn [andb] in EV.
      apply Nat.eqb_neq in EV. contradiction. }
    eexists. exists out. exact E.
Qed.

Lemma XI_forward_domain_witness :
  XI_wf xi_stddev_ex /\
  XI.forward xi_stddev_ex (Rank3 (const3 1 1 1 5))
  = (XI.set_bn xi_stddev_ex (bn_track (XI.bn xi_stddev_ex)),
     Raise ValueError).
Proof.
  split; [apply XI_init_wf|].
  exact (XI_forward_domain xi_stddev_ex (Rank3 (const3 1 1 1 5))
                           (XI_init_wf 1 1 true w0 b0 w0 b0)).
Defined.

Lemma cdiv_upper (a b : nat) : b <> 0%nat -> (a <= cdiv a b * b)%nat.
Proof.
  intros Hb. unfold cdiv.
  pose proof (Nat.div_mod_eq (a + b - 1) b) as E.
  pose proof (Nat.mod_upper_bound (a + b - 1) b Hb) as U. nia.
Qed.

Lemma cdiv_lower (a b : nat) :
  b <> 0%nat -> a <> 0%nat -> ((cdiv a b - 1) * b < a)%nat.
Proof.
  intros Hb Ha. unfold cdiv.
  pose proof (Nat.div_mod_eq (a + b - 1) b) as E.
  pose proof (Nat.mod_upper_bound (a + b - 1) b Hb) as U. nia.
Qed.

Lemma heads_loop_inv (atts : list (list layer)) (cs : list tensor3) (i : nat)
      (outs : list tensor2) :
  MHASTP.heads_loop atts cs i = Ok outs ->
  forall j att, nth_error atts j = Some att ->
    exists c o, nth_error cs (i + j) = Some c /\
                MHASTP.head_forward att c = Ok o.
Proof.
  revert i outs. induction atts as [|a atts IH]; intros i outs E j att Hj.
  - destruct j; discriminate.
  - cbn [MHASTP.heads_loop] in E. unfold index in E.
    destruct (nth_error cs i) as [c|] eqn:Ec; cbn [bind] in E; [|discriminate].
    destruct (MHASTP.head_forward a c) as [o|e] eqn:Eo; cbn [bind] in E;
      [|discriminate].
    destruct (MHASTP.heads_loop atts cs (S i)) as [os|e] eqn:El;
      cbn [bind] in E; [|discriminate].
    destruct j as [|j]; simpl in Hj.
    + injection Hj as <-. exists c, o. rewrite Nat.add_0_r. auto.
    + destruct (IH (S i) os El j att Hj) as (c' & o' & Hc' & Ho').
      exists c', o'. split; [|exact Ho'].
      replace (i + S j)%nat with (S i + j)%nat by lia. exact Hc'.
Qed.

Lemma att_trans_first (layer_num d ds bottleneck_dim : nat)
      (w : nat -> nat -> nat -> R) (b : nat -> nat -> R) :
  (1 <= layer_num)%nat ->
  exists c rest,
    MHASTP.att_trans layer_num d ds bottleneck_dim w b = Conv c :: rest /\
    in_channels c = d.
Proof.
  intros HL. unfold MHASTP.att_trans.
  assert (H0 : MHASTP.channel_dims layer_num d ds bottleneck_dim 0 = d).
  { unfold MHASTP.channel_dims.
    destruct (0 =? layer_num)%nat eqn:E; [|reflexivity].
    apply Nat.eqb_eq in E. lia. }
  destruct (layer_num - 1)%nat as [|n] eqn:En.
  - cbn [seq flat_map app]. eexists. eexists. split; [reflexivity|].
    cbn [in_channels]. exact H0.
  - cbn [seq flat_map app]. eexists. eexists. split; [reflexivity|].
    cbn [in_channels]. exact H0.
Qed.

Lemma head_forward_inv (c : Conv1d) (rest : list layer) (chunk : tensor3)
      (o : tensor2) :
  MHASTP.head_forward (Conv c :: rest) chunk = Ok o ->
  t3_C chunk = in_channels c /\ (1 <= t3_T chunk)%nat.
Proof.
  unfold MHASTP.head_forward, MHASTP.head_attention.
  cbn [Sequential_forward layer_forward].
  destruct (Conv1d_forward c chunk) as [y|e] eqn:E; [|discriminate].
  intros _. apply Conv1d_forward_inv in E. tauto.
Qed.

(** An MHASTP returns a result only on an input of [in_dim] channels:
    there is no assertion on the channel count, but on any other count
    either a head finds no chunk or the first convolution of a head
    refuses its chunk. *)
Lemma MHASTP_forward_Ok_inv
      (in_dim layer_num head_num d_s bottleneck_dim : nat)
      (w : nat -> nat -> nat -> nat -> R) (b : nat -> nat -> nat -> R)
      (p : MHASTP.t) (x : tensor) (x3 : tensor3) (o : tensor2) :
  (1 <= layer_num)%nat ->
  MHASTP.init in_dim layer_num head_num d_s bottleneck_dim w b = Ok p ->
  to_rank3 x = Ok x3 -> MHASTP.forward p x = Ok o ->
  t3_C x3 = in_dim /\ (1 <= t3_T x3)%nat.
Proof.
  intros HL Hinit Hx E.
  destruct (MHASTP_init_inv _ _ _ _ _ _ _ HL p Hinit) as (HH & Hdiv & ->).
  set (d := (in_dim / head_num)%nat) in *.
  set (ds := if (1 <? d_s)%nat then d else 1%nat) in *.
  unfold MHASTP.forward in E. rewrite Hx in E.
  cbn [bind MHASTP.head_num MHASTP.heads_att_trans] in E.
  destruct (chunk1 x3 head_num) as [cs|e] eqn:Ec; cbn [bind] in E;
    [|discriminate].
  destruct (MHASTP.heads_loop _ cs 0) as [outs|e] eqn:El; cbn [bind] in E;
    [|discriminate].
  assert (Hhead : forall k, (k < head_num)%nat ->
            exists c, nth_error cs k = Some c /\
                      t3_C c = d /\ (1 <= t3_T c)%nat).
  { intros k Hk.
    destruct (heads_loop_inv _ cs 0 outs El k
                (MHASTP.att_trans layer_num d ds bottleneck_dim (w k) (b k)))
      as (c & oc & Hc & Ho).
    { rewrite nth_error_map, nth_error_seq by exact Hk. reflexivity. }
    destruct (att_trans_first layer_num d ds bottleneck_dim (w k) (b k) HL)
      as (cv & rest & Ea & Hin).
    rewrite Ea in Ho. apply head_forward_inv in Ho.
    exists c. split; [exact Hc|]. rewrite <- Hin. exact Ho. }
  destruct (Hhead 0%nat ltac:(lia)) as (c0 & Hc0 & HC0 & HT0).
  destruct (Hhead (head_num - 1)%nat ltac:(lia)) as (c1 & Hc1 & HC1 & _).
  unfold chunk1 in Ec.
  destruct (head_num =? 0)%nat eqn:E0; [discriminate|].
  destruct (cdiv (t3_C x3) head_num =? 0)%nat eqn:Es.
  - apply Nat.eqb_eq in Es. injection Ec as <-.
    apply nth_error_map_seq in Hc0. destruct Hc0 as [_ ->].
    simpl in HC0, HT0.
    pose proof (cdiv_upper (t3_C x3) head_num HH) as U. rewrite Es in U.
    split; [|exact HT0]. rewrite Hdiv, <- HC0. lia.
  - apply Nat.eqb_neq in Es. injection Ec as <-.
    set (s := cdiv (t3_C x3) head_num) in *.
    apply nth_error_map_seq in Hc0. destruct Hc0 as [_ ->].
    apply nth_error_map_seq in Hc1. destruct Hc1 as [_ ->].
    simpl in HC0, HC1, HT0.
    assert (HCne : t3_C x3 <> 0%nat).
    { intros H0. unfold s, cdiv in Es. rewrite H0 in Es. simpl in Es.
      rewrite Nat.div_small in Es by lia. congruence. }
    pose proof (cdiv_upper (t3_C x3) head_num HH) as U.
    pose proof (cdiv_lower (t3_C x3) head_num HH HCne) as L.
    fold s in U, L.
    split; [|exact HT0]. rewrite Hdiv.
    destruct (Nat.min_spec s (t3_C x3 - 0)) as [[_ M0]|[_ M0]];
      destruct (Nat.min_spec s (t3_C x3 - (head_num - 1) * s))
        as [[_ M1]|[_ M1]]; nia.
Qed.

(** MHASTP.forward fails with AssertionError on an input of rank other than
    3 and 4, returns a result on an input of [in_dim] channels and at least
    one frame, and raises on every other input. *)
Theorem MHASTP_forward_domain
        (in_dim layer_num head_num d_s bottleneck_dim : nat)
        (w : nat -> nat -> nat -> nat -> R) (b : nat -> nat -> nat -> R)
        (p : MHASTP.t) (x : tensor) :
  (1 <= layer_num)%nat ->
  MHASTP.init in_dim layer_num head_num d_s bottleneck_dim w b = Ok p ->
  match to_rank3 x with
  | Raise _ => MHASTP.forward p x = Raise AssertionError
  | Ok x3 =>
      if ((t3_C x3 =? in_dim) && (1 <=? t3_T x3))%nat
      then exists o, MHASTP.forward p x = Ok o /\
                     t2_B o = t3_B x3 /\ t2_D o = MHASTP.get_out_dim p
      else exists e, MHASTP.forward p x = Raise e
  end.
Proof.
  intros HL Hinit.
  destruct (to_rank3 x) as [x3|e] eqn:Hx.
  2:{ destruct x; try discriminate; reflexivity. }
  destruct ((t3_C x3 =? in_dim) && (1 <=? t3_T x3))%nat eqn:Hc.
  - apply andb_true_iff in Hc. destruct Hc as [HC HT].
    apply Nat.eqb_eq in HC. apply Nat.leb_le in HT.
    destruct (MHASTP_forward_ok in_dim layer_num head_num d_s bottleneck_dim
                w b p x x3 HL Hinit Hx HC HT)
      as (outs & o & _ & E & HB & HD & _).
    exists o. split; [exact E|]. split; [exact HB|].
    destruct (MHASTP_init_inv _ _ _ _ _ _ _ HL p Hinit) as (_ & _ & ->).
    rewrite HD. reflexivity.
  - destruct (MHASTP.forward p x) as [o|e] eqn:E; [|exists e; reflexivity].
    exfalso.
    destruct (MHASTP_forward_Ok_inv in_dim layer_num head_num d_s
                bottleneck_dim w b p x x3 o HL Hinit Hx E) as [HC HT].
    apply Nat.eqb_eq in HC. apply Nat.leb_le in HT.
    rewrite HC, HT in Hc. discriminate.
Qed.

Lemma MHASTP_forward_domain_witness :
  (1 <= 2)%nat /\
  MHASTP.init 8 2 2 1 3 wh0 bh0
  = Ok (MHASTP.mk 8 2 1
          (map (fun h => MHASTP.att_trans 2 4 1 3 (wh0 h) (bh0 h)) (seq 0 2)))
  /\
  (exists o,
     MHASTP.forward
       (MHASTP.mk 8 2 1
          (map (fun h => MHASTP.att_trans 2 4 1 3 (wh0 h) (bh0 h)) (seq 0 2)))
       (Rank3 (const3 1 8 3 1)) = Ok o /\
     t2_B o = 1%nat /\ t2_D o = 16%nat) /\
  (exists e,
     MHASTP.forward
       (MHASTP.mk 8 2 1
          (map (fun h => MHASTP.att_trans 2 4 1 3 (wh0 h) (bh0 h)) (seq 0 2)))
       (Rank3 (const3 1 7 3 1)) = Raise e).
Proof.
  assert (HL : (1 <= 2)%nat) by lia.
  split; [exact HL|]. split; [reflexivity|]. split.
  - exact (MHASTP_forward_domain 8 2 2 1 3 wh0 bh0 _ (Rank3 (const3 1 8 3 1))
                                 HL eq_refl).
  - exact (MHASTP_forward_domain 8 2 2 1 3 wh0 bh0 _ (Rank3 (const3 1 7 3 1))
                                 HL eq_refl).
Defined.

(** MQMHASTP.forward fails with AssertionError on an input of rank other
    than 3 and 4; with at least one query it returns a result exactly on the
    inputs of [in_dim] channels and at least one frame; with no query it
    raises RuntimeError (the concatenation of an empty list) on every input
    of rank 3 or 4. *)
Theorem MQMHASTP_forward_domain
        (in_dim layer_num query_num head_num d_s bottleneck_dim : nat)
        (w : nat -> nat -> nat -> nat -> nat -> R)
        (b : nat -> nat -> nat -> nat -> R)
        (p : MQMHASTP.t) (x : tensor) :
  (1 <= layer_num)%nat ->
  MQMHASTP.init in_dim layer_num query_num head_num d_s bottleneck_dim w b
  = Ok p ->
  match to_rank3 x with
  | Raise _ => MQMHASTP.forward p x = Raise AssertionError
  | Ok x3 =>
      if ((1 <=? query_num) && (t3_C x3 =? in_dim) && (1 <=? t3_T x3))%nat
      then exists o, MQMHASTP.forward p x = Ok o /\
                     t2_B o = t3_B x3 /\ t2_D o = MQMHASTP.get_out_dim p
      else exists e, MQMHASTP.forward p x = Raise e /\
                     (query_num = 0%nat -> e = RuntimeError)
  end.
Proof.
  intros HL Hinit.
  destruct (to_rank3 x) as [x3|e] eqn:Hx.
  2:{ destruct x; try discriminate; reflexivity. }
  destruct (MQMHASTP_init_inv _ _ _ _ _ _ _ _ p Hinit) as (EQ & EI & HF).
  destruct ((1 <=? query_num) && (t3_C x3 =? in_dim) && (1 <=? t3_T x3))%nat
    eqn:Hc.
  - apply andb_true_iff in Hc. destruct Hc as [Hc HT].
    apply andb_true_iff in Hc. destruct Hc as [HQ HC].
    apply Nat.leb_le in HQ. apply Nat.eqb_eq in HC. apply Nat.leb_le in HT.
    destruct (MQMHASTP_forward_ok in_dim layer_num query_num head_num d_s
                bottleneck_dim w b p x x3 HL HQ Hinit Hx HC HT)
      as (outs & o & _ & _ & E & HB & HD & _).
    exists o. split; [exact E|]. split; [exact HB|].
    unfold MQMHASTP.get_out_dim. rewrite HD, EQ, EI. reflexivity.
  - unfold MQMHASTP.forward. rewrite Hx. cbn [bind].
    destruct query_num as [|n].
    + inversion HF as [E1 E2|]. cbn [mapM bind cat_list].
      exists RuntimeError. auto.
    + cbn [seq] in HF.
      destruct (MQMHASTP.n_query p) as [|child cs]; [inversion HF|].
      apply Forall2_cons_iff in HF. destruct HF as [Hchild _].
      cbn [mapM].
      destruct (MHASTP.forward child (Rank3 x3)) as [o|e] eqn:E.
      * exfalso.
        destruct (MHASTP_forward_Ok_inv in_dim layer_num head_num d_s
                    bottleneck_dim (w 0%nat) (b 0%nat) child (Rank3 x3) x3 o
                    HL Hchild eq_refl E) as [HC HT].
        apply Nat.eqb_eq in HC. apply Nat.leb_le in HT.
        rewrite HC, HT in Hc. discriminate.
      * cbn [bind]. exists e. split; [reflexivity | discriminate].
Qed.

Lemma MQMHASTP_forward_domain_witness :
  (1 <= 2)%nat /\
  exists p,
    MQMHASTP.init 8 2 0 2 1 3 wq0 bq0 = Ok p /\
    exists e, MQMHASTP.forward p (Rank3 (const3 1 8 3 1)) = Raise e /\
              (0%nat = 0%nat -> e = RuntimeError).
Proof.
  assert (HL : (1 <= 2)%nat) by lia.
  split; [exact HL|].
  exists (MQMHASTP.mk [] 0 8). split; [reflexivity|].
  exact (MQMHASTP_forward_domain 8 2 0 2 1 3 wq0 bq0 (MQMHASTP.mk [] 0 8)
                                 (Rank3 (const3 1 8 3 1)) HL eq_refl).
Defined.

(** ** The weighted moments *)

Lemma rsum_plus (n : nat) (f g : nat -> R) :
  rsum n (fun t => f t + g t) = rsum n f + rsum n g.
Proof. induction n as [|n IH]; simpl; [lra|]. rewrite IH. lra. Qed.

Lemma rsum_le (n : nat) (f g : nat -> R) :
  (forall t, (t < n)%nat -> f t <= g t) -> rsum n f <= rsum n g.
Proof.
  induction n as [|n IH]; intros H; simpl; [lra|].
  assert (rsum n f <= rsum n g) by (apply IH; intros t Ht; apply H; lia).
  assert (f n <= g n) by (apply H; lia). lra.
Qed.

(** Under weights that sum to 1, the second moment minus the squared mean
    is the weighted sum of the squared deviations from the mean. *)
Lemma weighted_variance_identity (n : nat) (k x : nat -> R) :
  rsum n k = 1 ->
  let m := rsum n (fun t => k t * x t) in
  rsum n (fun t => k t * (x t * x t)) - m * m
  = rsum n (fun t => k t * ((x t - m) * (x t - m))).
Proof.
  intros Hk m.
  rewrite (rsum_ext n (fun t => k t * ((x t - m) * (x t - m)))
                    (fun t => k t * (x t * x t)
                              + (- (2 * m) * (k t * x t) + m * m * k t))).
  - rewrite rsum_plus, rsum_plus, !rsum_scal_l, Hk. fold m. lra.
  - intros t _. ring.
Qed.

Lemma weighted_mean_bounds (n : nat) (k x : nat -> R) (lo hi : R) :
  rsum n k = 1 -> (forall t, (t < n)%nat -> 0 <= k t) ->
  (forall t, (t < n)%nat -> lo <= x t <= hi) ->
  lo <= rsum n (fun t => k t * x t) <= hi.
Proof.
  intros Hk Hpos Hx. split.
  - replace lo with (rsum n (fun t => k t * lo))
      by (rewrite rsum_scal_r, Hk; lra).
    apply rsum_le. intros t Ht.
    apply Rmult_le_compat_l; [apply Hpos, Ht | apply Hx, Ht].
  - replace hi with (rsum n (fun t => k t * hi))
      by (rewrite rsum_scal_r, Hk; lra).
    apply rsum_le. intros t Ht.
    apply Rmult_le_compat_l; [apply Hpos, Ht | apply Hx, Ht].
Qed.

(** The weighted statistics of a real row under real weights that sum to 1 *)
Lemma wstats_real (floor : R) (alpha x : tensor3) (b c : nat)
      (k xr : nat -> R) :
  0 < floor ->
  (forall t, (t < t3_T x)%nat ->
     get3 alpha b (bidx (t3_C alpha) c) t = Fin (k t)) ->
  (forall t, (t < t3_T x)%nat -> get3 x b c t = Fin (xr t)) ->
  rsum (t3_T x) k = 1 ->
  let m := rsum (t3_T x) (fun t => k t * xr t) in
  let v := rsum (t3_T x) (fun t => k t * ((xr t - m) * (xr t - m))) in
  wmean alpha x b c = Fin m /\
  wstd floor alpha x b c = Fin (sqrt (Rmax v floor)).
Proof.
  intros Hfl Ha Hx Hk m v.
  assert (Em : wmean alpha x b c = Fin m).
  { unfold wmean. apply nsum_Fin. intros t Ht.
    rewrite (Ha t Ht), (Hx t Ht). reflexivity. }
  assert (Es : wsecond alpha x b c
               = Fin (rsum (t3_T x) (fun t => k t * (xr t * xr t)))).
  { unfold wsecond. apply nsum_Fin. intros t Ht.
    rewrite (Ha t Ht), (Hx t Ht). reflexivity. }
  split; [exact Em|].
  unfold wstd. rewrite Em, Es. cbn.
  pose proof (weighted_variance_identity (t3_T x) k xr Hk) as Hid.
  cbv zeta in Hid. fold m in Hid. fold v in Hid. rewrite Hid.
  destruct (Rlt_dec (Rmax v floor) 0) as [L|L]; [|reflexivity].
  pose proof (Rmax_r v floor). lra.
Qed.

(** The entries of the output of MHASTP: head [h] reads the channels
    [h*d .. h*d + d - 1] and writes the columns [h*2d .. h*2d + 2d - 1]. *)
Lemma MHASTP_forward_entries
      (in_dim layer_num head_num d_s bottleneck_dim : nat)
      (w : nat -> nat -> nat -> nat -> R) (b : nat -> nat -> nat -> R)
      (p : MHASTP.t) (x : tensor3) :
  let d := (in_dim / head_num)%nat in
  (1 <= layer_num)%nat ->
  MHASTP.init in_dim layer_num head_num d_s bottleneck_dim w b = Ok p ->
  t3_C x = in_dim -> (1 <= t3_T x)%nat ->
  exists o,
    MHASTP.forward p (Rank3 x) = Ok o /\
    forall h, (h < head_num)%nat ->
      exists att s,
        nth_error (MHASTP.heads_att_trans p) h = Some att /\
        MHASTP.head_attention att (narrow1 x (h * d) d)
        = Ok (softmax_dim2 s) /\
        t3_B s = t3_B x /\ t3_T s = t3_T x /\
        (t3_C s = d \/ t3_C s = 1%nat) /\
        (finite3 x -> finite3 s) /\
        forall i c, (i < t3_B x)%nat -> (c < d)%nat ->
          get2 o i (h * (d + d) + c)%nat
          = wmean (softmax_dim2 s) (narrow1 x (h * d) d) i c /\
          get2 o i (h * (d + d) + (d + c))%nat
          = wstd floor_astp (softmax_dim2 s) (narrow1 x (h * d) d) i c.
Proof.
  intros d HL Hinit HC HT.
  destruct (MHASTP_forward_ok in_dim layer_num head_num d_s bottleneck_dim
              w b p (Rank3 x) x HL Hinit eq_refl HC HT)
    as (outs & o & HF & Eo & _ & _ & Hg).
  fold d in HF, Hg.
  destruct (MHASTP_init_inv _ _ _ _ _ _ _ HL p Hinit) as (HH & Hdiv & Ep).
  fold d in Hdiv, Ep.
  exists o. split; [exact Eo|]. intros h Hh.
  set (ds := if (1 <? d_s)%nat then d else 1%nat) in *.
  set (att := MHASTP.att_trans layer_num d ds bottleneck_dim (w h) (b h)).
  set (chunk := narrow1 x (h * d) d).
  destruct (head_forward_ok in_dim layer_num head_num d_s bottleneck_dim w b
              HL h chunk)
    as (s & oh & E & HBs & HCs & HTs & Hf & Eoh & _ & _ & Hgh).
  { reflexivity. } { exact HT. }
  fold d in E, HCs, Eoh, Hgh. fold ds in E, HCs, Eoh. fold att in E, Eoh.
  assert (Hnth : nth_error outs h = Some oh).
  { assert (Hlen : length outs = head_num).
    { apply Forall2_length in HF. rewrite length_seq in HF. auto. }
    destruct (nth_error outs h) as [o'|] eqn:En.
    - destruct (Forall2_nth_error_r _ _ _ _ _ HF En) as (k & Hk & Ek).
      apply nth_error_seq_inv in Hk. destruct Hk as [_ ->]. simpl in Ek.
      change (MHASTP.head_forward att chunk = Ok o') in Ek. congruence.
    - apply nth_error_None in En. lia. }
  exists att, s. split.
  { rewrite Ep. cbn [MHASTP.heads_att_trans].
    rewrite nth_error_map, nth_error_seq by exact Hh. reflexivity. }
  split; [exact E|]. split; [exact HBs|]. split; [exact HTs|]. split.
  { rewrite HCs. unfold ds. destruct (1 <? d_s)%nat; auto. }
  split.
  { intros Hfin. apply Hf. intros i' c' t' Hi' Hc' Ht'. simpl in *.
    apply Hfin; [exact Hi' | nia | exact Ht']. }
  intros i c Hi Hc.
  rewrite (Hg h oh Hnth i c) by lia.
  rewrite (Hg h oh Hnth i (d + c)%nat) by lia.
  apply (Hgh i c Hi Hc).
Qed.

(** On a real-valued input of [in_dim] channels (with two frames at least
    when there is a global context), ASTP returns real numbers: in row
    (b, c) the mean of the frames under positive weights [k] that sum to 1,
    which lies between any two bounds of the frames, and in row
    (b, in_dim + c) the square root of the weighted variance
    [sum_t k t * (x t - mean)^2], which is not negative, raised to the floor
    1e-7; so no standard deviation is below sqrt(1e-7). *)
Theorem ASTP_output_statistics (in_dim bottleneck_dim : nat) (gca : bool)
        (w1 : nat -> nat -> R) (b1 : nat -> R)
        (w2 : nat -> nat -> R) (b2 : nat -> R) (x : tensor3) :
  let p := ASTP.init in_dim bottleneck_dim gca w1 b1 w2 b2 in
  t3_C x = in_dim -> (1 <= t3_T x)%nat -> finite3 x ->
  gca = false \/ (2 <= t3_T x)%nat ->
  exists alpha o,
    ASTP.attention p x = Ok alpha /\ ASTP.forward p (Rank3 x) = Ok o /\
    forall i c, (i < t3_B x)%nat -> (c < in_dim)%nat ->
      exists k : nat -> R,
        (forall t, (t < t3_T x)%nat ->
           get3 alpha i c t = Fin (k t) /\ 0 < k t) /\
        rsum (t3_T x) k = 1 /\
        let xr t := val (get3 x i c t) in
        let m := rsum (t3_T x) (fun t => k t * xr t) in
        let v := rsum (t3_T x) (fun t => k t * ((xr t - m) * (xr t - m))) in
        get2 o i c = Fin m /\
        get2 o i (in_dim + c)%nat = Fin (sqrt (Rmax v floor_astp)) /\
        0 <= v /\ sqrt floor_astp <= sqrt (Rmax v floor_astp) /\
        forall lo hi, (forall t, (t < t3_T x)%nat -> lo <= xr t <= hi) ->
                      lo <= m <= hi.
Proof.
  intros p HC HT Hfin Hcond.
  destruct (ASTP_forward_ok in_dim bottleneck_dim gca w1 b1 w2 b2 (Rank3 x) x
              eq_refl HC HT)
    as (s & o & E & HBs & HCs & HTs & Hf & Eo & _ & _ & Hg).
  exists (softmax_dim2 s), o. split; [exact E|]. split; [exact Eo|].
  intros i c Hi Hc.
  assert (Hs : finite3 s) by (apply Hf; assumption).
  set (k := softmax_R (t3_T x) (fun t => val (get3 s i c t))).
  assert (Hk : forall t, (t < t3_T x)%nat ->
                 get3 (softmax_dim2 s) i c t = Fin (k t)).
  { intros t Ht. rewrite softmax_dim2_get.
    - unfold k. rewrite HTs. reflexivity.
    - intros t' Ht'. apply Hs; congruence.
    - congruence. }
  assert (Hpos : forall t, 0 < k t).
  { intros t. apply softmax_R_pos. lia. }
  assert (Hsum : rsum (t3_T x) k = 1) by (apply softmax_R_sum; lia).
  exists k. split; [intros t Ht; split; [apply Hk, Ht | apply Hpos]|].
  split; [exact Hsum|]. intros xr m v.
  destruct (wstats_real floor_astp (softmax_dim2 s) x i c k xr)
    as [Em Es].
  { unfold floor_astp. lra. }
  { intros t Ht. change (t3_C (softmax_dim2 s)) with (t3_C s).
    rewrite HCs, bidx_lt by exact Hc. apply Hk, Ht. }
  { intros t Ht. apply fin_val, Hfin; [exact Hi | lia | exact Ht]. }
  { exact Hsum. }
  destruct (Hg i c Hi Hc) as [G1 G2]. rewrite G1, G2.
  split; [exact Em|]. split; [exact Es|]. split.
  { apply rsum_nonneg. intros t _.
    apply Rmult_le_pos; [apply Rlt_le, Hpos | apply Rle_0_sqr]. }
  split.
  { apply sqrt_le_1_alt. apply Rmax_r. }
  intros lo hi Hb. apply weighted_mean_bounds; [exact Hsum | | exact Hb].
  intros t _. apply Rlt_le, Hpos.
Qed.

Lemma ASTP_output_statistics_witness :
  t3_C ramp3 = 8%nat /\ (1 <= t3_T ramp3)%nat /\ finite3 ramp3 /\
  exists alpha o,
    ASTP.attention (ASTP.init 8 4 true w0 b0 w0 b0) ramp3 = Ok alpha /\
    ASTP.forward (ASTP.init 8 4 true w0 b0 w0 b0) (Rank3 ramp3) = Ok o /\
    exists k : nat -> R,
      rsum 5 k = 1 /\
      get2 o 1 3
      = Fin (rsum 5 (fun t => k t * val (get3 ramp3 1 3 t))) /\
      0 <= rsum 5 (fun t => k t * val (get3 ramp3 1 3 t)) <= 100.
Proof.
  assert (Hfin : finite3 ramp3) by (intros i c t _ _ _; exact I).
  assert (HT : (1 <= t3_T ramp3)%nat) by (simpl; lia).
  split; [reflexivity|]. split; [exact HT|]. split; [exact Hfin|].
  destruct (ASTP_output_statistics 8 4 true w0 b0 w0 b0 ramp3 eq_refl HT Hfin)
    as (alpha & o & E & Eo & G).
  { right. simpl. lia. }
  destruct (G 1%nat 3%nat) as (k & _ & Hsum & Hm & _ & _ & _ & Hb);
    [simpl; lia | lia |].
  exists alpha, o. split; [exact E|]. split; [exact Eo|].
  exists k. split; [exact Hsum|]. split; [exact Hm|].
  apply Hb. intros t Ht. simpl in Ht. simpl.
  assert (0 <= INR t <= 4).
  { split; [apply pos_INR|]. replace 4 with (INR 4) by (simpl; lra).
    apply le_INR. lia. }
  lra.
Defined.

(** The same for every head of MHASTP: on a real-valued input of [in_dim]
    channels the columns of head [h] hold, for each of its [d] channels, the
    mean of the frames under positive weights that sum to 1 and the square
    root of the weighted variance raised to 1e-7. *)
Theorem MHASTP_output_statistics
        (in_dim layer_num head_num d_s bottleneck_dim : nat)
        (w : nat -> nat -> nat -> nat -> R) (b : nat -> nat -> nat -> R)
        (p : MHASTP.t) (x : tensor3) :
  let d := (in_dim / head_num)%nat in
  (1 <= layer_num)%nat ->
  MHASTP.init in_dim layer_num head_num d_s bottleneck_dim w b = Ok p ->
  t3_C x = in_dim -> (1 <= t3_T x)%nat -> finite3 x ->
  exists o,
    MHASTP.forward p (Rank3 x) = Ok o /\
    forall h i c, (h < head_num)%nat -> (i < t3_B x)%nat -> (c < d)%nat ->
      exists k : nat -> R,
        (forall t, (t < t3_T x)%nat -> 0 < k t) /\
        rsum (t3_T x) k = 1 /\
        let xr t := val (get3 x i (h * d + c)%nat t) in
        let m := rsum (t3_T x) (fun t => k t * xr t) in
        let v := rsum (t3_T x) (fun t => k t * ((xr t - m) * (xr t - m))) in
        get2 o i (h * (d + d) + c)%nat = Fin m /\
        get2 o i (h * (d + d) + (d + c))%nat
        = Fin (sqrt (Rmax v floor_astp)) /\
        0 <= v /\ sqrt floor_astp <= sqrt (Rmax v floor_astp) /\
        forall lo hi, (forall t, (t < t3_T x)%nat -> lo <= xr t <= hi) ->
                      lo <= m <= hi.
Proof.
  intros d HL Hinit HC HT Hfin.
  destruct (MHASTP_forward_entries in_dim layer_num head_num d_s
              bottleneck_dim w b p x HL Hinit HC HT) as (o & Eo & G).
  fold d in G. exists o. split; [exact Eo|].
  destruct (MHASTP_init_inv _ _ _ _ _ _ _ HL p Hinit) as (_ & Hdiv & _).
  fold d in Hdiv.
  intros h i c Hh Hi Hc.
  destruct (G h Hh) as (att & s & _ & _ & HBs & HTs & HCs & Hf & Hg).
  assert (Hs : finite3 s) by (apply Hf, Hfin).
  assert (Hidx : (bidx (t3_C s) c < t3_C s)%nat).
  { apply (bidx_bound _ d); assumption. }
  set (k := softmax_R (t3_T x)
                      (fun t => val (get3 s i (bidx (t3_C s) c) t))).
  assert (Hk : forall t, (t < t3_T x)%nat ->
                 get3 (softmax_dim2 s) i (bidx (t3_C s) c) t = Fin (k t)).
  { intros t Ht. rewrite softmax_dim2_get.
    - unfold k. rewrite HTs. reflexivity.
    - intros t' Ht'. apply Hs; [congruence | exact Hidx | exact Ht'].
    - congruence. }
  assert (Hpos : forall t, 0 < k t).
  { intros t. apply softmax_R_pos. lia. }
  assert (Hsum : rsum (t3_T x) k = 1) by (apply softmax_R_sum; lia).
  exists k. split; [intros t _; apply Hpos|].
  split; [exact Hsum|]. intros xr m v.
  destruct (wstats_real floor_astp (softmax_dim2 s)
                        (narrow1 x (h * d) d) i c k xr) as [Em Es].
  { unfold floor_astp. lra. }
  { intros t Ht. apply Hk, Ht. }
  { intros t Ht. simpl. apply fin_val, Hfin; [exact Hi | nia | exact Ht]. }
  { exact Hsum. }
  destruct (Hg i c Hi Hc) as [G1 G2]. rewrite G1, G2.
  split; [exact Em|]. split; [exact Es|]. split.
  { apply rsum_nonneg. intros t _.
    apply Rmult_le_pos; [apply Rlt_le, Hpos | apply Rle_0_sqr]. }
  split.
  { apply sqrt_le_1_alt. apply Rmax_r. }
  intros lo hi Hb. apply weighted_mean_bounds; [exact Hsum | | exact Hb].
  intros t _. apply Rlt_le, Hpos.
Qed.

Lemma ramp3_finite : finite3 ramp3.
Proof. intros i c t _ _ _. exact I. Qed.

Lemma MHASTP_output_statistics_witness :
  (1 <= 2)%nat /\ t3_C ramp3 = 8%nat /\ (1 <= t3_T ramp3)%nat /\
  finite3 ramp3 /\
  exists o r,
    MHASTP.forward
      (MHASTP.mk 8 2 1
         (map (fun h => MHASTP.att_trans 2 4 1 3 (wh0 h) (bh0 h)) (seq 0 2)))
      (Rank3 ramp3) = Ok o /\
    get2 o 1 (1 * (4 + 4) + (4 + 2)) = Fin r /\ sqrt floor_astp <= r.
Proof.
  assert (HL : (1 <= 2)%nat) by lia.
  assert (HT : (1 <= t3_T ramp3)%nat) by (simpl; lia).
  split; [exact HL|]. split; [reflexivity|]. split; [exact HT|].
  split; [exact ramp3_finite|].
  destruct (MHASTP_output_statistics 8 2 2 1 3 wh0 bh0
              (MHASTP.mk 8 2 1
                 (map (fun h => MHASTP.att_trans 2 4 1 3 (wh0 h) (bh0 h))
                      (seq 0 2)))
              ramp3 HL eq_refl eq_refl HT ramp3_finite) as (o & Eo & G).
  destruct (G 1%nat 1%nat 2%nat) as (k & _ & _ & _ & Hs & _ & Hfl & _);
    [lia | simpl; lia | simpl; lia |].
  exists o. eexists. split; [exact Eo|]. split; [exact Hs | exact Hfl].
Defined.



(** ** The poolers without a scorer *)

Lemma rsum_const (n : nat) (c : R) : rsum n (fun _ => c) = INR n * c.
Proof.
  induction n as [|n IH]; [simpl; lra|].
  cbn [rsum]. rewrite IH, S_INR. lra.
Qed.

Lemma rsum_zero_terms (n : nat) (f : nat -> R) :
  (forall t, (t < n)%nat -> 0 <= f t) -> rsum n f = 0 ->
  forall t, (t < n)%nat -> f t = 0.
Proof.
  induction n as [|n IH]; intros Hpos Hsum t Ht; [lia|].
  cbn [rsum] in Hsum.
  assert (H1 : 0 <= rsum n f).
  { apply rsum_nonneg. intros i Hi. apply Hpos. lia. }
  assert (H2 : 0 <= f n) by (apply Hpos; lia).
  destruct (Nat.eq_dec t n) as [->|Hne]; [lra|].
  apply IH; [intros i Hi; apply Hpos; lia | lra | lia].
Qed.

Lemma row_mean_fin (T : nat) (f : nat -> num) :
  (1 <= T)%nat -> (forall t, (t < T)%nat -> is_fin (f t)) ->
  ndivn (nsum T f) T = Fin (rsum T (fun t => val (f t)) / INR T).
Proof.
  intros HT Hfin. rewrite (nsum_fin T f Hfin). apply ndivn_fin. lia.
Qed.

Lemma row_var_fin (T : nat) (f : nat -> num) :
  (2 <= T)%nat -> (forall t, (t < T)%nat -> is_fin (f t)) ->
  let m := rsum T (fun t => val (f t)) / INR T in
  ndivn (nsum T (fun t => npow2 (nsub (f t) (ndivn (nsum T f) T)))) (T - 1)
  = Fin (rsum T (fun t => (val (f t) - m) * (val (f t) - m)) / INR (T - 1)).
Proof.
  intros HT Hfin m. rewrite row_mean_fin by (assumption || lia). fold m.
  rewrite (nsum_Fin T _ (fun t => (val (f t) - m) * (val (f t) - m))).
  - apply ndivn_fin. lia.
  - intros t Ht. rewrite (fin_val _ (Hfin t Ht)). reflexivity.
Qed.

Lemma unbiased_var_nonneg (T : nat) (xr : nat -> R) (m : R) :
  0 <= rsum T (fun t => (xr t - m) * (xr t - m)) / INR (T - 1).
Proof.
  destruct (Nat.eq_dec (T - 1) 0) as [E|E].
  - rewrite E. cbn [INR]. unfold Rdiv. rewrite Rinv_0. lra.
  - apply Rmult_le_pos; [apply rsum_sq_nonneg|].
    apply Rlt_le, Rinv_0_lt_compat, lt_0_INR. lia.
Qed.

Lemma sqrt_eps_fin (v : R) :
  0 <= v -> sqrt_eps (Fin v) = Fin (sqrt (v + eps_std)).
Proof.
  intros Hv. unfold sqrt_eps. cbn.
  destruct (Rlt_dec (v + eps_std) 0) as [L|L]; [|reflexivity].
  unfold eps_std in L. lra.
Qed.

Lemma TSTP_forward3_ok (p : TSTP.t) (x : tensor3) :
  exists o,
    TSTP.forward3 p x = Ok o /\
    t2_B o = t3_B x /\ t2_D o = (t3_C x + t3_C x)%nat /\
    forall b c, (c < t3_C x)%nat ->
      get2 o b c = get2 (mean_last3 x) b c /\
      get2 o b (t3_C x + c)%nat = get2 (tmap2 sqrt_eps (var_last3 x)) b c.
Proof.
  unfold TSTP.forward3, cat2_dim1. cbn [mean_last3 tmap2 var_last3 t2_B t2_D].
  rewrite Nat.eqb_refl.
  eexists. split; [reflexivity|]. cbn [t2_B t2_D get2].
  split; [reflexivity|]. split; [reflexivity|].
  intros b c Hc.
  assert (Hlt : (c <? t3_C x)%nat = true) by (apply Nat.ltb_lt; exact Hc).
  assert (Hge : (t3_C x + c <? t3_C x)%nat = false) by (apply Nat.ltb_ge; lia).
  rewrite Hlt, Hge. replace (t3_C x + c - t3_C x)%nat with c by lia.
  split; reflexivity.
Qed.

(** TSTP never raises on an input of rank 3, whatever [in_dim] is: its
    result has the shape (B, 2 F), the columns of TAP followed by the
    columns of TSDP.  With no frame every entry is NaN; with a single frame
    the mean is the frame and the standard deviation is NaN, the unbiased
    variance having the divisor T - 1 = 0. *)
Theorem TSTP_forward_total (p : TSTP.t) (x : tensor3) :
  exists o,
    TSTP.forward3 p x = Ok o /\
    t2_B o = t3_B x /\ t2_D o = (t3_C x + t3_C x)%nat /\
    forall b c, (c < t3_C x)%nat ->
      get2 o b c = get2 (TAP.forward3 (TAP.init (TSTP.in_dim p)) x) b c /\
      get2 o b (t3_C x + c)%nat
      = get2 (TSDP.forward3 (TSDP.init (TSTP.in_dim p)) x) b c /\
      (t3_T x = 0%nat ->
       get2 o b c = NaN /\ get2 o b (t3_C x + c)%nat = NaN) /\
      (t3_T x = 1%nat ->
       get2 o b c = get3 x b c 0 /\ get2 o b (t3_C x + c)%nat = NaN).
Proof.
  destruct (TSTP_forward3_ok p x) as (o & E & HB & HD & G).
  exists o. split; [exact E|]. split; [exact HB|]. split; [exact HD|].
  intros b c Hc. destruct (G b c Hc) as [-> ->].
  split; [reflexivity|]. split; [reflexivity|].
  unfold mean_last3, var_last3, tmap2. cbn [get2]. split.
  - intros ->. split; reflexivity.
  - intros ->. cbn [nsum Nat.sub]. split.
    + destruct (get3 x b c 0) as [a|]; [|reflexivity].
      cbn. f_equal. lra.
    + unfold sqrt_eps.
      destruct (nsub (get3 x b c 0) (ndivn (nadd (Fin 0) (get3 x b c 0)) 1));
        reflexivity.
Qed.

(** On a real-valued input with two frames at least, TSTP returns real
    numbers: in column [c] the arithmetic mean [m] of the frames, which lies
    between any two bounds of the frames, and in column [F + c] the square
    root of the unbiased variance plus 1e-7.  That standard deviation is
    sqrt(1e-7) exactly when all the frames of the row are equal, and above
    it otherwise. *)
Theorem TSTP_statistics (p : TSTP.t) (x : tensor3) :
  (2 <= t3_T x)%nat -> finite3 x ->
  exists o,
    TSTP.forward3 p x = Ok o /\
    forall b c, (b < t3_B x)%nat -> (c < t3_C x)%nat ->
      let xr t := val (get3 x b c t) in
      let m := rsum (t3_T x) xr / INR (t3_T x) in
      let v := rsum (t3_T x) (fun t => (xr t - m) * (xr t - m))
               / INR (t3_T x - 1) in
      get2 o b c = Fin m /\
      get2 o b (t3_C x + c)%nat = Fin (sqrt (v + eps_std)) /\
      (forall lo hi, (forall t, (t < t3_T x)%nat -> lo <= xr t <= hi) ->
                     lo <= m <= hi) /\
      sqrt eps_std <= sqrt (v + eps_std) /\
      (sqrt (v + eps_std) = sqrt eps_std <->
       forall t, (t < t3_T x)%nat -> xr t = xr 0%nat).
Proof.
  intros HT Hfin.
  destruct (TSTP_forward3_ok p x) as (o & E & _ & _ & G).
  exists o. split; [exact E|].
  intros b c Hb Hc xr m v. destruct (G b c Hc) as [-> ->].
  unfold mean_last3, var_last3, tmap2. cbn [get2].
  assert (Hrow : forall t, (t < t3_T x)%nat -> is_fin (get3 x b c t)).
  { intros t Ht. apply Hfin; assumption. }
  assert (HTpos : 0 < INR (t3_T x)) by (apply lt_0_INR; lia).
  assert (HT1pos : 0 < INR (t3_T x - 1)) by (apply lt_0_INR; lia).
  assert (Hv : 0 <= v) by apply unbiased_var_nonneg.
  split.
  { apply (row_mean_fin (t3_T x) (fun t => get3 x b c t)); [lia | exact Hrow]. }
  split.
  { rewrite (row_var_fin (t3_T x) (fun t => get3 x b c t) HT Hrow).
    apply sqrt_eps_fin. exact Hv. }
  split.
  { intros lo hi Hb'. unfold m.
    assert (H1 : rsum (t3_T x) (fun _ => lo) <= rsum (t3_T x) xr).
    { apply rsum_le. intros t Ht. apply Hb', Ht. }
    assert (H2 : rsum (t3_T x) xr <= rsum (t3_T x) (fun _ => hi)).
    { apply rsum_le. intros t Ht. apply Hb', Ht. }
    rewrite rsum_const in H1, H2. split.
    - apply Rmult_le_reg_r with (INR (t3_T x)); [exact HTpos|].
      unfold Rdiv. rewrite Rmult_assoc, Rinv_l by lra. lra.
    - apply Rmult_le_reg_r with (INR (t3_T x)); [exact HTpos|].
      unfold Rdiv. rewrite Rmult_assoc, Rinv_l by lra. lra. }
  split.
  { apply sqrt_le_1_alt. lra. }
  assert (Heps : 0 <= eps_std) by (unfold eps_std; lra).
  split.
  - intros Hs. apply sqrt_inj in Hs; [|lra|lra].
    assert (Hv0 : v = 0) by lra.
    assert (Hsum : rsum (t3_T x) (fun t => (xr t - m) * (xr t - m)) = 0).
    { unfold v in Hv0. unfold Rdiv in Hv0.
      apply Rmult_integral in Hv0. destruct Hv0 as [H0|H0]; [exact H0|].
      exfalso. apply (Rinv_neq_0_compat (INR (t3_T x - 1))); lra. }
    assert (Hall : forall t, (t < t3_T x)%nat -> xr t = m).
    { intros t Ht.
      pose proof (rsum_zero_terms (t3_T x)
                    (fun t => (xr t - m) * (xr t - m))
                    (fun i _ => Rle_0_sqr (xr i - m)) Hsum t Ht) as Hz.
      cbv beta in Hz. apply Rmult_integral in Hz. lra. }
    intros t Ht. rewrite (Hall t Ht), (Hall 0%nat) by lia. reflexivity.
  - intros Heq. f_equal.
    assert (Hm : m = xr 0%nat).
    { unfold m. rewrite (rsum_ext _ xr (fun _ => xr 0%nat) Heq).
      rewrite rsum_const. field. lra. }
    assert (Hsum : rsum (t3_T x) (fun t => (xr t - m) * (xr t - m)) = 0).
    { rewrite (rsum_ext _ _ (fun _ => 0)).
      - rewrite rsum_const. lra.
      - intros t Ht. rewrite (Heq t Ht), Hm. ring. }
    unfold v. rewrite Hsum. unfold Rdiv. lra.
Qed.

Lemma TSTP_statistics_witness :
  (2 <= t3_T ramp3)%nat /\ finite3 ramp3 /\
  exists o,
    TSTP.forward3 (TSTP.init 8) ramp3 = Ok o /\
    exists m : R, get2 o 1 3 = Fin m /\ 3 <= m <= 7.
Proof.
  assert (HT : (2 <= t3_T ramp3)%nat) by (simpl; lia).
  split; [exact HT|]. split; [exact ramp3_finite|].
  destruct (TSTP_statistics (TSTP.init 8) ramp3 HT ramp3_finite)
    as (o & E & G).
  destruct (G 1%nat 3%nat) as (Hm & _ & Hb & _); [simpl; lia | simpl; lia |].
  exists o. split; [exact E|]. eexists. split; [exact Hm|].
  apply Hb. intros t Ht. simpl in Ht. simpl.
  assert (0 <= INR t <= 4).
  { split; [apply pos_INR|]. replace 4 with (INR 4) by (simpl; lra).
    apply le_INR. lia. }
  lra.
Defined.

Lemma flat_index (F c f : nat) :
  (f < F)%nat -> ((c * F + f) / F = c /\ (c * F + f) mod F = f)%nat.
Proof.
  intros Hf. split.
  - symmetry. apply (Nat.div_unique (c * F + f) F c f); [exact Hf | lia].
  - symmetry. apply (Nat.mod_unique (c * F + f) F c f); [exact Hf | lia].
Qed.

(** On an input of rank 4 (B, C, F, T), TSTP reduces the time axis first and
    flattens afterwards, and never raises: column [c * F + f] of the result
    holds the mean over time of channel [c] at frequency [f], and column
    [C * F + c * F + f] the square root of its unbiased variance plus 1e-7.
    The result is the one TSTP gives on the input reshaped to
    (B, C * F, T), the reshape with which ASTP and MHASTP begin. *)
Theorem TSTP_rank4_columns (p : TSTP.t) (x : tensor4) :
  exists o o',
    TSTP.forward4 p x = Ok o /\
    TSTP.forward3 p (reshape43 x) = Ok o' /\
    t2_B o = t4_B x /\
    t2_D o = (t4_C x * t4_F x + t4_C x * t4_F x)%nat /\
    t2_B o' = t2_B o /\ t2_D o' = t2_D o /\
    (forall b k, get2 o b k = get2 o' b k) /\
    forall b c f, (c < t4_C x)%nat -> (f < t4_F x)%nat ->
      let m := ndivn (nsum (t4_T x) (fun t => get4 x b c f t)) (t4_T x) in
      get2 o b (c * t4_F x + f)%nat = m /\
      get2 o b (t4_C x * t4_F x + (c * t4_F x + f))%nat
      = sqrt_eps (ndivn (nsum (t4_T x)
                              (fun t => npow2 (nsub (get4 x b c f t) m)))
                        (t4_T x - 1)).
Proof.
  unfold TSTP.forward4, TSTP.forward3, cat2_dim1.
  cbn [flatten3 mean_last4 var_last4 mean_last3 var_last3 tmap2 tmap3
       reshape43 t2_B t2_D t3_B t3_C t3_T].
  rewrite !Nat.eqb_refl.
  do 2 eexists. split; [reflexivity|]. split; [reflexivity|].
  cbn [t2_B t2_D get2 get3].
  split; [reflexivity|]. split; [reflexivity|].
  split; [reflexivity|]. split; [reflexivity|].
  split; [intros b k; reflexivity|].
  intros b c f Hc Hf.
  destruct (flat_index (t4_F x) c f Hf) as [Ed Em].
  assert (Hlt : (c * t4_F x + f <? t4_C x * t4_F x)%nat = true).
  { apply Nat.ltb_lt. nia. }
  assert (Hge : (t4_C x * t4_F x + (c * t4_F x + f) <? t4_C x * t4_F x)%nat
                = false).
  { apply Nat.ltb_ge. lia. }
  rewrite Hlt, Hge.
  replace (t4_C x * t4_F x + (c * t4_F x + f) - t4_C x * t4_F x)%nat
    with (c * t4_F x + f)%nat by lia.
  unfold flatten3, mean_last4, var_last4, tmap3.
  cbn [get2 get3 t3_T]. rewrite Ed, Em. split; reflexivity.
Qed.

(** ** The order of the frames and the rows of the batch *)

Lemma nadd_comm (x y : num) : nadd x y = nadd y x.
Proof. destruct x, y; cbn; try reflexivity. f_equal. lra. Qed.

Lemma nadd_assoc (x y z : num) : nadd x (nadd y z) = nadd (nadd x y) z.
Proof. destruct x, y, z; cbn; try reflexivity. f_equal. lra. Qed.

Lemma nadd_0_l (x : num) : nadd (Fin 0) x = x.
Proof. destruct x; cbn; [f_equal; lra | reflexivity]. Qed.

Lemma nadd_0_r (x : num) : nadd x (Fin 0) = x.
Proof. rewrite nadd_comm. apply nadd_0_l. Qed.

Lemma fold_nadd_acc (l : list num) (a : num) :
  fold_right nadd a l = nadd (fold_right nadd (Fin 0) l) a.
Proof.
  induction l as [|x l IH]; cbn [fold_right].
  - symmetry. apply nadd_0_l.
  - rewrite IH. apply nadd_assoc.
Qed.

Lemma nsum_fold (n : nat) (f : nat -> num) :
  nsum n f = fold_right nadd (Fin 0) (map f (seq 0 n)).
Proof.
  induction n as [|n IH]; [reflexivity|].
  rewrite seq_S, map_app, fold_right_app. cbn [map fold_right Nat.add nsum].
  rewrite fold_nadd_acc, nadd_0_r, IH. reflexivity.
Qed.

Lemma fold_nadd_perm (l l' : list num) :
  Permutation l l' ->
  fold_right nadd (Fin 0) l = fold_right nadd (Fin 0) l'.
Proof.
  induction 1 as [|x l l' _ IH|x y l|l l' l'' _ IH1 _ IH2]; cbn [fold_right].
  - reflexivity.
  - rewrite IH. reflexivity.
  - rewrite !nadd_assoc, (nadd_comm y x). reflexivity.
  - rewrite IH1. exact IH2.
Qed.

Lemma seq_permutation (n : nat) (sigma : nat -> nat) :
  permutation_of n sigma -> Permutation (map sigma (seq 0 n)) (seq 0 n).
Proof.
  intros [Hr Hi]. apply NoDup_Permutation_bis.
  - apply Finite.Injective_map_NoDup_in; [|apply seq_NoDup].
    intros t u Ht Hu. apply in_seq in Ht, Hu. apply Hi; lia.
  - rewrite length_map. apply le_n.
  - intros u Hu. apply in_map_iff in Hu. destruct Hu as (t & <- & Ht).
    apply in_seq in Ht. apply in_seq. specialize (Hr t). lia.
Qed.

(** A sum over the frames does not depend on their order. *)
Lemma nsum_perm (n : nat) (sigma : nat -> nat) (f : nat -> num) :
  permutation_of n sigma -> nsum n (fun t => f (sigma t)) = nsum n f.
Proof.
  intros Hp. rewrite !nsum_fold.
  rewrite <- (map_map sigma f). apply fold_nadd_perm, Permutation_map.
  apply seq_permutation, Hp.
Qed.

Lemma permutation_of_id (n : nat) : permutation_of n (fun t => t).
Proof. split; auto. Qed.

Lemma reindexed_reindex (B : nat) (beta sigma : nat -> nat) (x : tensor3) :
  reindexed beta sigma (reindex B beta sigma x) x.
Proof. split; [reflexivity|]. split; [reflexivity|]. intros; reflexivity. Qed.

Lemma Conv1d_apply_reindexed (l : Conv1d) (beta sigma : nat -> nat)
      (y' y : tensor3) :
  t3_C y = in_channels l -> reindexed beta sigma y' y ->
  reindexed beta sigma (Conv1d_apply l y') (Conv1d_apply l y).
Proof.
  intros HC (HC' & HT' & Hg).
  split; [reflexivity|]. split; [exact HT'|].
  intros b c t Hb Hc Ht. cbn in Hb, Ht |- *. f_equal.
  apply nsum_ext. intros j Hj. rewrite Hg by (assumption || lia).
  reflexivity.
Qed.

Lemma tmap3_reindexed (f : num -> num) (beta sigma : nat -> nat)
      (y' y : tensor3) :
  reindexed beta sigma y' y ->
  reindexed beta sigma (tmap3 f y') (tmap3 f y).
Proof.
  intros (HC' & HT' & Hg).
  split; [exact HC'|]. split; [exact HT'|].
  intros b c t Hb Hc Ht. cbn in Hb, Hc, Ht |- *. rewrite Hg by assumption.
  reflexivity.
Qed.

Lemma softmax_reindexed (beta sigma : nat -> nat) (y' y : tensor3) :
  permutation_of (t3_T y) sigma -> reindexed beta sigma y' y ->
  reindexed beta sigma (softmax_dim2 y') (softmax_dim2 y).
Proof.
  intros Hp (HC' & HT' & Hg).
  split; [exact HC'|]. split; [exact HT'|].
  intros b c t Hb Hc Ht. cbn in Hb, Hc, Ht |- *.
  rewrite Hg by assumption. f_equal. rewrite HT'.
  rewrite <- (nsum_perm (t3_T y) sigma
                (fun s => nexp (get3 y (beta b) c s)) Hp).
  apply nsum_ext. intros s Hs. rewrite Hg by assumption. reflexivity.
Qed.

(** The weighted statistics of a row are those of the row it was taken
    from, whatever the order of the frames. *)
Lemma wstats_reindexed (floor : R) (beta sigma : nat -> nat)
      (alpha' alpha x' x : tensor3) (b c : nat) :
  permutation_of (t3_T x) sigma ->
  reindexed beta sigma alpha' alpha -> reindexed beta sigma x' x ->
  t3_T alpha = t3_T x ->
  (b < t3_B alpha')%nat -> (b < t3_B x')%nat ->
  (c < t3_C x)%nat -> (bidx (t3_C alpha) c < t3_C alpha)%nat ->
  wmean alpha' x' b c = wmean alpha x (beta b) c /\
  wstd floor alpha' x' b c = wstd floor alpha x (beta b) c.
Proof.
  intros Hp (HCa & HTa & Hga) (HCx & HTx & Hgx) HT Hba Hbx Hc Hca.
  assert (Em : wmean alpha' x' b c = wmean alpha x (beta b) c).
  { unfold wmean. rewrite HTx, HCa.
    rewrite <- (nsum_perm (t3_T x) sigma
                  (fun t => nmul (get3 alpha (beta b) (bidx (t3_C alpha) c) t)
                                 (get3 x (beta b) c t)) Hp).
    apply nsum_ext. intros t Ht.
    rewrite Hga, Hgx by (assumption || lia). reflexivity. }
  assert (Es : wsecond alpha' x' b c = wsecond alpha x (beta b) c).
  { unfold wsecond. rewrite HTx, HCa.
    rewrite <- (nsum_perm (t3_T x) sigma
                  (fun t => nmul (get3 alpha (beta b) (bidx (t3_C alpha) c) t)
                                 (npow2 (get3 x (beta b) c t))) Hp).
    apply nsum_ext. intros t Ht.
    rewrite Hga, Hgx by (assumption || lia). reflexivity. }
  split; [exact Em|]. unfold wstd. rewrite Em, Es. reflexivity.
Qed.

Lemma ASTP_scorer_input_reindexed (p : ASTP.t) (beta sigma : nat -> nat)
      (x' x : tensor3) :
  permutation_of (t3_T x) sigma ->
  (forall b, (b < t3_B x')%nat -> (beta b < t3_B x)%nat) ->
  reindexed beta sigma x' x ->
  exists y' y,
    ASTP.scorer_input p x' = Ok y' /\ ASTP.scorer_input p x = Ok y /\
    t3_B y' = t3_B x' /\ reindexed beta sigma y' y.
Proof.
  intros Hp Hbeta (HC & HT & Hg).
  unfold ASTP.scorer_input. destruct (ASTP.global_context_att p).
  2:{ exists x', x. repeat split; auto. }
  unfold cat_list, cat3_dim1. simpl. rewrite !Nat.eqb_refl. simpl.
  rewrite !Nat.eqb_refl. simpl.
  do 2 eexists. split; [reflexivity|]. split; [reflexivity|].
  split; [reflexivity|].
  split; [simpl; lia|]. split; [exact HT|].
  intros b c t Hb Hc Ht. simpl in Hb, Hc, Ht |- *.
  rewrite HC, HT.
  assert (Hrow : forall k (f : num -> num), (k < t3_C x)%nat ->
            nsum (t3_T x) (fun t0 => f (get3 x' b k t0))
            = nsum (t3_T x) (fun t0 => f (get3 x (beta b) k t0))).
  { intros k f Hk.
    rewrite <- (nsum_perm (t3_T x) sigma
                  (fun t0 => f (get3 x (beta b) k t0)) Hp).
    apply nsum_ext. intros t0 Ht0. rewrite Hg by assumption. reflexivity. }
  rewrite (bidx_lt _ _ Hb), (bidx_lt _ _ (Hbeta b Hb)).
  destruct (c <? t3_C x)%nat eqn:E1.
  { apply Nat.ltb_lt in E1. apply Hg; assumption. }
  apply Nat.ltb_ge in E1.
  destruct (c - t3_C x <? t3_C x)%nat eqn:E2.
  - apply Nat.ltb_lt in E2. rewrite (bidx_lt _ _ E2).
    rewrite (Hrow _ (fun v => v) E2). reflexivity.
  - apply Nat.ltb_ge in E2.
    assert (E3 : (c - t3_C x - t3_C x < t3_C x)%nat) by lia.
    rewrite (bidx_lt _ _ E3).
    rewrite (Hrow (c - t3_C x - t3_C x)%nat (fun v => v) E3).
    rewrite (Hrow (c - t3_C x - t3_C x)%nat
               (fun v => npow2 (nsub v
                  (ndivn (nsum (t3_T x)
                            (fun t1 => get3 x (beta b)
                                         (c - t3_C x - t3_C x) t1))
                         (t3_T x)))) E3).
    reflexivity.
Qed.

Lemma ASTP_attention_reindexed (in_dim bottleneck_dim : nat) (gca : bool)
      (w1 : nat -> nat -> R) (b1 : nat -> R)
      (w2 : nat -> nat -> R) (b2 : nat -> R)
      (beta sigma : nat -> nat) (x' x : tensor3) :
  let p := ASTP.init in_dim bottleneck_dim gca w1 b1 w2 b2 in
  t3_C x = in_dim -> (1 <= t3_T x)%nat ->
  permutation_of (t3_T x) sigma ->
  (forall b, (b < t3_B x')%nat -> (beta b < t3_B x)%nat) ->
  reindexed beta sigma x' x ->
  exists a' a,
    ASTP.attention p x' = Ok a' /\ ASTP.attention p x = Ok a /\
    t3_B a' = t3_B x' /\ t3_B a = t3_B x /\ t3_C a = in_dim /\
    t3_T a = t3_T x /\ reindexed beta sigma a' a.
Proof.
  intros p HC HT Hp Hbeta Hre.
  destruct (ASTP_scorer_input_reindexed p beta sigma x' x Hp Hbeta Hre)
    as (y' & y & E' & E & HB' & Hy).
  destruct (ASTP_scorer_input_ok in_dim bottleneck_dim gca w1 b1 w2 b2 x HC)
    as (x_in & Ein & HBy & HTy & HCy & _).
  fold p in Ein, HCy. rewrite E in Ein. injection Ein as <-.
  destruct Hy as (HCy' & HTy' & Hgy).
  assert (Hl2 : in_channels (ASTP.linear2 p) = out_channels (ASTP.linear1 p)).
  { unfold p, ASTP.init. simpl. destruct gca; reflexivity. }
  assert (Ho2 : out_channels (ASTP.linear2 p) = in_dim) by reflexivity.
  unfold ASTP.attention. rewrite E', E. cbn [bind].
  rewrite (Conv1d_forward_ok _ y') by (try lia; congruence).
  rewrite (Conv1d_forward_ok _ y) by (try lia; congruence).
  cbn [bind].
  rewrite (Conv1d_forward_ok (ASTP.linear2 p)
             (tmap3 ntanh (Conv1d_apply (ASTP.linear1 p) y')))
    by (cbn [tmap3 Conv1d_apply t3_C t3_T];
        first [symmetry; exact Hl2 | lia]).
  rewrite (Conv1d_forward_ok (ASTP.linear2 p)
             (tmap3 ntanh (Conv1d_apply (ASTP.linear1 p) y)))
    by (cbn [tmap3 Conv1d_apply t3_C t3_T];
        first [symmetry; exact Hl2 | lia]).
  cbn [bind]. do 2 eexists. split; [reflexivity|]. split; [reflexivity|].
  cbn [softmax_dim2 tmap3 Conv1d_apply t3_B t3_C t3_T].
  split; [exact HB'|]. split; [exact HBy|]. split; [exact Ho2|].
  split; [exact HTy|].
  change (reindexed beta sigma
            (softmax_dim2
               (Conv1d_apply (ASTP.linear2 p)
                  (tmap3 ntanh (Conv1d_apply (ASTP.linear1 p) y'))))
            (softmax_dim2
               (Conv1d_apply (ASTP.linear2 p)
                  (tmap3 ntanh (Conv1d_apply (ASTP.linear1 p) y))))).
  apply softmax_reindexed.
  { cbn [Conv1d_apply tmap3 t3_T]. rewrite HTy. exact Hp. }
  apply Conv1d_apply_reindexed; [symmetry; exact Hl2|].
  apply tmap3_reindexed.
  apply Conv1d_apply_reindexed; [exact HCy|].
  split; [exact HCy'|]. split; [exact HTy'|]. exact Hgy.
Qed.

(** ASTP on the rows [beta b] of a batch, with the frames in the order
    [sigma]: row [b] of the result is row [beta b] of the result on the
    batch itself. *)
Lemma ASTP_forward_reindex (in_dim bottleneck_dim : nat) (gca : bool)
      (w1 : nat -> nat -> R) (b1 : nat -> R)
      (w2 : nat -> nat -> R) (b2 : nat -> R)
      (B' : nat) (beta sigma : nat -> nat) (x : tensor3) :
  let p := ASTP.init in_dim bottleneck_dim gca w1 b1 w2 b2 in
  t3_C x = in_dim -> (1 <= t3_T x)%nat ->
  permutation_of (t3_T x) sigma ->
  (forall b, (b < B')%nat -> (beta b < t3_B x)%nat) ->
  exists o o',
    ASTP.forward p (Rank3 x) = Ok o /\
    ASTP.forward p (Rank3 (reindex B' beta sigma x)) = Ok o' /\
    t2_B o' = B' /\ t2_D o' = t2_D o /\
    forall b k, (b < B')%nat -> (k < in_dim + in_dim)%nat ->
      get2 o' b k = get2 o (beta b) k.
Proof.
  intros p HC HT Hp Hbeta.
  set (x' := reindex B' beta sigma x).
  assert (Hre : reindexed beta sigma x' x) by apply reindexed_reindex.
  destruct (ASTP_attention_reindexed in_dim bottleneck_dim gca w1 b1 w2 b2
              beta sigma x' x HC HT Hp Hbeta Hre)
    as (a' & a & E' & E & HBa' & HBa & HCa & HTa & Ha).
  fold p in E', E.
  destruct (weighted_stats_ok a x HBa HTa) as (o & Eo & HBo & HDo & Hg).
  { left. congruence. }
  destruct Ha as (HCa' & HTa' & Hga).
  destruct (weighted_stats_ok a' x') as (o' & Eo' & HBo' & HDo' & Hg').
  { exact HBa'. } { rewrite HTa'. exact HTa. }
  { left. rewrite HCa', HCa. symmetry. exact HC. }
  exists o, o'.
  split. { unfold ASTP.forward. cbn [to_rank3 bind]. rewrite E. exact Eo. }
  split. { unfold ASTP.forward. cbn [to_rank3 bind]. fold x'. rewrite E'.
           exact Eo'. }
  split; [exact HBo'|]. split; [rewrite HDo', HDo; reflexivity|].
  intros b k Hb Hk.
  assert (Hst : forall c, (c < in_dim)%nat ->
            wmean a' x' b c = wmean a x (beta b) c /\
            wstd floor_astp a' x' b c = wstd floor_astp a x (beta b) c).
  { intros c Hc. apply (wstats_reindexed floor_astp beta sigma a' a x' x b c).
    - exact Hp.
    - split; [exact HCa'|]. split; [exact HTa'|]. exact Hga.
    - exact Hre.
    - exact HTa.
    - rewrite HBa'. exact Hb.
    - exact Hb.
    - lia.
    - rewrite bidx_lt; lia. }
  change (t3_C x') with (t3_C x) in Hg'. change (t3_B x') with B' in Hg'.
  destruct (Nat.lt_ge_cases k in_dim) as [Hlt|Hge].
  - destruct (Hg' b k Hb ltac:(lia)) as [-> _].
    destruct (Hg (beta b) k (Hbeta b Hb) ltac:(lia)) as [-> _].
    apply Hst, Hlt.
  - replace k with (t3_C x + (k - in_dim))%nat by lia.
    destruct (Hg' b (k - in_dim)%nat Hb ltac:(lia)) as [_ ->].
    destruct (Hg (beta b) (k - in_dim)%nat (Hbeta b Hb) ltac:(lia)) as [_ ->].
    apply Hst. lia.
Qed.

(** The result of ASTP does not depend on the order of the frames: on a
    valid input, with the frames permuted along the time axis in the same
    way for every row and channel, forward returns the same entries. *)
Theorem ASTP_time_permutation (in_dim bottleneck_dim : nat) (gca : bool)
        (w1 : nat -> nat -> R) (b1 : nat -> R)
        (w2 : nat -> nat -> R) (b2 : nat -> R)
        (sigma : nat -> nat) (x : tensor3) :
  let p := ASTP.init in_dim bottleneck_dim gca w1 b1 w2 b2 in
  t3_C x = in_dim -> (1 <= t3_T x)%nat ->
  permutation_of (t3_T x) sigma ->
  exists o o',
    ASTP.forward p (Rank3 x) = Ok o /\
    ASTP.forward p (Rank3 (reindex (t3_B x) (fun b => b) sigma x)) = Ok o' /\
    t2_B o' = t2_B o /\ t2_D o' = t2_D o /\
    forall b k, (b < t2_B o)%nat -> (k < t2_D o)%nat ->
      get2 o' b k = get2 o b k.
Proof.
  intros p HC HT Hp.
  destruct (ASTP_forward_reindex in_dim bottleneck_dim gca w1 b1 w2 b2
              (t3_B x) (fun b => b) sigma x HC HT Hp (fun b Hb => Hb))
    as (o & o' & E & E' & HB' & HD' & Hg).
  destruct (ASTP_forward_ok in_dim bottleneck_dim gca w1 b1 w2 b2 (Rank3 x) x
              eq_refl HC HT)
    as (s & o1 & _ & _ & _ & _ & _ & E1 & HB1 & HD1 & _).
  fold p in E, E', E1. rewrite E in E1. injection E1 as <-.
  exists o, o'. split; [exact E|]. split; [exact E'|].
  split; [congruence|]. split; [exact HD'|].
  intros b k Hb Hk. apply Hg; lia.
Qed.

Lemma ASTP_time_permutation_witness :
  t3_C ramp3 = 8%nat /\ (1 <= t3_T ramp3)%nat /\
  permutation_of (t3_T ramp3) (fun t => (4 - t)%nat) /\
  exists o o',
    ASTP.forward (ASTP.init 8 4 true w0 b0 w0 b0) (Rank3 ramp3) = Ok o /\
    ASTP.forward (ASTP.init 8 4 true w0 b0 w0 b0)
                 (Rank3 (reindex 2 (fun b => b) (fun t => (4 - t)%nat) ramp3))
    = Ok o' /\
    t2_B o' = t2_B o /\ t2_D o' = t2_D o /\
    forall b k, (b < t2_B o)%nat -> (k < t2_D o)%nat ->
      get2 o' b k = get2 o b k.
Proof.
  assert (HT : (1 <= t3_T ramp3)%nat) by (simpl; lia).
  assert (Hp : permutation_of (t3_T ramp3) (fun t => (4 - t)%nat)).
  { unfold permutation_of. cbn [ramp3 t3_T]. split; intros; lia. }
  split; [reflexivity|]. split; [exact HT|]. split; [exact Hp|].
  exact (ASTP_time_permutation 8 4 true w0 b0 w0 b0 (fun t => (4 - t)%nat)
                               ramp3 eq_refl HT Hp).
Defined.

(** ASTP treats the rows of a batch one by one: on a valid input, the
    result for row [b] of the batch is the result ASTP gives on that row
    alone, as a batch of one. *)
Theorem ASTP_batch_independence (in_dim bottleneck_dim : nat) (gca : bool)
        (w1 : nat -> nat -> R) (b1 : nat -> R)
        (w2 : nat -> nat -> R) (b2 : nat -> R)
        (x : tensor3) (b : nat) :
  let p := ASTP.init in_dim bottleneck_dim gca w1 b1 w2 b2 in
  t3_C x = in_dim -> (1 <= t3_T x)%nat -> (b < t3_B x)%nat ->
  exists o o',
    ASTP.forward p (Rank3 x) = Ok o /\
    ASTP.forward p (Rank3 (reindex 1 (fun _ => b) (fun t => t) x)) = Ok o' /\
    t2_B o' = 1%nat /\ t2_D o' = t2_D o /\
    forall k, (k < t2_D o)%nat -> get2 o' 0 k = get2 o b k.
Proof.
  intros p HC HT Hb.
  destruct (ASTP_forward_reindex in_dim bottleneck_dim gca w1 b1 w2 b2
              1 (fun _ => b) (fun t => t) x HC HT
              (permutation_of_id (t3_T x)) (fun _ _ => Hb))
    as (o & o' & E & E' & HB' & HD' & Hg).
  destruct (ASTP_forward_ok in_dim bottleneck_dim gca w1 b1 w2 b2 (Rank3 x) x
              eq_refl HC HT)
    as (s & o1 & _ & _ & _ & _ & _ & E1 & HB1 & HD1 & _).
  fold p in E, E', E1. rewrite E in E1. injection E1 as <-.
  exists o, o'. split; [exact E|]. split; [exact E'|].
  split; [exact HB'|]. split; [exact HD'|].
  intros k Hk. apply (Hg 0%nat k); lia.
Qed.

Lemma ASTP_batch_independence_witness :
  t3_C ramp3 = 8%nat /\ (1 <= t3_T ramp3)%nat /\ (1 < t3_B ramp3)%nat /\
  exists o o',
    ASTP.forward (ASTP.init 8 4 true w0 b0 w0 b0) (Rank3 ramp3) = Ok o /\
    ASTP.forward (ASTP.init 8 4 true w0 b0 w0 b0)
                 (Rank3 (reindex 1 (fun _ => 1%nat) (fun t => t) ramp3))
    = Ok o' /\
    t2_B o' = 1%nat /\ t2_D o' = t2_D o /\
    forall k, (k < t2_D o)%nat -> get2 o' 0 k = get2 o 1 k.
Proof.
  assert (HT : (1 <= t3_T ramp3)%nat) by (simpl; lia).
  assert (Hb : (1 < t3_B ramp3)%nat) by (simpl; lia).
  split; [reflexivity|]. split; [exact HT|]. split; [exact Hb|].
  exact (ASTP_batch_independence 8 4 true w0 b0 w0 b0 ramp3 1 eq_refl HT Hb).
Defined.

(** ** ASP *)

Lemma BatchNorm1d_forward_ok (l : BatchNorm1d) (x : tensor3) :
  0 < bn_eps l -> t3_C x = num_features l ->
  (1 <= t3_B x * t3_T x)%nat ->
  (training l = true -> (t3_B x * t3_T x)%nat <> 1%nat) ->
  exists l' y,
    BatchNorm1d_forward l x = (l', Ok y) /\
    t3_B y = t3_B x /\ t3_C y = t3_C x /\ t3_T y = t3_T x /\
    num_batches_tracked l'
    = (if training l then S (num_batches_tracked l)
       else num_batches_tracked l) /\
    (training l = false -> l' = l) /\
    (finite3 x -> training l = true \/ bn_stats_ok l -> finite3 y).
Proof.
  intros Heps HC Hn H1.
  unfold BatchNorm1d_forward. rewrite HC, Nat.eqb_refl. cbn [negb].
  destruct (training l) eqn:Etr.
  - destruct (t3_B x * t3_T x =? 1)%nat eqn:E1.
    { apply Nat.eqb_eq in E1. exfalso. apply H1; auto. }
    destruct (t3_B x * t3_T x =? 0)%nat eqn:E0.
    { apply Nat.eqb_eq in E0. lia. }
    do 2 eexists. split; [reflexivity|].
    split; [reflexivity|]. split; [exact HC|]. split; [reflexivity|].
    split; [reflexivity|]. split; [discriminate|].
    intros Hfin _. apply bn_normalize_finite; [exact Heps | | exact Hfin].
    intros k Hk. apply batch_stats_fin; [|lia].
    intros i t Hi Ht. apply Hfin; assumption.
  - do 2 eexists. split; [reflexivity|].
    split; [reflexivity|]. split; [exact HC|]. split; [reflexivity|].
    split; [reflexivity|]. split; [reflexivity|].
    intros Hfin [Hd|Hok]; [discriminate|].
    apply bn_normalize_finite; [exact Heps | | exact Hfin].
    intros k Hk. apply Hok. rewrite <- HC. exact Hk.
Qed.

Lemma ASP_set_bn_same (p : ASP.t) : ASP.set_bn p (ASP.bn p) = p.
Proof. destruct p; reflexivity. Qed.

Lemma ASP_init_wf (in_planes acoustic_dim : nat)
      (w1 : nat -> nat -> R) (b1 : nat -> R)
      (w2 : nat -> nat -> R) (b2 : nat -> R) :
  ASP_wf (ASP.init in_planes acoustic_dim w1 b1 w2 b2).
Proof.
  unfold ASP_wf, ASP.init.
  cbn [ASP.conv1 ASP.conv2 ASP.bn ASP.out_dim in_channels out_channels
       BatchNorm1d_init num_features bn_eps].
  repeat (split; [reflexivity|]). lra.
Qed.

(** The attention weights of ASP on an input of the channels its first
    convolution expects, with at least one frame and one row, and more than
    one value per channel in training mode *)
Lemma ASP_attention_ok (p : ASP.t) (x : tensor3) :
  ASP_wf p -> t3_C x = in_channels (ASP.conv1 p) ->
  (1 <= t3_B x * t3_T x)%nat ->
  (training (ASP.bn p) = true -> (t3_B x * t3_T x)%nat <> 1%nat) ->
  exists l s,
    ASP.attention p x = (ASP.set_bn p l, Ok (softmax_dim2 s)) /\
    t3_B s = t3_B x /\ t3_C s = t3_C x /\ t3_T s = t3_T x /\
    num_batches_tracked l
    = (if training (ASP.bn p) then S (num_batches_tracked (ASP.bn p))
       else num_batches_tracked (ASP.bn p)) /\
    (training (ASP.bn p) = false -> l = ASP.bn p) /\
    (finite3 x -> training (ASP.bn p) = true \/ bn_stats_ok (ASP.bn p) ->
     finite3 s).
Proof.
  intros (W1 & W2 & W3 & W4 & Heps) HC Hn H1.
  assert (HT : (1 <= t3_T x)%nat) by nia.
  unfold ASP.attention. rewrite (Conv1d_forward_ok _ x HC HT).
  set (h := tmap3 relu (Conv1d_apply (ASP.conv1 p) x)).
  destruct (BatchNorm1d_forward_ok (ASP.bn p) h Heps)
    as (l & y & E & HBy & HCy & HTy & Hnb & Hev & Hfy).
  { exact W1. } { exact Hn. } { exact H1. }
  rewrite E. cbn [bind].
  rewrite (Conv1d_forward_ok (ASP.conv2 p) y)
    by (first [rewrite HCy; cbn [h tmap3 Conv1d_apply t3_C]; congruence
              | rewrite HTy; exact HT]).
  cbn [bind]. exists l. eexists. split; [reflexivity|].
  cbn [Conv1d_apply t3_B t3_C t3_T].
  split; [exact HBy|]. split; [congruence|]. split; [exact HTy|].
  split; [exact Hnb|]. split; [exact Hev|].
  intros Hfin Hst. apply Conv1d_apply_finite.
  - rewrite HCy. cbn [h tmap3 Conv1d_apply t3_C]. congruence.
  - apply Hfy; [|exact Hst].
    apply (tmap3_finite (fun a => Rmax 0 a)).
    apply Conv1d_apply_finite; [exact HC | exact Hfin].
Qed.

(** The entries of [ASP.stats] for weights of the shape of the input *)
Lemma ASP_stats_ok (x w : tensor3) :
  t3_B w = t3_B x -> t3_C w = t3_C x -> t3_T w = t3_T x ->
  (1 <= t3_B x)%nat ->
  exists o,
    ASP.stats x w = Ok o /\
    t2_B o = t3_B x /\ t2_D o = (t3_C x + t3_C x)%nat /\
    forall b c, (b < t3_B x)%nat -> (c < t3_C x)%nat ->
      let mu := nsum (t3_T x) (fun t => nmul (get3 x b c t) (get3 w b c t)) in
      get2 o b c = mu /\
      get2 o b (t3_C x + c)%nat
      = nsqrt (clamp_min floor_asp
                 (nsub (nsum (t3_T x)
                             (fun t => nmul (npow2 (get3 x b c t))
                                            (get3 w b c t)))
                       (npow2 mu))).
Proof.
  intros HB HC HT HB1.
  destruct w as [Bw Cw Tw gw], x as [Bx Cx Tx gx]. simpl in *. subst Bw Cw Tw.
  unfold ASP.stats, bin3, bin2. simpl.
  rewrite !bdim_refl. simpl. rewrite !bdim_refl. simpl.
  unfold cat2_dim1. simpl. rewrite Nat.eqb_refl. simpl.
  unfold ASP.view_rows. simpl.
  destruct (Bx =? 0)%nat eqn:E0; [apply Nat.eqb_eq in E0; lia|].
  eexists. split; [reflexivity|]. simpl.
  split; [reflexivity|]. split; [reflexivity|].
  intros b c Hb Hc.
  assert (Hlt : (c <? Cx)%nat = true) by (apply Nat.ltb_lt; exact Hc).
  assert (Hge : (Cx + c <? Cx)%nat = false) by (apply Nat.ltb_ge; lia).
  rewrite Hlt, Hge.
  replace (Cx + c - Cx)%nat with c by lia.
  rewrite !(bidx_lt Bx b Hb), !(bidx_lt Cx c Hc).
  assert (E1 : nsum Tx (fun t => nmul (gx b c (bidx Tx t))
                                     (gw b c (bidx Tx t)))
               = nsum Tx (fun t => nmul (gx b c t) (gw b c t))).
  { apply nsum_ext. intros t Ht. rewrite (bidx_lt Tx t Ht). reflexivity. }
  assert (E2 : nsum Tx (fun t => nmul (npow2 (gx b c (bidx Tx t)))
                                     (gw b c (bidx Tx t)))
               = nsum Tx (fun t => nmul (npow2 (gx b c t)) (gw b c t))).
  { apply nsum_ext. intros t Ht. rewrite (bidx_lt Tx t Ht). reflexivity. }
  rewrite E1, E2. split; reflexivity.
Qed.

(** ASP.forward on an input of rank 4, for a module as [__init__] builds
    it: the reshape fails with RuntimeError on an input with no row or no
    frame, the first convolution fails with RuntimeError unless the merged
    channels C * F are the [in_planes * 8 * int(acoustic_dim / 8)] it
    expects, and in training mode the batch normalisation fails with
    ValueError on a single row of a single frame, which it has counted by
    then.  Every other input gives a result of shape (B, out_dim); the
    module has then counted one more batch in training mode and is
    unchanged in evaluation mode. *)
Theorem ASP_forward_domain (p : ASP.t) (x : tensor4) :
  ASP_wf p ->
  if (t4_B x * t4_T x =? 0)%nat
  then ASP.forward4 p x = (p, Raise RuntimeError)
  else if negb (t4_C x * t4_F x =? in_channels (ASP.conv1 p))%nat
  then ASP.forward4 p x = (p, Raise RuntimeError)
  else if training (ASP.bn p) && (t4_B x * t4_T x =? 1)%nat
  then ASP.forward4 p x
       = (ASP.set_bn p (bn_track (ASP.bn p)), Raise ValueError)
  else exists l o,
         ASP.forward4 p x = (ASP.set_bn p l, Ok o) /\
         t2_B o = t4_B x /\ t2_D o = ASP.out_dim p /\
         num_batches_tracked l
         = (if training (ASP.bn p) then S (num_batches_tracked (ASP.bn p))
            else num_batches_tracked (ASP.bn p)) /\
         (training (ASP.bn p) = false -> l = ASP.bn p).
Proof.
  intros Hwf. unfold ASP.forward4, ASP.reshape4.
  destruct (t4_B x * t4_T x =? 0)%nat eqn:E0; [reflexivity|].
  apply Nat.eqb_neq in E0.
  assert (HT : (1 <= t4_T x)%nat) by nia.
  destruct (negb (t4_C x * t4_F x =? in_channels (ASP.conv1 p))%nat) eqn:EC.
  { unfold ASP.pool, ASP.attention, Conv1d_forward.
    cbn [reshape43 t3_C t3_T].
    apply negb_true_iff in EC. rewrite EC. reflexivity. }
  apply negb_false_iff, Nat.eqb_eq in EC.
  destruct (training (ASP.bn p) && (t4_B x * t4_T x =? 1)%nat) eqn:EV.
  - apply andb_true_iff in EV. destruct EV as [Etr E1].
    destruct Hwf as (W1 & _).
    unfold ASP.pool, ASP.attention.
    rewrite (Conv1d_forward_ok _ (reshape43 x) EC HT).
    unfold BatchNorm1d_forward. rewrite Etr.
    cbn [tmap3 Conv1d_apply reshape43 t3_B t3_C t3_T]. rewrite E1.
    reflexivity.
  - assert (H1 : training (ASP.bn p) = true ->
                 (t4_B x * t4_T x)%nat <> 1%nat).
    { intros Htr Hn. rewrite Htr in EV. cbn [andb] in EV.
      apply Nat.eqb_neq in EV. contradiction. }
    destruct (ASP_attention_ok p (reshape43 x) Hwf EC)
      as (l & s & E & HBs & HCs & HTs & Hnb & Hev & _).
    { cbn [reshape43 t3_B t3_T]. lia. } { exact H1. }
    destruct (ASP_stats_ok (reshape43 x) (softmax_dim2 s))
      as (o & Eo & HBo & HDo & _).
    { exact HBs. } { exact HCs. } { exact HTs. }
    { cbn [reshape43 t3_B]. nia. }
    exists l, o. split.
    { unfold ASP.pool. rewrite E. cbn [bind]. rewrite Eo. reflexivity. }
    split; [exact HBo|]. split; [|split; [exact Hnb | exact Hev]].
    destruct Hwf as (_ & _ & _ & W4 & _).
    rewrite HDo, W4, <- EC. cbn [reshape43 t3_C]. lia.
Qed.

Lemma ASP_forward_domain_witness :
  ASP_wf (ASP.init 1 8 w0 b0 w0 b0) /\
  ASP.forward4 (ASP.init 1 8 w0 b0 w0 b0) (const4 1 8 1 1 5)
  = (ASP.set_bn (ASP.init 1 8 w0 b0 w0 b0)
                (bn_track (ASP.bn (ASP.init 1 8 w0 b0 w0 b0))),
     Raise ValueError).
Proof.
  split; [apply ASP_init_wf|].
  exact (ASP_forward_domain (ASP.init 1 8 w0 b0 w0 b0) (const4 1 8 1 1 5)
                            (ASP_init_wf 1 8 w0 b0 w0 b0)).
Defined.



(** ** ASTP with a constant score *)

(** When the weights of the second convolution of ASTP are all zero, the
    score of a channel is its bias at every frame and the attention is
    uniform: on a valid real-valued input the mean columns of ASTP are the
    columns of TAP, and the standard deviation is the square root of the
    biased variance (divisor T) raised to the floor 1e-7, where TSDP and
    TSTP take the unbiased variance plus 1e-7. *)
Theorem ASTP_uniform_attention (in_dim bottleneck_dim : nat) (gca : bool)
        (w1 : nat -> nat -> R) (b1 b2 : nat -> R) (x : tensor3) :
  let p := ASTP.init in_dim bottleneck_dim gca w1 b1 (fun _ _ => 0) b2 in
  t3_C x = in_dim -> (1 <= t3_T x)%nat -> finite3 x ->
  gca = false \/ (2 <= t3_T x)%nat ->
  exists o,
    ASTP.forward p (Rank3 x) = Ok o /\
    forall i c, (i < t3_B x)%nat -> (c < in_dim)%nat ->
      let xr t := val (get3 x i c t) in
      let m := rsum (t3_T x) xr / INR (t3_T x) in
      let v := rsum (t3_T x) (fun t => (xr t - m) * (xr t - m))
               / INR (t3_T x) in
      get2 o i c = Fin m /\
      get2 o i c = get2 (TAP.forward3 (TAP.init in_dim) x) i c /\
      get2 o i (in_dim + c)%nat = Fin (sqrt (Rmax v floor_astp)).
Proof.
  intros p HC HT Hfin Hcond.
  destruct (ASTP_forward_ok in_dim bottleneck_dim gca w1 b1 (fun _ _ => 0) b2
              (Rank3 x) x eq_refl HC HT)
    as (s & o & E & HBs & HCs & HTs & _ & Eo & _ & _ & Hg).
  fold p in E, Eo.
  destruct (ASTP_scorer_input_ok in_dim bottleneck_dim gca w1 b1
              (fun _ _ => 0) b2 x HC)
    as (x_in & Ein & HBi & HTi & HCi & Hfi).
  fold p in Ein, HCi.
  assert (Hl2 : in_channels (ASTP.linear2 p) = out_channels (ASTP.linear1 p)).
  { unfold p, ASTP.init. simpl. destruct gca; reflexivity. }
  set (h := tmap3 ntanh (Conv1d_apply (ASTP.linear1 p) x_in)).
  assert (Hh : finite3 h).
  { apply (tmap3_finite tanh). apply Conv1d_apply_finite; [exact HCi|].
    apply Hfi; assumption. }
  assert (Ea : ASTP.attention p x
               = Ok (softmax_dim2 (Conv1d_apply (ASTP.linear2 p) h))).
  { unfold ASTP.attention. rewrite Ein. cbn [bind].
    rewrite (Conv1d_forward_ok _ x_in HCi) by lia. cbn [bind]. fold h.
    rewrite (Conv1d_forward_ok (ASTP.linear2 p) h)
      by (cbn [h tmap3 Conv1d_apply t3_C t3_T];
          first [symmetry; exact Hl2 | lia]).
    reflexivity. }
  assert (Es : softmax_dim2 (Conv1d_apply (ASTP.linear2 p) h)
               = softmax_dim2 s) by congruence.
  exists o. split; [exact Eo|]. intros i c Hi Hc xr m v.
  assert (HTpos : 0 < INR (t3_T x)) by (apply lt_0_INR; lia).
  assert (Hscore : forall t, (t < t3_T x)%nat ->
            get3 (Conv1d_apply (ASTP.linear2 p) h) i c t = Fin (b2 c)).
  { intros t Ht. cbn [Conv1d_apply get3].
    rewrite (nsum_Fin _ _ (fun j => 0 * val (get3 h i j t))).
    - rewrite rsum_scal_l. cbn. f_equal.
      unfold p, ASTP.init. cbn. lra.
    - intros j Hj.
      assert (Hf : is_fin (get3 h i j t)).
      { apply Hh; cbn [h tmap3 Conv1d_apply t3_B t3_C t3_T];
          [congruence | lia | congruence]. }
      rewrite (fin_val _ Hf). reflexivity. }
  set (k := fun _ : nat => / INR (t3_T x)).
  assert (Hk : forall t, (t < t3_T x)%nat ->
                 get3 (softmax_dim2 s) i c t = Fin (k t)).
  { assert (HTh : t3_T (Conv1d_apply (ASTP.linear2 p) h) = t3_T x)
      by exact HTi.
    intros t Ht. rewrite <- Es. rewrite softmax_dim2_get.
    - rewrite HTh. f_equal. unfold softmax_R.
      rewrite (rsum_ext _ _ (fun _ => exp (b2 c))).
      + rewrite rsum_const, (Hscore t Ht). unfold k. cbn [val]. field. split.
        * lra.
        * apply Rgt_not_eq, exp_pos.
      + intros u Hu. rewrite (Hscore u Hu). reflexivity.
    - intros u Hu. rewrite HTh in Hu.
      rewrite (Hscore u Hu). exact I.
    - rewrite HTh. exact Ht. }
  assert (Hsum : rsum (t3_T x) k = 1).
  { unfold k. rewrite rsum_const. field. lra. }
  destruct (wstats_real floor_astp (softmax_dim2 s) x i c k xr)
    as [Em Es'].
  { unfold floor_astp. lra. }
  { intros t Ht. change (t3_C (softmax_dim2 s)) with (t3_C s).
    rewrite HCs, bidx_lt by exact Hc. apply Hk, Ht. }
  { intros t Ht. apply fin_val, Hfin; [exact Hi | lia | exact Ht]. }
  { exact Hsum. }
  assert (Hm : rsum (t3_T x) (fun t => k t * xr t) = m).
  { unfold k, m. rewrite rsum_scal_l. unfold Rdiv. apply Rmult_comm. }
  rewrite Hm in Em, Es'.
  assert (Hv : rsum (t3_T x) (fun t => k t * ((xr t - m) * (xr t - m))) = v).
  { unfold k, v. rewrite rsum_scal_l. unfold Rdiv. apply Rmult_comm. }
  rewrite Hv in Es'.
  destruct (Hg i c Hi Hc) as [G1 G2]. rewrite G1, G2.
  split; [exact Em|]. split; [|exact Es'].
  rewrite Em. cbn [TAP.forward3 mean_last3 get2]. symmetry.
  apply (row_mean_fin (t3_T x) (fun t => get3 x i c t) HT).
  intros t Ht. apply Hfin; [exact Hi | lia | exact Ht].
Qed.

Lemma ASTP_uniform_attention_witness :
  t3_C ramp3 = 8%nat /\ (1 <= t3_T ramp3)%nat /\ finite3 ramp3 /\
  exists o,
    ASTP.forward (ASTP.init 8 4 true w0 b0 (fun _ _ => 0) b0) (Rank3 ramp3)
    = Ok o /\
    get2 o 1 3 = get2 (TAP.forward3 (TAP.init 8) ramp3) 1 3.
Proof.
  assert (HT : (1 <= t3_T ramp3)%nat) by (simpl; lia).
  split; [reflexivity|]. split; [exact HT|]. split; [exact ramp3_finite|].
  destruct (ASTP_uniform_attention 8 4 true w0 b0 b0 ramp3 eq_refl HT
              ramp3_finite) as (o & E & G).
  { right. simpl. lia. }
  destruct (G 1%nat 3%nat) as (_ & Hm & _); [simpl; lia | lia |].
  exists o. split; [exact E | exact Hm].
Defined.

(** ** The flag stddev of XI *)

Lemma XI_with_stddev_wf (q : XI.t) : XI_wf q -> XI_wf (XI_with_stddev q).
Proof.
  intros (W1 & W2 & W3 & W4 & _ & Heps). unfold XI_wf, XI_with_stddev.
  cbn [XI.lin1 XI.lin2 XI.bn XI.input_dim XI.output_dim XI.stddev].
  repeat (split; [assumption || reflexivity|]). exact Heps.
Qed.

(** The flag [stddev] of XI only appends columns: on a valid input, the
    module built with [stddev=True] returns, in its first [input_dim]
    channels, the posterior means that the module built with
    [stddev=False] from the same parameters and buffers returns, as a
    tensor of shape (B, 2 input_dim, 1) instead of (B, input_dim); both
    leave the batch normalisation in the same state. *)
Theorem XI_stddev_appends_columns (q : XI.t) (feat : tensor3) :
  XI_wf q -> XI.stddev q = false ->
  t3_C feat = XI.input_dim q -> (1 <= t3_T feat)%nat ->
  (training (XI.bn q) = true -> (t3_B feat * t3_T feat)%nat <> 1%nat) ->
  exists q' phi o,
    XI.forward q (Rank3 feat) = (q', Ok (Rank2 phi)) /\
    XI.forward (XI_with_stddev q) (Rank3 feat)
    = (XI_with_stddev q', Ok (Rank3 o)) /\
    shape (Rank2 phi) = [t3_B feat; XI.input_dim q] /\
    shape (Rank3 o) = [t3_B feat; (2 * XI.input_dim q)%nat; 1%nat] /\
    forall b c, (b < t3_B feat)%nat -> (c < XI.input_dim q)%nat ->
      get3 o b c 0 = get2 phi b c.
Proof.
  intros Hwf Hsd HC HT Hn.
  destruct (XI_forward_ok q feat Hwf HC HT Hn)
    as (l & h & lp & a & out & E1 & E2 & E & _ & _ & _ & _ & _
        & _ & _ & HTa & Hga & H0 & _).
  destruct (H0 Hsd) as (phi & -> & HBp & HDp & Hgp).
  destruct (XI_forward_ok (XI_with_stddev q) feat (XI_with_stddev_wf q Hwf)
              HC HT Hn)
    as (l2 & h2 & lp2 & a2 & out2 & E1' & E2' & E' & _ & _ & _ & _ & _
        & _ & _ & HTa2 & Hga2 & _ & H1).
  destruct (H1 eq_refl) as (o & -> & HBo & HCo & HTo & Hgo).
  change (XI.lin1_relu_bn (XI_with_stddev q) feat)
    with (XI.lin1_relu_bn q feat) in E1'.
  rewrite E1 in E1'. injection E1' as <- <-.
  change (XI.logprec_of (XI_with_stddev q) h)
    with (XI.logprec_of q h) in E2'.
  rewrite E2 in E2'. injection E2' as <-.
  exists (XI.set_bn q l), phi, o. split; [exact E|]. split; [exact E'|].
  split; [cbn [shape]; congruence|].
  split; [cbn [shape]; rewrite HBo, HCo, HTo, HC; do 2 f_equal; lia|].
  intros b c Hb Hc. rewrite <- HC in Hc.
  destruct (Hgo b c 0%nat Hb Hc) as [-> _].
  rewrite (Hgp b c Hb Hc).
  unfold XI_phi. apply nsum_ext. intros t Ht. f_equal.
  cbn [softmax_dim2 get3]. rewrite HTa, HTa2.
  rewrite (Hga b c t Hc), (Hga2 b c t Hc). f_equal.
  apply nsum_ext. intros u Hu.
  rewrite (Hga b c u Hc), (Hga2 b c u Hc). reflexivity.
Qed.

Lemma XI_stddev_appends_columns_witness :
  XI_wf (XI.init 1 1 false w0 b0 w0 b0) /\
  exists q' phi o,
    XI.forward (XI.init 1 1 false w0 b0 w0 b0) (Rank3 (const3 1 1 2 1))
    = (q', Ok (Rank2 phi)) /\
    XI.forward (XI.init 1 1 true w0 b0 w0 b0) (Rank3 (const3 1 1 2 1))
    = (XI_with_stddev q', Ok (Rank3 o)) /\
    get3 o 0 0 0 = get2 phi 0 0.
Proof.
  assert (W : XI_wf (XI.init 1 1 false w0 b0 w0 b0)) by apply XI_init_wf.
  split; [exact W|].
  destruct (XI_stddev_appends_columns (XI.init 1 1 false w0 b0 w0 b0)
              (const3 1 1 2 1) W eq_refl eq_refl)
    as (q' & phi & o & E & E' & _ & _ & G).
  { simpl. lia. }
  { simpl. intros _. discriminate. }
  exists q', phi, o. split; [exact E|]. split; [exact E'|].
  apply G; simpl; lia.
Defined.

(** ** The rows and the frames under MHASTP *)

Lemma Sequential_forward_reindexed (ls : list layer)
      (beta sigma : nat -> nat) (y' y z' z : tensor3) :
  reindexed beta sigma y' y ->
  Sequential_forward ls y' = Ok z' -> Sequential_forward ls y = Ok z ->
  reindexed beta sigma z' z /\ t3_T z = t3_T y.
Proof.
  revert y' y. induction ls as [|l ls IH]; intros y' y Hre E' E.
  - cbn in E', E. injection E' as <-. injection E as <-. auto.
  - cbn [Sequential_forward] in E', E.
    destruct (layer_forward l y') as [u'|e] eqn:El'; [|discriminate].
    destruct (layer_forward l y) as [u|e] eqn:El; [|discriminate].
    cbn [bind] in E', E.
    assert (Hu : reindexed beta sigma u' u /\ t3_T u = t3_T y).
    { destruct l as [c|]; cbn [layer_forward] in El', El.
      - apply Conv1d_forward_inv in El'. destruct El' as (_ & _ & ->).
        apply Conv1d_forward_inv in El. destruct El as (HC & _ & ->).
        split; [apply Conv1d_apply_reindexed; assumption | reflexivity].
      - injection El' as <-. injection El as <-.
        split; [apply tmap3_reindexed; assumption | reflexivity]. }
    destruct Hu as [Hu HTu].
    destruct (IH u' u Hu E' E) as [Hz HTz]. split; [exact Hz | congruence].
Qed.

Lemma head_attention_reindexed (att : list layer) (beta sigma : nat -> nat)
      (y' y a' a : tensor3) :
  permutation_of (t3_T y) sigma -> reindexed beta sigma y' y ->
  MHASTP.head_attention att y' = Ok a' ->
  MHASTP.head_attention att y = Ok a ->
  reindexed beta sigma a' a.
Proof.
  unfold MHASTP.head_attention. intros Hp Hre E' E.
  destruct (Sequential_forward att y') as [s'|e] eqn:Es'; [|discriminate].
  destruct (Sequential_forward att y) as [s|e] eqn:Es; [|discriminate].
  cbn [bind] in E', E. injection E' as <-. injection E as <-.
  destruct (Sequential_forward_reindexed att beta sigma y' y s' s Hre Es' Es)
    as [Hs HTs].
  apply softmax_reindexed; [rewrite HTs; exact Hp | exact Hs].
Qed.

(** MHASTP reads every row of the batch on its own and no frame by its
    position: for a valid input, the batch made of the rows [beta b] of the
    input, with the frames permuted by [sigma], gives in row [b] exactly
    row [beta b] of the result on the input.  So the result for an
    utterance does not depend on the other members of its batch, nor on the
    order of its frames. *)
Theorem MHASTP_rows_and_frames
        (in_dim layer_num head_num d_s bottleneck_dim : nat)
        (w : nat -> nat -> nat -> nat -> R) (b : nat -> nat -> nat -> R)
        (p : MHASTP.t) (B' : nat) (beta sigma : nat -> nat) (x : tensor3) :
  (1 <= layer_num)%nat ->
  MHASTP.init in_dim layer_num head_num d_s bottleneck_dim w b = Ok p ->
  t3_C x = in_dim -> (1 <= t3_T x)%nat ->
  permutation_of (t3_T x) sigma ->
  (forall i, (i < B')%nat -> (beta i < t3_B x)%nat) ->
  exists o o',
    MHASTP.forward p (Rank3 x) = Ok o /\
    MHASTP.forward p (Rank3 (reindex B' beta sigma x)) = Ok o' /\
    forall i k, (i < B')%nat -> (k < MHASTP.get_out_dim p)%nat ->
      get2 o' i k = get2 o (beta i) k.
Proof.
  intros HL Hinit HC HT Hp Hbeta.
  set (x' := reindex B' beta sigma x).
  set (d := (in_dim / head_num)%nat).
  destruct (MHASTP_forward_entries in_dim layer_num head_num d_s
              bottleneck_dim w b p x HL Hinit HC HT) as (o & Eo & G).
  destruct (MHASTP_forward_entries in_dim layer_num head_num d_s
              bottleneck_dim w b p x' HL Hinit HC HT) as (o' & Eo' & G').
  fold d in G, G'.
  destruct (MHASTP_init_inv _ _ _ _ _ _ _ HL p Hinit) as (HH & Hdiv & Ep).
  fold d in Hdiv.
  exists o, o'. split; [exact Eo|]. split; [exact Eo'|].
  intros i k Hi Hk.
  assert (Hk2 : (k < head_num * (d + d))%nat).
  { rewrite Ep in Hk. unfold MHASTP.get_out_dim in Hk.
    cbn [MHASTP.in_dim] in Hk. nia. }
  assert (Hd : (0 < d + d)%nat) by nia.
  set (h := (k / (d + d))%nat).
  set (r := (k mod (d + d))%nat).
  assert (Hh : (h < head_num)%nat).
  { apply Nat.Div0.div_lt_upper_bound. lia. }
  assert (Hr : (r < d + d)%nat) by (apply Nat.mod_upper_bound; lia).
  assert (Ek : k = (h * (d + d) + r)%nat).
  { unfold h, r. rewrite (Nat.div_mod_eq k (d + d)) at 1. lia. }
  destruct (G h Hh) as (att & s & Hnth & Ea & HBs & HTs & HCs & _ & Hg).
  destruct (G' h Hh) as (att' & s' & Hnth' & Ea' & HBs' & HTs' & HCs' & _
                         & Hg').
  rewrite Hnth in Hnth'. injection Hnth' as <-.
  set (chunk := narrow1 x (h * d) d) in *.
  set (chunk' := narrow1 x' (h * d) d) in *.
  assert (Hre : reindexed beta sigma chunk' chunk).
  { split; [reflexivity|]. split; [reflexivity|]. intros; reflexivity. }
  assert (Hatt : reindexed beta sigma (softmax_dim2 s') (softmax_dim2 s)).
  { apply (head_attention_reindexed att beta sigma chunk' chunk);
      [exact Hp | exact Hre | exact Ea' | exact Ea]. }
  assert (Hst : forall c, (c < d)%nat ->
            wmean (softmax_dim2 s') chunk' i c
            = wmean (softmax_dim2 s) chunk (beta i) c /\
            wstd floor_astp (softmax_dim2 s') chunk' i c
            = wstd floor_astp (softmax_dim2 s) chunk (beta i) c).
  { intros c Hc.
    apply (wstats_reindexed floor_astp beta sigma
             (softmax_dim2 s') (softmax_dim2 s) chunk' chunk i c).
    - exact Hp.
    - exact Hatt.
    - exact Hre.
    - exact HTs.
    - cbn [softmax_dim2 t3_B]. rewrite HBs'. exact Hi.
    - exact Hi.
    - exact Hc.
    - cbn [softmax_dim2 t3_C].
      destruct HCs as [->| ->]; [rewrite bidx_lt; lia|].
      unfold bidx. cbn. lia. }
  rewrite Ek.
  destruct (Nat.lt_ge_cases r d) as [Hlt|Hge].
  - destruct (Hg' i r Hi Hlt) as [-> _].
    destruct (Hg (beta i) r (Hbeta i Hi) Hlt) as [-> _].
    apply Hst, Hlt.
  - replace r with (d + (r - d))%nat by lia.
    destruct (Hg' i (r - d)%nat Hi ltac:(lia)) as [_ ->].
    destruct (Hg (beta i) (r - d)%nat (Hbeta i Hi) ltac:(lia)) as [_ ->].
    apply Hst. lia.
Qed.

Lemma MHASTP_rows_and_frames_witness :
  (1 <= 2)%nat /\ t3_C ramp3 = 8%nat /\ (1 <= t3_T ramp3)%nat /\
  permutation_of (t3_T ramp3) (fun t => (4 - t)%nat) /\
  exists o o',
    MHASTP.forward
      (MHASTP.mk 8 2 1
         (map (fun h => MHASTP.att_trans 2 4 1 3 (wh0 h) (bh0 h)) (seq 0 2)))
      (Rank3 ramp3) = Ok o /\
    MHASTP.forward
      (MHASTP.mk 8 2 1
         (map (fun h => MHASTP.att_trans 2 4 1 3 (wh0 h) (bh0 h)) (seq 0 2)))
      (Rank3 (reindex 1 (fun _ => 1%nat) (fun t => (4 - t)%nat) ramp3))
    = Ok o' /\
    get2 o' 0 13 = get2 o 1 13.
Proof.
  assert (HL : (1 <= 2)%nat) by lia.
  assert (HT : (1 <= t3_T ramp3)%nat) by (simpl; lia).
  assert (Hp : permutation_of (t3_T ramp3) (fun t => (4 - t)%nat)).
  { unfold permutation_of. cbn [ramp3 t3_T]. split; intros; lia. }
  split; [exact HL|]. split; [reflexivity|]. split; [exact HT|].
  split; [exact Hp|].
  destruct (MHASTP_rows_and_frames 8 2 2 1 3 wh0 bh0
              (MHASTP.mk 8 2 1
                 (map (fun h => MHASTP.att_trans 2 4 1 3 (wh0 h) (bh0 h))
                      (seq 0 2)))
              1 (fun _ => 1%nat) (fun t => (4 - t)%nat) ramp3
              HL eq_refl eq_refl HT Hp)
    as (o & o' & E & E' & G).
  { intros i _. simpl. lia. }
  exists o, o'. split; [exact E|]. split; [exact E'|].
  apply G; [lia | unfold MHASTP.get_out_dim; cbn [MHASTP.in_dim]; lia].
Defined.

(** ** The rows and the frames under XI *)

Lemma bn_normalize_reindexed (l : BatchNorm1d) (mean' var' mean var : nat -> num)
      (beta sigma : nat -> nat) (y' y : tensor3) :
  (forall k, (k < t3_C y)%nat -> mean' k = mean k /\ var' k = var k) ->
  reindexed beta sigma y' y ->
  reindexed beta sigma (bn_normalize l mean' var' y')
            (bn_normalize l mean var y).
Proof.
  intros Hst (HC & HT & Hg).
  split; [exact HC|]. split; [exact HT|].
  intros i k t Hi Hk Ht. cbn in Hi, Hk, Ht |- *.
  destruct (Hst k Hk) as [-> ->]. rewrite Hg by assumption. reflexivity.
Qed.

(** The statistics of a batch do not depend on the order of the frames. *)
Lemma batch_stats_reindexed (beta sigma : nat -> nat) (y' y : tensor3) :
  permutation_of (t3_T y) sigma -> reindexed beta sigma y' y ->
  t3_B y' = t3_B y -> (forall i, (i < t3_B y')%nat -> beta i = i) ->
  forall k, (k < t3_C y)%nat ->
    batch_mean y' k = batch_mean y k /\
    batch_var_biased y' k = batch_var_biased y k.
Proof.
  intros Hp (HC & HT & Hg) HB Hid k Hk.
  assert (Hrow : forall (f : num -> num) i, (i < t3_B y)%nat ->
            nsum (t3_T y) (fun t => f (get3 y' i k t))
            = nsum (t3_T y) (fun t => f (get3 y i k t))).
  { intros f i Hi.
    rewrite <- (nsum_perm (t3_T y) sigma (fun t => f (get3 y i k t)) Hp).
    apply nsum_ext. intros t Ht.
    rewrite Hg by (assumption || lia). rewrite Hid by lia. reflexivity. }
  assert (Em : batch_mean y' k = batch_mean y k).
  { unfold batch_mean. rewrite HB, HT. f_equal.
    apply nsum_ext. intros i Hi. apply (Hrow (fun v => v) i Hi). }
  split; [exact Em|].
  unfold batch_var_biased, batch_sqdev. rewrite Em, HB, HT. f_equal.
  apply nsum_ext. intros i Hi.
  apply (Hrow (fun v => npow2 (nsub v (batch_mean y k))) i Hi).
Qed.

Lemma BatchNorm1d_forward_reindexed (l : BatchNorm1d)
      (beta sigma : nat -> nat) (y' y z' z : tensor3) (l1' l1 : BatchNorm1d) :
  permutation_of (t3_T y) sigma -> reindexed beta sigma y' y ->
  (training l = true ->
   t3_B y' = t3_B y /\ forall i, (i < t3_B y')%nat -> beta i = i) ->
  BatchNorm1d_forward l y' = (l1', Ok z') ->
  BatchNorm1d_forward l y = (l1, Ok z) ->
  reindexed beta sigma z' z.
Proof.
  intros Hp Hre Htr E' E. pose proof Hre as (HC & HT & Hg).
  unfold BatchNorm1d_forward in E', E. rewrite HC, HT in E'.
  destruct (training l) eqn:Etr.
  - destruct (Htr eq_refl) as [HB Hid]. rewrite HB in E'. cbv zeta in E', E.
    destruct (t3_B y * t3_T y =? 1)%nat; [discriminate|].
    destruct (negb (t3_C y =? num_features l)%nat); [discriminate|].
    destruct (t3_B y * t3_T y =? 0)%nat.
    + assert (z' = y') by congruence. assert (z = y) by congruence.
      subst. exact Hre.
    + assert (Ez' : z' = bn_normalize l (batch_mean y')
                                      (batch_var_biased y') y')
        by congruence.
      assert (Ez : z = bn_normalize l (batch_mean y) (batch_var_biased y) y)
        by congruence.
      subst z' z. apply bn_normalize_reindexed; [|exact Hre].
      apply (batch_stats_reindexed beta sigma y' y Hp Hre HB Hid).
  - destruct (negb (t3_C y =? num_features l)%nat); [discriminate|].
    assert (Ez' : z' = bn_normalize l (running_mean l) (running_var l) y')
      by congruence.
    assert (Ez : z = bn_normalize l (running_mean l) (running_var l) y)
      by congruence.
    subst z' z. apply bn_normalize_reindexed; [|exact Hre].
    intros k _. auto.
Qed.

Lemma XI_aug_reindexed (beta sigma : nat -> nat) (y' y : tensor3)
      (f : nat -> R) (i c t : nat) :
  permutation_of (t3_T y) sigma -> reindexed beta sigma y' y ->
  (i < t3_B y')%nat -> (c < t3_C y)%nat ->
  XI_aug y' f i c t
  = XI_aug y f (beta i) c (if (t <? t3_T y)%nat then sigma t else t).
Proof.
  intros [Hr _] (HC & HT & Hg) Hi Hc. unfold XI_aug. rewrite HT.
  destruct (t <? t3_T y)%nat eqn:Et.
  - apply Nat.ltb_lt in Et.
    assert (Es : (sigma t <? t3_T y)%nat = true)
      by (apply Nat.ltb_lt, Hr, Et).
    rewrite Es. apply Hg; assumption.
  - rewrite Et. reflexivity.
Qed.

Lemma permutation_of_extend (n : nat) (sigma : nat -> nat) :
  permutation_of n sigma ->
  permutation_of (n + 1) (fun t => if (t <? n)%nat then sigma t else t).
Proof.
  intros [Hr Hi]. split.
  - intros t Ht. destruct (t <? n)%nat eqn:Et.
    + apply Nat.ltb_lt in Et. specialize (Hr t Et). lia.
    + exact Ht.
  - intros t u Ht Hu.
    destruct (Nat.ltb_spec t n) as [Et|Et];
      destruct (Nat.ltb_spec u n) as [Eu|Eu]; intros H.
    + apply Hi; assumption.
    + specialize (Hr t Et). lia.
    + specialize (Hr u Eu). lia.
    + exact H.
Qed.

(** XI does not read a frame by its position: on a valid input, permuting
    the frames leaves the result as it is, in training mode too, where the
    batch normalisation takes its statistics over all the frames of the
    batch.  In evaluation mode XI moreover reads every row of the batch on
    its own: the batch made of the rows [beta b] of the input gives in row
    [b] exactly row [beta b] of the result on the input. *)
Theorem XI_rows_and_frames (q : XI.t) (B' : nat) (beta sigma : nat -> nat)
        (x : tensor3) :
  XI_wf q -> t3_C x = XI.input_dim q -> (1 <= t3_T x)%nat ->
  permutation_of (t3_T x) sigma ->
  (forall i, (i < B')%nat -> (beta i < t3_B x)%nat) ->
  (training (XI.bn q) = true ->
   B' = t3_B x /\ (forall i, (i < B')%nat -> beta i = i) /\
   (t3_B x * t3_T x)%nat <> 1%nat) ->
  exists q1 out q1' out',
    XI.forward q (Rank3 x) = (q1, Ok out) /\
    XI.forward q (Rank3 (reindex B' beta sigma x)) = (q1', Ok out') /\
    forall i k, (i < B')%nat -> (k < XI.get_out_dim q)%nat ->
      out_entry out' i k = out_entry out (beta i) k.
Proof.
  intros Hwf HC HT Hp Hbeta Htr.
  set (x' := reindex B' beta sigma x).
  assert (Hre : reindexed beta sigma x' x) by apply reindexed_reindex.
  assert (Hn : training (XI.bn q) = true ->
               (t3_B x * t3_T x)%nat <> 1%nat).
  { intros H. apply (Htr H). }
  assert (Hn' : training (XI.bn q) = true ->
                (t3_B x' * t3_T x')%nat <> 1%nat).
  { intros H. destruct (Htr H) as (-> & _ & H1). exact H1. }
  destruct (XI_forward_ok q x Hwf HC HT Hn)
    as (l & h & lp & a & out & E1 & E2 & E & HBl & HCl & HTl & _ & _
        & HBa & HCa & HTa & Hga & H0 & H1).
  destruct (XI_forward_ok q x' Hwf HC HT Hn')
    as (l' & h' & lp' & a' & out' & E1' & E2' & E' & HBl' & HCl' & HTl' & _
        & _ & HBa' & HCa' & HTa' & Hga' & H0' & H1').
  change (t3_B x') with B' in *. change (t3_C x') with (t3_C x) in *.
  change (t3_T x') with (t3_T x) in *.
  pose proof Hwf as (W1 & W2 & W3 & W4 & W5 & Heps).
  (* the hidden layer *)
  assert (Hh : reindexed beta sigma h' h).
  { unfold XI.lin1_relu_bn in E1, E1'.
    rewrite (Conv1d_forward_ok _ x) in E1 by (try lia; congruence).
    rewrite (Conv1d_forward_ok _ x') in E1' by (try exact HT; cbn; congruence).
    apply (BatchNorm1d_forward_reindexed (XI.bn q) beta sigma
             (tmap3 relu (Conv1d_apply (XI.lin1 q) x'))
             (tmap3 relu (Conv1d_apply (XI.lin1 q) x)) h' h l' l);
      [exact Hp | | | exact E1' | exact E1].
    - apply tmap3_reindexed, Conv1d_apply_reindexed; [congruence | exact Hre].
    - intros H. destruct (Htr H) as (HB & Hid & _).
      split; [exact HB | exact Hid]. }
  (* the log-precisions *)
  assert (Hlp : reindexed beta sigma lp' lp).
  { unfold XI.logprec_of in E2, E2'.
    destruct (Conv1d_forward (XI.lin2 q) h') as [z'|e] eqn:Ez'; [|discriminate].
    destruct (Conv1d_forward (XI.lin2 q) h) as [z|e] eqn:Ez; [|discriminate].
    cbn [bind] in E2, E2'. injection E2 as <-. injection E2' as <-.
    apply Conv1d_forward_inv in Ez'. destruct Ez' as (_ & _ & ->).
    apply Conv1d_forward_inv in Ez. destruct Ez as (HCh & _ & ->).
    apply tmap3_reindexed, tmap3_reindexed, Conv1d_apply_reindexed;
      assumption. }
  (* the augmented time axis *)
  set (sigma' := fun t => if (t <? t3_T x)%nat then sigma t else t).
  assert (Hp' : permutation_of (t3_T x + 1) sigma')
    by (apply permutation_of_extend, Hp).
  assert (Hplp : permutation_of (t3_T lp) sigma) by (rewrite HTl; exact Hp).
  assert (Ha : reindexed beta sigma' a' a).
  { split; [congruence|]. split; [congruence|].
    intros i c t Hi Hc Ht.
    rewrite Hga' by congruence. rewrite Hga by congruence.
    rewrite (XI_aug_reindexed beta sigma lp' lp _ i c t Hplp Hlp)
      by congruence.
    rewrite HTl. reflexivity. }
  assert (Hsm : reindexed beta sigma' (softmax_dim2 a') (softmax_dim2 a)).
  { apply softmax_reindexed; [rewrite HTa; exact Hp' | exact Ha]. }
  destruct Hsm as (_ & _ & Hgs). cbn [softmax_dim2 t3_B t3_C t3_T] in Hgs.
  assert (Hmom : forall (f : num -> num) i c,
            (i < B')%nat -> (c < t3_C x)%nat ->
            nsum (t3_T x + 1)
                 (fun t => nmul (f (XI_aug x' (XI.prior_mean q) i c t))
                                (get3 (softmax_dim2 a') i c t))
            = nsum (t3_T x + 1)
                   (fun t => nmul (f (XI_aug x (XI.prior_mean q) (beta i) c t))
                                  (get3 (softmax_dim2 a) (beta i) c t))).
  { intros f i c Hi Hc.
    rewrite <- (nsum_perm (t3_T x + 1) sigma'
                  (fun t => nmul (f (XI_aug x (XI.prior_mean q) (beta i) c t))
                                 (get3 (softmax_dim2 a) (beta i) c t)) Hp').
    apply nsum_ext. intros t Ht.
    rewrite (XI_aug_reindexed beta sigma x' x _ i c t Hp Hre Hi Hc).
    fold (sigma' t).
    rewrite (Hgs i c t) by congruence. reflexivity. }
  assert (Ephi : forall i c, (i < B')%nat -> (c < t3_C x)%nat ->
            XI_phi q x' (softmax_dim2 a') i c
            = XI_phi q x (softmax_dim2 a) (beta i) c).
  { intros i c Hi Hc. apply (Hmom (fun v => v) i c Hi Hc). }
  assert (Esig : forall i c, (i < B')%nat -> (c < t3_C x)%nat ->
            XI_sigma q x' (softmax_dim2 a') i c
            = XI_sigma q x (softmax_dim2 a) (beta i) c).
  { intros i c Hi Hc. unfold XI_sigma. rewrite (Ephi i c Hi Hc). do 3 f_equal.
    apply (Hmom npow2 i c Hi Hc). }
  exists (XI.set_bn q l), out, (XI.set_bn q l'), out'.
  split; [exact E|]. split; [exact E'|].
  intros i k Hi Hk. unfold XI.get_out_dim in Hk. rewrite W5 in Hk.
  destruct (XI.stddev q) eqn:Esd.
  - destruct (H1 eq_refl) as (o & -> & _ & _ & _ & Hg).
    destruct (H1' eq_refl) as (o' & -> & _ & _ & _ & Hg').
    cbn [out_entry].
    destruct (Nat.lt_ge_cases k (t3_C x)) as [Hlt|Hge].
    + destruct (Hg' i k 0%nat Hi Hlt) as [-> _].
      destruct (Hg (beta i) k 0%nat (Hbeta i Hi) Hlt) as [-> _].
      apply Ephi; assumption.
    + replace k with (t3_C x + (k - t3_C x))%nat by lia.
      destruct (Hg' i (k - t3_C x)%nat 0%nat Hi ltac:(lia)) as [_ ->].
      destruct (Hg (beta i) (k - t3_C x)%nat 0%nat (Hbeta i Hi) ltac:(lia))
        as [_ ->].
      apply Esig; [exact Hi | lia].
  - destruct (H0 eq_refl) as (o & -> & _ & _ & Hg).
    destruct (H0' eq_refl) as (o' & -> & _ & _ & Hg').
    cbn [out_entry].
    rewrite (Hg' i k Hi) by lia. rewrite (Hg (beta i) k (Hbeta i Hi)) by lia.
    apply Ephi; [exact Hi | lia].
Qed.

Lemma XI_rows_and_frames_witness :
  XI_wf xi_stddev_ex /\
  permutation_of (t3_T (const3 2 1 2 1)) (fun t => (1 - t)%nat) /\
  exists q1 out q1' out',
    XI.forward xi_stddev_ex (Rank3 (const3 2 1 2 1)) = (q1, Ok out) /\
    XI.forward xi_stddev_ex
               (Rank3 (reindex 2 (fun i => i) (fun t => (1 - t)%nat)
                               (const3 2 1 2 1)))
    = (q1', Ok out') /\
    out_entry out' 1 1 = out_entry out 1 1.
Proof.
  assert (W : XI_wf xi_stddev_ex) by apply XI_init_wf.
  assert (Hp : permutation_of (t3_T (const3 2 1 2 1)) (fun t => (1 - t)%nat)).
  { unfold permutation_of. cbn [const3 t3_T]. split; intros; lia. }
  split; [exact W|]. split; [exact Hp|].
  destruct (XI_rows_and_frames xi_stddev_ex 2 (fun i => i)
              (fun t => (1 - t)%nat) (const3 2 1 2 1) W eq_refl)
    as (q1 & out & q1' & out' & E & E' & G).
  { cbn [const3 t3_T]. lia. }
  { exact Hp. }
  { intros i Hi. exact Hi. }
  { intros _. split; [reflexivity|]. split; [reflexivity|].
    cbn [const3 t3_B t3_T]. lia. }
  exists q1, out, q1', out'. split; [exact E|]. split; [exact E'|].
  apply G; [lia|]. unfold XI.get_out_dim. cbn. lia.
Defined.
